(* ===== verification/_CoqProject ===== *)
-Q . S2P
Prelude.v
JsString.v
Escape.v
Json.v
Item.v
Schema.v
Store.v
Query.v
Platform.v
MapView.v
Feed.v
App.v
Invariants.v
Progress.v
Device.v
Findings.v
