(* ===== verification/Prelude.v ===== *)
(** * SafeConnect: a verification development of [src/app.js]

    The program.  [src/app.js] is the whole of SafeConnect, a browser
    page that records panic alerts and incident reports.  Its parts are:
    - the item store: [loadItems], [saveItems], [addItem], [clearAll] and
      the delete handler of the feed, over the [localStorage] key
      ["safeconnect_items_v1"], holding one JSON array, newest first;
    - the query engine: [matchesSearch], [matchesFilter] and the
      [items.filter] of [renderFeed];
    - the feed projection: [renderFeed], [escapeHtml], the location text
      built with [toFixed], the copy and delete buttons;
    - the map projection: [upsertIncidentMarker], [rebuildMarkers] (one
      marker per stored item with a location, kept in the [markers] Map)
      and [updateMyMarkerOnMap] (the single "my position" marker);
    - the location panel: [renderLocationBox];
    - the handlers: panic, report submission, clear-all, get-location,
      theme toggle, each a sequence of synchronous segments separated by
      [await]s, all re-rendering through [renderAll].
    The components talk only through the store: every mutation is
    followed by [renderAll], which recomputes the feed and rebuilds the
    markers from what [loadItems] returns.

    The library, in dependency order.
    - [Prelude] (this file): JavaScript strings as lists of UTF-16 code
      units ([jstr]) and their literals, the exception type [result] of
      the JavaScript operations, the hint database [safeconnect], the
      tactics [eval_lits] and [find_infix], and the generic lemmas on
      lists, options and code units.
    - [JsString]: the string built-ins the code calls ([trim],
      [toLowerCase], [includes], [replaceAll], integer [String(n)]).
    - [Escape]: [escapeHtml] (lines 90-96) as the chain of five
      [replaceAll] calls, its equivalence with a one-pass escaper, the
      safety of its output and its inversion by the attribute decoder.
    - [Json]: the values of [JSON.parse], the codec interface
      [JsonCodec] (a [Class] whose law is the round trip) and an instance:
      a printer and a parser with fuel, proved inverse.
    - [Item]: positions and records, their JSON form and the decoder of a
      stored array back to records.
    - [Schema]: the shape of stored records as a type of JSON values
      ([jty], the judgement [has_type], a checker [typecheck] proved to
      decide it) and the record type [item_ty].
    - [Store]: [localStorage] and [loadItems], [saveItems], [addItem],
      [clearAll], the delete handler's update; the refinement of the
      abstract store [StoreSpec] under [store_repr].
    - [Query]: [matchesSearch], [matchesFilter] and the filter of
      [renderFeed], characterised exactly.
    - [Platform]: the browser's functions as the fields of the class
      [Platform] (clock, ids, number printing, locale dates, [share]),
      the helpers [uuid], [nowISO], [niceTime], [coordsToMapsLink], and a
      concrete instance [sample_platform] used by the executable
      scenarios; every other theorem holds for every instance.
    - [MapView]: Leaflet's state (marker objects, the markers on the map,
      the view, the open popup, the tile layers), the [markers] Map and
      [myMarker]; [initMap]'s map, [upsertIncidentMarker],
      [rebuildMarkers], [updateMyMarkerOnMap] and the centring of the
      centre-me button.
    - [Feed]: [toFixed], the row template of [renderFeed] and its
      placeholder, with the facts the click handlers rely on.
    - [App]: the page state [app] (the module-level variables and the
      DOM the code writes and reads back), the state-and-exception monad
      [M] of the handler code, [renderAll], every handler as its
      segments between [await]s: one definition per listener
      ([onPanic], [onReportSubmit], [toggleTheme], ...) wired by
      [dispatch] on an [event], one per continuation ([refresh_resume],
      [panic_after_geo], [report_file_done], ...) chosen by [resume] for
      a pending [task] and an [outcome]; the boot sequence [boot] and the
      step relation [step] that interleaves events and resumptions.
    - [Device]: [ensureGeolocation] and [fileToDataURL] as the outcome
      they settle with on what the browser reports, and [Math.round].
    - [Invariants]: a weakest-precondition calculus [wp] on [M], the
      invariant [app_inv] and its preservation by every step, hence by
      every state [reachable] from the boot.
    - [Progress]: a frame calculus on [M], the weight of the pending
      tasks, and the termination and liveness of the settlements.

    What the theorems show.  The store operations refine a list of
    records newest first, and load after save is the identity; the
    escaper is injective, safe and inverted by the decoder; the JSON
    codec round-trips; the filter keeps exactly the matching records;
    [rebuildMarkers] leaves one marker per located record and none of an
    earlier build, and the markup of its popups does not depend on the
    records' texts; [toFixed] writes the rounded value with the requested
    decimals.  In every reachable state of the page, whatever the order
    in which events and pending [await]s interleave, the stored records
    have unique ids, the feed is [renderFeed] of the store and the
    markers match the located records, and the stored value has the
    type of an array of records.  No sequence of settlements of pending
    [await]s is infinite, and from every state all of them can be
    settled.  Typing in the search box and choosing a category commute,
    and the centre-me button centres the map on the position it obtains
    with the user's popup open.  [Math.round] rounds halves up, and what the promise
    wrappers settle with is always an outcome the page accepts.
    Concrete traces on
    [sample_platform] replay the panic, report and clear scenarios.

    Findings, each proved by a theorem named in the manifest: [addItem]
    and the delete handler throw on a stored value that is not an array,
    which [loadItems] returns as it is, and the delete handler throws on
    a stored array with a [null] entry, which the spec says is excluded
    on load; a query matches across fields;
    turning the light theme off stores ["dark"], where the spec expects
    ["light"] or nothing; an image URL is put unescaped into an
    attribute; a panic whose [saveItems] exceeds the quota loses the
    record while the status reads that the panic was pressed; and a
    report whose file read fails leaves the location panel showing
    dashes although [myPosition] holds the position just obtained.

    Bounds and fuel.  [json_parse] runs the parser with fuel equal to
    the text's length, which the printed text of any value exceeds
    ([jsize]); [dec_places] searches at most as many places as the
    denominator has bits, more than its factors of two and five.  [toFixed] follows the
    ECMAScript algorithm exactly for [|x| < 10^21] and defers to
    [Number::toString] above.

    Not modelled.  The browser's side of the Geolocation, FileReader,
    clipboard and Web Share APIs (permission prompts, the share sheet):
    what they report is an input of [Device], and the settlement of
    [share] and [clipboard.writeText] is the [outcome] [Settled] or
    [Rejected], either of which may occur.  The [getElementById] lookups
    (constants bound to elements), the footer's year (written once,
    never read) and the CSS.  The decimal text of a double
    ([Number::toString]) is a field of [Platform]; the JSON printer of
    [Json] writes a non-integer number as its exact mantissa and
    exponent, not as the browser's shortest decimal, because the model's
    numbers are the exact values of doubles and the rounding of a
    decimal text back to a double is not modelled: the values read back
    are the same, the stored text is not the browser's character for
    character.
    [toLowerCase] is exact on Latin-1 and the identity elsewhere.  A
    stored array holding something other than records makes [renderAll]
    return [OutOfModel] rather than render it.

    Conventions.  A JavaScript string is a [list Z] of UTF-16 code units;
    [lit s] is the code units of an ASCII Rocq string [s], and [html s]
    the same with the backquote standing for the double quote of the
    HTML templates.  A JavaScript exception is the [Throw] branch of
    [result].  Numbers (coordinates, accuracy) are rationals [Q]: every
    finite double is one, and the arithmetic of [toFixed] and
    [Math.round] is exact on them. *)

From stdpp Require Export base list gmap strings.
From Stdlib Require Export ZArith QArith Qround.
Close Scope Q_scope.

Declare Scope js_scope.
Delimit Scope js_scope with js.
Open Scope js_scope.

(** ** JavaScript strings *)

(** A JavaScript string value: its sequence of UTF-16 code units. *)
Abbreviation jstr := (list Z).

Definition code_unit_of_ascii (a : Ascii.ascii) : Z := Z.of_N (Ascii.N_of_ascii a).

(** The code units of an ASCII literal of the source. *)
Definition lit (s : string) : jstr :=
  map code_unit_of_ascii (String.list_ascii_of_string s).

(** An HTML template fragment: as [lit], with the backquote (96, which
    no template of the source contains) standing for the double quote
    (34) that a Rocq string cannot hold. *)
Definition html (s : string) : jstr :=
  map (fun c => if Z.eqb c 96 then 34%Z else c) (lit s).



(** A code unit is a 16-bit unsigned value. *)
Definition is_code_unit (c : Z) : bool := ((0 <=? c) && (c <? 65536))%Z.

Definition well_formed_jstr (s : jstr) : Prop := Forall (fun c => is_code_unit c = true) s.

(** ** Exceptions *)

(** The exceptions the modelled code can raise. *)
Inductive js_exn :=
| TypeError      (* a method called on a value that does not have it *)
| SyntaxError    (* [JSON.parse] of a malformed text *)
| QuotaExceededError (* [localStorage.setItem] beyond the storage quota *)
| FileReadError (* the [FileReader] failed *)
| OutOfModel.    (* a stored array holding values this program does not
                    write: the views are not modelled on it *)

#[export] Instance js_exn_eq_dec : EqDecision js_exn.
Proof. solve_decision. Defined.

(** A JavaScript computation returns a value or throws. *)
Inductive result (A : Type) :=
| Ok (a : A)
| Throw (e : js_exn).
Arguments Ok {A} a.
Arguments Throw {A} e.

(** Sequencing: run [m]; if it throws, the exception propagates. *)
Definition rbind {A B} (m : result A) (f : A -> result B) : result B :=
  match m with Ok a => f a | Throw e => Throw e end.

Notation "'let!' x ':=' m 'in' k" := (rbind m (fun x => k))
  (at level 10, x name, m at level 100, k at level 200) : js_scope.

(** [try { c } catch { h }]. *)
Definition try_catch {A} (c : result A) (h : js_exn -> A) : A :=
  match c with Ok a => a | Throw e => h e end.

(** ** Tactics and hints *)

Create HintDb safeconnect discriminated.
Create Rewrite HintDb safeconnect_rw.

(** [invc H]: invert [H], substitute and clear it. *)
Ltac invc H := inversion H; subst; clear H.

(** Split every [if] on a boolean test of the goal, keeping the test. *)
Ltac case_ifs :=
  repeat match goal with
  | |- context [if ?b then _ else _] =>
      lazymatch b with
      | context [if _ then _ else _] => fail
      | _ => destruct b eqn:?
      end
  end.

(** Turn the boolean comparisons on [Z] and the boolean connectives of
    the hypotheses into propositions, for [lia]. *)
Ltac zify_bools :=
  repeat match goal with
  | H : (_ <=? _)%Z = true |- _ => apply Z.leb_le in H
  | H : (_ <=? _)%Z = false |- _ => apply Z.leb_gt in H
  | H : (_ <? _)%Z = true |- _ => apply Z.ltb_lt in H
  | H : (_ <? _)%Z = false |- _ => apply Z.ltb_ge in H
  | H : (_ =? _)%Z = true |- _ => apply Z.eqb_eq in H
  | H : (_ =? _)%Z = false |- _ => apply Z.eqb_neq in H
  | H : (_ && _) = true |- _ => apply andb_true_iff in H as [? ?]
  | H : (_ && _) = false |- _ => apply andb_false_iff in H as [?|?]
  | H : (_ || _) = true |- _ => apply orb_true_iff in H as [?|?]
  | H : (_ || _) = false |- _ => apply orb_false_iff in H as [? ?]
  | H : negb _ = true |- _ => apply negb_true_iff in H
  | H : negb _ = false |- _ => apply negb_false_iff in H
  end.

(** Prove a boolean comparison on integers from the hypotheses. *)
Ltac zbool_goal :=
  zify_bools;
  lazymatch goal with
  | |- (_ =? _)%Z = false => apply Z.eqb_neq
  | |- (_ =? _)%Z = true => apply Z.eqb_eq
  | |- (_ <? _)%Z = false => apply Z.ltb_ge
  | |- (_ <? _)%Z = true => apply Z.ltb_lt
  | |- (_ <=? _)%Z = false => apply Z.leb_gt
  | |- (_ <=? _)%Z = true => apply Z.leb_le
  | |- _ => idtac
  end; lia.

(** Close a goal about a function defined by boolean tests on integers. *)
Ltac zbool_cases := case_ifs; zify_bools; try lia.

(** Replace every string literal of the goal by its code units. *)
Ltac eval_lits :=
  repeat match goal with
  | |- context [html ?s] => let v := eval vm_compute in (html s) in change (html s) with v
  | |- context [lit ?s] => let v := eval vm_compute in (lit s) in change (lit s) with v
  end.

(** ** Generic lemmas on booleans, lists and options *)

Lemma Zeqb_refl_true (c : Z) : Z.eqb c c = true.
Proof. apply Z.eqb_refl. Qed.

(** [List.filter] keeps a sublist: it never grows. *)
Lemma filter_length_le {A} (f : A -> bool) (l : list A) :
  length (List.filter f l) <= length l.
Proof. induction l as [|x l IH]; simpl; [lia|]. destruct (f x); simpl; lia. Qed.

Lemma filter_all_true {A} (f : A -> bool) (l : list A) :
  (forall x, In x l -> f x = true) -> List.filter f l = l.
Proof.
  induction l as [|x l IH]; intros H; simpl; [done|].
  rewrite H by (left; done). f_equal. apply IH. intros y Hy. apply H. by right.
Qed.

Lemma filter_none {A} (f : A -> bool) (l : list A) :
  (forall x, In x l -> f x = false) -> List.filter f l = [].
Proof.
  induction l as [|x l IH]; intros H; simpl; [done|].
  rewrite H by (left; done). apply IH. intros y Hy. apply H. by right.
Qed.

Lemma filter_filter_andb {A} (f g : A -> bool) (l : list A) :
  List.filter f (List.filter g l) = List.filter (fun x => g x && f x) l.
Proof.
  induction l as [|x l IH]; simpl; [done|].
  destruct (g x); simpl; [destruct (f x); simpl|]; by rewrite IH.
Qed.

Lemma filter_ext_in {A} (f g : A -> bool) (l : list A) :
  (forall x, In x l -> f x = g x) -> List.filter f l = List.filter g l.
Proof.
  induction l as [|x l IH]; intros H; simpl; [done|].
  rewrite H by (left; done). rewrite IH; [done|]. intros y Hy. apply H. by right.
Qed.

Lemma length_filter_count {A} (f : A -> bool) (l : list A) :
  length (List.filter f l) = List.count_occ Bool.bool_dec (map f l) true.
Proof.
  induction l as [|x l IH]; simpl; [done|]. destruct (f x); simpl; lia.
Qed.

Lemma Forall_rev_iff {A} (P : A -> Prop) (l : list A) : Forall P (rev l) <-> Forall P l.
Proof.
  split; [|apply Forall_rev]. intros H. rewrite <- (rev_involutive l). by apply Forall_rev.
Qed.

Lemma flat_map_flat_map {A B C} (f : B -> list C) (g : A -> list B) (l : list A) :
  flat_map f (flat_map g l) = flat_map (fun x => flat_map f (g x)) l.
Proof. induction l as [|x l IH]; simpl; [done|]. by rewrite flat_map_app, IH. Qed.

(** Induction on the length of a list, for the functions that consume
    more than one element at a time. *)
Lemma list_length_ind {A} (P : list A -> Prop) :
  (forall l, (forall l', (length l' < length l)%nat -> P l') -> P l) -> forall l, P l.
Proof.
  intros H l. remember (length l) as n eqn:Hn. revert l Hn.
  induction n as [n IHn] using lt_wf_ind. intros l ->. apply H.
  intros l' Hl'. by apply (IHn (length l')).
Qed.

Lemma map_sublist {A B} (f : A -> B) (l1 l2 : list A) :
  sublist l1 l2 -> sublist (map f l1) (map f l2).
Proof. induction 1; simpl; by constructor. Qed.

Lemma filter_sublist_bool {A} (f : A -> bool) (l : list A) : sublist (List.filter f l) l.
Proof. induction l as [|x l IH]; simpl; [constructor|]. destruct (f x); by constructor. Qed.

(** An invariant of each step of a [fold_left] holds of the result:
    the [forEach] loops of the code. *)
Lemma fold_left_invariant {A B} (P : A -> Prop) (f : A -> B -> A) (l : list B) (a : A) :
  P a -> (forall a b, In b l -> P a -> P (f a b)) -> P (fold_left f l a).
Proof.
  revert a. induction l as [|b l IH]; simpl; intros a Ha Hf; [done|].
  apply IH; [apply Hf; auto|intros; apply Hf; auto].
Qed.

(** [arr.join("")] of a list of texts. *)
Lemma mjoin_cons {A} (l : list A) (ls : list (list A)) : mjoin (l :: ls) = l ++ mjoin ls.
Proof. reflexivity. Qed.

(** ** Markup occurrences *)

(** [l] occurs in [k]: [k = k1 ++ l ++ k2].  Occurrences in a text built
    by a template are found by walking down the text a code unit or a
    piece at a time ([find_infix]). *)
Definition occurs {A} (l k : list A) : Prop := exists k1 k2, k = k1 ++ l ++ k2.

Lemma infix_here {A} (l k : list A) : occurs l (l ++ k).
Proof. by exists [], k. Qed.

Lemma infix_cons_later {A} (l k : list A) (x : A) : occurs l k -> occurs l (x :: k).
Proof. intros (k1 & k2 & ->). by exists (x :: k1), k2. Qed.

Lemma infix_app_later {A} (l k j : list A) : occurs l k -> occurs l (j ++ k).
Proof. intros (k1 & k2 & ->). exists (j ++ k1), k2. by rewrite <- app_assoc. Qed.

(** Find a piece of markup [m] (literals and opaque parts) in a text
    built by a template: [occurs m t]. *)
Ltac find_infix :=
  eval_lits; cbn [app];
  repeat first
    [ solve [exists []; eexists; cbn [app]; rewrite <- ?app_assoc; reflexivity]
    | apply infix_cons_later
    | apply infix_app_later ].

#[export] Hint Resolve filter_length_le : safeconnect.
#[export] Hint Rewrite @filter_filter_andb : safeconnect_rw.
