(* ===== verification/JsString.v ===== *)
(** * JavaScript string built-ins

    The [String.prototype] methods that [src/app.js] calls, on strings as
    lists of UTF-16 code units, each translated from its ECMAScript
    algorithm: [trim] (the search box, the report description),
    [toLowerCase] (the search), [includes] (the search), [replaceAll]
    (the five passes of [escapeHtml]) and the decimal [String(n)] of an
    integer (the accuracy of a location).  Each comes with the lemma that
    states what it computes. *)

From S2P Require Import Prelude.

Local Open Scope Z_scope.

(** ** [String.prototype.trim] *)

(** The code units of WhiteSpace and LineTerminator (ECMAScript 12.2,
    12.3): TAB, VT, FF, ZWNBSP, SP, NBSP, the other category Zs
    characters of the BMP, LF, CR, LS and PS. *)
Definition is_js_space (c : Z) : bool :=
  (c =? 9) || (c =? 10) || (c =? 11) || (c =? 12) || (c =? 13) ||
  (c =? 32) || (c =? 160) || (c =? 5760) || ((8192 <=? c) && (c <=? 8202)) ||
  (c =? 8232) || (c =? 8233) || (c =? 8239) || (c =? 8287) ||
  (c =? 12288) || (c =? 65279).

Fixpoint trim_start (s : jstr) : jstr :=
  match s with
  | [] => []
  | c :: s' => if is_js_space c then trim_start s' else s
  end.

Definition trim_end (s : jstr) : jstr := rev (trim_start (rev s)).

(** [s.trim()]: TrimString(s, start+end). *)
Definition trim (s : jstr) : jstr := trim_end (trim_start s).

(** ** [String.prototype.toLowerCase] *)

(** The lower-case mapping of one code unit: ASCII [A-Z] and the Latin-1
    capitals [À-Þ] (but the sign [×]) map 32 code points up; every other
    code unit is left as it is.  This is the Unicode default case mapping
    on Latin-1, and the identity elsewhere (JavaScript maps more letters,
    e.g. Greek and Cyrillic capitals, which the model does not). *)
Definition lower_cu (c : Z) : Z :=
  if ((65 <=? c) && (c <=? 90)) || ((192 <=? c) && (c <=? 222) && negb (c =? 215))
  then c + 32 else c.

Definition toLowerCase (s : jstr) : jstr := map lower_cu s.

(** ** [String.prototype.includes] and [indexOf] *)

Fixpoint is_prefix (p s : jstr) : bool :=
  match p, s with
  | [], _ => true
  | c :: p', d :: s' => (c =? d) && is_prefix p' s'
  | _ :: _, [] => false
  end.

(** The first [i], counting from [i0], at which [q] occurs in [t]. *)
Fixpoint search (q t : jstr) (i0 : nat) : option nat :=
  if is_prefix q t then Some i0
  else match t with
       | [] => None
       | _ :: t' => search q t' (S i0)
       end.

(** StringIndexOf(s, q, from) (ECMAScript 6.1.4.1): [None] is
    "not-found". *)
Definition index_of (s q : jstr) (from : nat) : option nat :=
  if (from <=? length s)%nat then search q (drop from s) from else None.

(** [s.includes(q)]: StringIndexOf(s, q, 0) is found. *)
Definition includes (s q : jstr) : bool :=
  match index_of s q 0 with Some _ => true | None => false end.

(** ** [String.prototype.replaceAll] with a string pattern *)

(** The positions of the matches, as the loop of [replaceAll] (22.1.3.20,
    steps 10-12) collects them: after a match at [p] the search resumes
    at [p + max(1, |q|)].  The fuel is [|s| + 1] (see [replaceAll]). *)
Fixpoint match_positions (fuel : nat) (s q : jstr) (pos : nat) : list nat :=
  match fuel with
  | O => []
  | S f =>
      match index_of s q pos with
      | None => []
      | Some p => p :: match_positions f s q (p + Nat.max 1 (length q))%nat
      end
  end.

Definition substring (s : jstr) (a b : nat) : jstr := take (b - a)%nat (drop a s).

(** GetSubstitution (22.1.3.19.1) for a string pattern (no captures):
    [$$], [$&], [$`] and [$'] are replaced, every other code unit is
    copied. *)
Fixpoint get_substitution (matched s : jstr) (position : nat) (tmpl : jstr) : jstr :=
  match tmpl with
  | 36 :: 36 :: t => 36 :: get_substitution matched s position t
  | 36 :: 38 :: t => matched ++ get_substitution matched s position t
  | 36 :: 96 :: t => take position s ++ get_substitution matched s position t
  | 36 :: 39 :: t =>
      drop (Nat.min (position + length matched)%nat (length s)) s
        ++ get_substitution matched s position t
  | c :: t => c :: get_substitution matched s position t
  | [] => []
  end.

(** Steps 13-15: copy the text between matches and substitute each. *)
Fixpoint assemble (s q rep : jstr) (positions : list nat) (end_last : nat) : jstr :=
  match positions with
  | [] => if (end_last <? length s)%nat then drop end_last s else []
  | p :: ps =>
      substring s end_last p ++ get_substitution q s p rep
        ++ assemble s q rep ps (p + length q)%nat
  end.

(** [s.replaceAll(q, rep)] for a string [q] and a string [rep]. *)
Definition replaceAll (s q rep : jstr) : jstr :=
  assemble s q rep (match_positions (S (length s)) s q 0) 0.

(** ** Specifications *)

Lemma is_prefix_spec (p s : jstr) : is_prefix p s = true <-> exists r, s = p ++ r.
Proof.
  revert s; induction p as [|c p IH]; intros [|d s]; simpl.
  - split; [intros _; by exists []|done].
  - split; [intros _; by eexists|done].
  - split; [done|intros [r Hr]; discriminate].
  - rewrite andb_true_iff, Z.eqb_eq, IH. split.
    + intros [-> [r ->]]. by exists r.
    + intros [r Hr]. injection Hr as -> ->. eauto.
Qed.

Lemma is_prefix_app (p r : jstr) : is_prefix p (p ++ r) = true.
Proof. apply is_prefix_spec. eauto. Qed.

Lemma search_ge (q t : jstr) (i0 i : nat) : search q t i0 = Some i -> (i0 <= i)%nat.
Proof.
  revert i0; induction t as [|x t IH]; intros i0; simpl;
    destruct (is_prefix q _); intros H; try (injection H as <-; lia); try done.
  apply IH in H. lia.
Qed.

Lemma search_sound (q t : jstr) (i0 i : nat) :
  search q t i0 = Some i -> (i0 <= i)%nat /\ is_prefix q (drop (i - i0) t) = true.
Proof.
  revert i0; induction t as [|x t IH]; intros i0; simpl;
    destruct (is_prefix q _) eqn:E; intros H; try done;
    try (injection H as <-; rewrite Nat.sub_diag; by split).
  apply IH in H as [Hle Hp]. split; [lia|].
  by replace (i - i0)%nat with (S (i - S i0)) by lia.
Qed.

Lemma search_complete (q t : jstr) (n i0 : nat) :
  is_prefix q (drop n t) = true -> exists i, search q t i0 = Some i.
Proof.
  revert n i0; induction t as [|x t IH]; intros n i0 Hp; simpl.
  - rewrite drop_nil in Hp. rewrite Hp. eauto.
  - destruct (is_prefix q (x :: t)) eqn:E; [eauto|].
    destruct n as [|n]; simpl in Hp; [congruence|eauto].
Qed.

(** Substring containment: [s.includes(q)] holds exactly when [q] occurs
    in [s]. *)
Lemma includes_spec (s q : jstr) : includes s q = true <-> exists a b, s = a ++ q ++ b.
Proof.
  unfold includes, index_of. rewrite drop_0. simpl.
  split.
  - destruct (search q s 0) as [i|] eqn:E; [|done]. intros _.
    apply search_sound in E as (_ & Hp). rewrite Nat.sub_0_r in Hp.
    apply is_prefix_spec in Hp as [b Hb]. exists (take i s), b.
    by rewrite <- Hb, take_drop.
  - intros (a & b & ->).
    destruct (search_complete q (a ++ q ++ b) (length a) 0) as [i ->]; [|done].
    rewrite drop_app_length. apply is_prefix_app.
Qed.

(** The empty string is included in every string. *)
Lemma includes_nil (s : jstr) : includes s [] = true.
Proof. apply includes_spec. exists [], s. done. Qed.

Lemma trim_start_nil_iff (s : jstr) :
  trim_start s = [] <-> Forall (fun c => is_js_space c = true) s.
Proof.
  induction s as [|c s IH]; simpl; [split; auto|].
  destruct (is_js_space c) eqn:E.
  - rewrite IH. split; [by constructor|by inversion 1].
  - split; [done|]. inversion 1; congruence.
Qed.

Lemma trim_start_split (s : jstr) :
  exists pre, s = pre ++ trim_start s /\ Forall (fun c => is_js_space c = true) pre.
Proof.
  induction s as [|c s IH]; simpl; [by exists []|].
  destruct (is_js_space c) eqn:E.
  - destruct IH as [pre [Hs Hpre]]. exists (c :: pre). simpl. rewrite <- Hs. auto.
  - by exists [].
Qed.

(** Trimming keeps what holds of every code unit. *)
Lemma trim_forall (P : Z -> Prop) (s : jstr) : Forall P s -> Forall P (trim s).
Proof.
  assert (Hs : forall t, Forall P t -> Forall P (trim_start t)).
  { intros t Ht. destruct (trim_start_split t) as (pre & Heq & _). rewrite Heq in Ht.
    by apply Forall_app in Ht as [_ ?]. }
  intros H. unfold trim, trim_end. apply Forall_rev_iff, Hs, Forall_rev_iff, Hs, H.
Qed.

(** A string trims to the empty string exactly when it is made of white
    space and line terminators. *)
Lemma trim_nil_iff (s : jstr) :
  trim s = [] <-> Forall (fun c => is_js_space c = true) s.
Proof.
  unfold trim, trim_end.
  assert (Hrev : forall l : jstr, rev l = [] <-> l = []).
  { intros l. split; [|by intros ->]. destruct l; simpl; [done|].
    intros H. symmetry in H. by apply app_cons_not_nil in H. }
  rewrite Hrev, trim_start_nil_iff, Forall_rev_iff.
  destruct (trim_start_split s) as [pre [Hs Hpre]].
  split.
  - intros H. rewrite Hs. apply Forall_app. auto.
  - intros H. rewrite Hs in H. by apply Forall_app in H as [_ ?].
Qed.

Lemma lower_cu_idem (c : Z) : lower_cu (lower_cu c) = lower_cu c.
Proof. unfold lower_cu. zbool_cases. Qed.

(** Lower-casing is idempotent. *)
Lemma toLowerCase_idem (s : jstr) : toLowerCase (toLowerCase s) = toLowerCase s.
Proof.
  unfold toLowerCase. rewrite map_map. apply map_ext. apply lower_cu_idem.
Qed.

Lemma length_toLowerCase (s : jstr) : length (toLowerCase s) = length s.
Proof. apply length_map. Qed.

Lemma toLowerCase_app (s t : jstr) : toLowerCase (s ++ t) = toLowerCase s ++ toLowerCase t.
Proof. apply map_app. Qed.

#[export] Hint Rewrite toLowerCase_idem toLowerCase_app : safeconnect_rw.

(** *** [replaceAll] with a one-code-unit pattern *)

Lemma index_of_ge (s q : jstr) (k p : nat) : index_of s q k = Some p -> (k <= p)%nat.
Proof.
  unfold index_of. destruct (k <=? length s)%nat; [|done]. apply search_ge.
Qed.

Lemma index_of_past (s q : jstr) (k : nat) :
  (length s <= k)%nat -> q <> [] -> index_of s q k = None.
Proof.
  intros Hk Hq. unfold index_of.
  destruct (Nat.leb_spec k (length s)); [|done].
  rewrite drop_ge by lia. simpl. by destruct q.
Qed.

Lemma index_of_single (s : jstr) (c x : Z) (k : nat) :
  s !! k = Some x ->
  index_of s [c] k = if x =? c then Some k else index_of s [c] (S k).
Proof.
  intros Hk. pose proof (lookup_lt_Some _ _ _ Hk) as Hlt.
  unfold index_of. rewrite (drop_S _ _ _ Hk).
  destruct (Nat.leb_spec k (length s)); [|lia]. cbn [search is_prefix].
  rewrite (Z.eqb_sym c x). destruct (x =? c); [done|].
  by destruct (Nat.leb_spec (S k) (length s)); [|lia].
Qed.

Lemma match_positions_ge (fuel : nat) (s q : jstr) (k p : nat) :
  In p (match_positions fuel s q k) -> (k <= p)%nat.
Proof.
  revert k; induction fuel as [|f IH]; intros k; simpl; [done|].
  destruct (index_of s q k) as [p'|] eqn:E; [|done].
  apply index_of_ge in E. intros [->|Hin]; [done|]. apply IH in Hin. lia.
Qed.

Lemma assemble_nil (s q rep : jstr) (k : nat) : assemble s q rep [] k = drop k s.
Proof.
  simpl. destruct (Nat.ltb_spec k (length s)); [done|]. by rewrite drop_ge.
Qed.

Lemma substring_diag (s : jstr) (k : nat) : substring s k k = [].
Proof. unfold substring. by rewrite Nat.sub_diag. Qed.

(** Before the first match, [assemble] copies the code unit at the
    current position. *)
Lemma assemble_copy (s q rep : jstr) (ps : list nat) (k : nat) (x : Z) :
  s !! k = Some x -> (forall p, In p ps -> (S k <= p)%nat) ->
  assemble s q rep ps k = x :: assemble s q rep ps (S k).
Proof.
  intros Hx Hps. destruct ps as [|p ps].
  - rewrite !assemble_nil. apply drop_S, Hx.
  - assert (S k <= p)%nat by (apply Hps; by left). simpl. f_equal.
    unfold substring. rewrite (drop_S _ _ _ Hx).
    replace (p - k)%nat with (S (p - S k)) by lia. done.
Qed.

(** A template without [$] is copied as it is. *)
Lemma get_substitution_plain (matched s : jstr) (position : nat) (tmpl : jstr) :
  ~ In 36%Z tmpl -> get_substitution matched s position tmpl = tmpl.
Proof.
  induction tmpl as [|c t IH]; intros Hn; [done|].
  assert (c <> 36%Z) by (intros ->; apply Hn; by left).
  assert (~ In 36%Z t) by (intros ?; apply Hn; by right).
  destruct c as [|[p|p|]|p]; simpl; try (f_equal; by apply IH);
    repeat (destruct p as [p|p|]; try (f_equal; by apply IH)); done.
Qed.

(** The one-pass replacement of a code unit. *)
Definition replace_unit (c : Z) (rep : jstr) (x : Z) : jstr :=
  if x =? c then rep else [x].

Lemma replaceAll_single_from (c : Z) (rep s : jstr) :
  ~ In 36%Z rep ->
  forall n k fuel, (length s - k = n)%nat -> (n < fuel)%nat ->
  assemble s [c] rep (match_positions fuel s [c] k) k
  = flat_map (replace_unit c rep) (drop k s).
Proof.
  intros Hrep n. induction n as [|n IH]; intros k fuel Hn Hf.
  - destruct fuel as [|f]; [lia|]. simpl.
    rewrite index_of_past by (done || lia). rewrite assemble_nil.
    by rewrite drop_ge by lia.
  - destruct (lookup_lt_is_Some_2 s k) as [x Hx]; [lia|].
    destruct fuel as [|f]; [lia|].
    rewrite (drop_S _ _ _ Hx). simpl flat_map. unfold replace_unit at 1.
    simpl match_positions. rewrite (index_of_single _ _ _ _ Hx).
    destruct (x =? c) eqn:Exc.
    + simpl. rewrite substring_diag, get_substitution_plain by done.
      simpl. f_equal. replace (k + 1)%nat with (S k) by lia. apply IH; lia.
    + rewrite (assemble_copy _ _ _ _ _ x Hx).
      * simpl. f_equal. rewrite <- IH with (fuel := S f) by lia. done.
      * intros p Hp. eapply (match_positions_ge (S f)). simpl. exact Hp.
Qed.

(** [s.replaceAll(c, rep)], for one code unit [c] and a replacement
    without [$], replaces each occurrence of [c] by [rep] in one pass. *)
Lemma replaceAll_single (c : Z) (rep s : jstr) :
  ~ In 36%Z rep -> replaceAll s [c] rep = flat_map (replace_unit c rep) s.
Proof.
  intros Hrep. unfold replaceAll.
  rewrite (replaceAll_single_from c rep s Hrep (length s) 0 (S (length s))); [|lia..].
  by rewrite drop_0.
Qed.

(** ** Decimal digits: [String(n)] of an integer *)

Definition is_digit (c : Z) : bool := (48 <=? c) && (c <=? 57).

(** The decimal digits of [n >= 0], least significant first. *)
Fixpoint digits_rev (fuel : nat) (n : Z) : jstr :=
  match fuel with
  | O => []
  | S f => if n <? 10 then [48 + n] else (48 + n mod 10) :: digits_rev f (n / 10)
  end.

(** A number below [2^k] has at most [k] decimal digits: [log2 n + 1]
    steps of [digits_rev] suffice (lemma [decimal_fuel_enough]). *)
Definition decimal_fuel (n : Z) : nat := S (Z.to_nat (Z.log2 n)).

(** The decimal numeral of [n >= 0]. *)
Definition nat_to_decimal (n : Z) : jstr := rev (digits_rev (decimal_fuel n) n).

(** [String(z)] (Number::toString, 6.1.6.1.20) of an integer [z] with
    [|z| < 10^21]: its sign and its decimal digits. *)
Definition Z_to_decimal (z : Z) : jstr :=
  if z <? 0 then 45 :: nat_to_decimal (- z) else nat_to_decimal z.

(** The value of a numeral read from the left, as a parser reads it. *)
Definition decimal_value (ds : jstr) : Z := fold_left (fun acc d => acc * 10 + (d - 48)) ds 0.

Fixpoint value_rev (ds : jstr) : Z :=
  match ds with [] => 0 | d :: ds' => (d - 48) + 10 * value_rev ds' end.

Lemma fold_left_value (ds : jstr) (acc : Z) :
  fold_left (fun acc d => acc * 10 + (d - 48)) ds acc = acc * 10 ^ Z.of_nat (length ds) + value_rev (rev ds).
Proof.
  revert acc; induction ds as [|d ds IH] using rev_ind; intros acc; simpl; [lia|].
  rewrite fold_left_app, IH, rev_app_distr, length_app. simpl.
  rewrite Nat2Z.inj_add, Z.pow_add_r by lia. simpl. lia.
Qed.

Lemma decimal_value_rev (ds : jstr) : decimal_value (rev ds) = value_rev ds.
Proof. unfold decimal_value. rewrite fold_left_value, rev_involutive. lia. Qed.

Lemma value_rev_digits (fuel : nat) (n : Z) :
  0 <= n < 10 ^ Z.of_nat fuel -> value_rev (digits_rev fuel n) = n.
Proof.
  revert n; induction fuel as [|f IH]; intros n Hn; simpl in *; [lia|].
  destruct (Z.ltb_spec n 10); simpl; [lia|].
  rewrite Nat2Z.inj_succ, Z.pow_succ_r in Hn by lia.
  rewrite IH; [Z.div_mod_to_equations; lia|].
  split; [apply Z.div_pos; lia|]. apply Z.div_lt_upper_bound; lia.
Qed.

Lemma digits_rev_digits (fuel : nat) (n : Z) :
  0 <= n -> Forall (fun c => is_digit c = true) (digits_rev fuel n).
Proof.
  revert n; induction fuel as [|f IH]; intros n Hn; simpl; [constructor|].
  unfold is_digit. destruct (Z.ltb_spec n 10); repeat constructor.
  - apply andb_true_iff; split; apply Z.leb_le; lia.
  - apply andb_true_iff; split; apply Z.leb_le; pose proof (Z.mod_pos_bound n 10); lia.
  - apply IH. apply Z.div_pos; lia.
Qed.

Lemma decimal_fuel_enough (n : Z) : 0 <= n -> n < 10 ^ Z.of_nat (decimal_fuel n).
Proof.
  intros Hn. unfold decimal_fuel. rewrite Nat2Z.inj_succ, Z2Nat.id by apply Z.log2_nonneg.
  destruct (Z.eq_dec n 0) as [->|]; [simpl; lia|].
  apply Z.lt_le_trans with (2 ^ Z.succ (Z.log2 n)); [apply Z.log2_spec; lia|].
  apply Z.pow_le_mono_l. split; [lia|lia].
Qed.

(** Reading back the numeral of [n >= 0] gives [n]. *)
Lemma decimal_value_nat_to_decimal (n : Z) : 0 <= n -> decimal_value (nat_to_decimal n) = n.
Proof.
  intros Hn. unfold nat_to_decimal. rewrite decimal_value_rev.
  apply value_rev_digits. split; [done|]. by apply decimal_fuel_enough.
Qed.

Lemma nat_to_decimal_digits (n : Z) :
  0 <= n -> Forall (fun c => is_digit c = true) (nat_to_decimal n).
Proof. intros Hn. unfold nat_to_decimal. apply Forall_rev_iff, digits_rev_digits, Hn. Qed.

Lemma nat_to_decimal_nonempty (n : Z) : nat_to_decimal n <> [].
Proof.
  unfold nat_to_decimal, decimal_fuel. simpl.
  destruct (n <? 10); simpl; [done|]. intros H. symmetry in H. by apply app_cons_not_nil in H.
Qed.

Lemma digits_rev_lead (fuel : nat) (n : Z) :
  1 <= n < 10 ^ Z.of_nat fuel -> exists d ds, rev (digits_rev fuel n) = d :: ds /\ d <> 48.
Proof.
  revert n; induction fuel as [|f IH]; intros n Hn; simpl in *; [lia|].
  rewrite Nat2Z.inj_succ, Z.pow_succ_r in Hn by lia.
  destruct (Z.ltb_spec n 10); simpl.
  - exists (48 + n), []. split; [done|lia].
  - destruct (IH (n / 10)) as (d & ds & Heq & Hd).
    { split; [apply Z.div_le_lower_bound; lia|apply Z.div_lt_upper_bound; lia]. }
    rewrite Heq. eexists _, _. split; [reflexivity|done].
Qed.

(** A numeral has no leading zero: it starts with [0] only when it is
    [0]. *)
Lemma nat_to_decimal_lead (n : Z) :
  0 <= n -> exists d ds, nat_to_decimal n = d :: ds /\ (d = 48 -> ds = []).
Proof.
  intros Hn. destruct (Z.eq_dec n 0) as [->|Hn0].
  - by exists 48, [].
  - destruct (digits_rev_lead (decimal_fuel n) n) as (d & ds & Heq & Hd).
    { split; [lia|by apply decimal_fuel_enough]. }
    exists d, ds. unfold nat_to_decimal. by rewrite Heq.
Qed.
