(* ===== verification/Escape.v ===== *)
(** * [escapeHtml]

    [escapeHtml] of [src/app.js] (lines 182-189) protects every text the
    feed and the map popups interpolate into HTML.  It is modelled as the
    source writes it, five [replaceAll] passes in the order [&], [<], [>],
    the double quote, [']. The file proves that the chain equals a
    one-pass escaper ([escapeHtml_one_pass]), that its output holds none
    of [<], [>], ['] and the double quote ([escapeHtml_safe]), and that the
    HTML parser's decoding of
    character references gives the input back ([escapeHtml_decode]), which
    is what the [data-copy] and [data-delete] attributes of the feed rely
    on. *)

From S2P Require Import Prelude JsString.

Local Open Scope Z_scope.

(** ** The source *)

(** [function escapeHtml(s)]: [String(s)] is the identity on the strings
    the code passes. *)
Definition escapeHtml (s : jstr) : jstr :=
  replaceAll
    (replaceAll
       (replaceAll
          (replaceAll
             (replaceAll s (lit "&") (lit "&amp;"))
             (lit "<") (lit "&lt;"))
          (lit ">") (lit "&gt;"))
       [34] (lit "&quot;"))
    (lit "'") (lit "&#039;").

(** ** The one-pass reference escaper *)

Definition escape_cu (c : Z) : jstr :=
  if c =? 38 then lit "&amp;"
  else if c =? 60 then lit "&lt;"
  else if c =? 62 then lit "&gt;"
  else if c =? 34 then lit "&quot;"
  else if c =? 39 then lit "&#039;"
  else [c].

Definition escape_ref (s : jstr) : jstr := flat_map escape_cu s.

(** ** The HTML decoding of character references *)

(** What the HTML parser does to the five references [escapeHtml]
    produces, when it builds an attribute value or a text node; other
    code units are copied.  (The parser also decodes other references;
    on a text whose every [&] begins one of these five, as the output of
    [escapeHtml] is, the two decoders agree.) *)
Fixpoint html_decode (s : jstr) : jstr :=
  match s with
  | 38 :: 97 :: 109 :: 112 :: 59 :: t => 38 :: html_decode t
  | 38 :: 108 :: 116 :: 59 :: t => 60 :: html_decode t
  | 38 :: 103 :: 116 :: 59 :: t => 62 :: html_decode t
  | 38 :: 113 :: 117 :: 111 :: 116 :: 59 :: t => 34 :: html_decode t
  | 38 :: 35 :: 48 :: 51 :: 57 :: 59 :: t => 39 :: html_decode t
  | c :: t => c :: html_decode t
  | [] => []
  end.

(** The code units that end an attribute value or open markup. *)
Definition html_special (c : Z) : bool := (c =? 60) || (c =? 62) || (c =? 34) || (c =? 39).

(** ** Properties *)

Lemma escape_cu_cases (c : Z) :
  (c = 38 /\ escape_cu c = lit "&amp;") \/ (c = 60 /\ escape_cu c = lit "&lt;") \/
  (c = 62 /\ escape_cu c = lit "&gt;") \/ (c = 34 /\ escape_cu c = lit "&quot;") \/
  (c = 39 /\ escape_cu c = lit "&#039;") \/
  (c <> 38 /\ c <> 60 /\ c <> 62 /\ c <> 34 /\ c <> 39 /\ escape_cu c = [c]).
Proof. unfold escape_cu. zbool_cases; subst; tauto. Qed.

Lemma no_dollar_entities :
  ~ In 36 (lit "&amp;") /\ ~ In 36 (lit "&lt;") /\ ~ In 36 (lit "&gt;") /\
  ~ In 36 (lit "&quot;") /\ ~ In 36 (lit "&#039;").
Proof. repeat split; vm_compute; intuition discriminate. Qed.

(** The five passes of [escapeHtml] compose into one pass that escapes
    each code unit on its own: the source's order ([&] first) never
    escapes the [&] of a reference an earlier pass produced. *)
Lemma escapeHtml_flat_map (s : jstr) : escapeHtml s = escape_ref s.
Proof.
  destruct no_dollar_entities as (H1 & H2 & H3 & H4 & H5).
  unfold escapeHtml, escape_ref.
  change (lit "&") with [38]; change (lit "<") with [60];
    change (lit ">") with [62]; change (lit "'") with [39].
  rewrite !replaceAll_single by done.
  rewrite !flat_map_flat_map. apply flat_map_ext. intros x.
  destruct (escape_cu_cases x) as
    [[-> ->]|[[-> ->]|[[-> ->]|[[-> ->]|[[-> ->]|(? & ? & ? & ? & ? & ->)]]]]];
    [reflexivity..|].
  unfold replace_unit. do 5 (cbn [flat_map app]; zbool_cases). all: done.
Qed.

Lemma escape_ref_safe (s : jstr) (c : Z) :
  In c (escape_ref s) -> html_special c = false.
Proof.
  unfold escape_ref. rewrite in_flat_map.
  intros (x & _ & Hc).
  destruct (escape_cu_cases x) as
    [[? E]|[[? E]|[[? E]|[[? E]|[[? E]|(? & ? & ? & ? & ? & E)]]]]];
    rewrite E in Hc; cbn in Hc; intuition (subst; try reflexivity).
  unfold html_special. zbool_cases.
Qed.

(** A code unit other than [&] is copied by the decoder. *)
Lemma html_decode_copy (c : Z) (t : jstr) :
  c <> 38 -> html_decode (c :: t) = c :: html_decode t.
Proof.
  intros Hc. destruct c as [|p|p]; [done| |done].
  do 6 (destruct p as [p|p|]; try done).
Qed.

Lemma html_decode_escape_ref (s : jstr) : html_decode (escape_ref s) = s.
Proof.
  unfold escape_ref. induction s as [|x s IH]; [done|]. simpl flat_map.
  destruct (escape_cu_cases x) as
    [[-> ->]|[[-> ->]|[[-> ->]|[[-> ->]|[[-> ->]|(? & ? & ? & ? & ? & ->)]]]]];
    try (simpl; by rewrite IH).
  cbn [app]. rewrite html_decode_copy by done. by rewrite IH.
Qed.

(** C31. The sequential escaper is a one-pass escaper: it escapes the parts
    of a text apart, and a single code unit to its reference or to
    itself. *)
Theorem escapeHtml_one_pass (s t : jstr) (c : Z) :
  escapeHtml (s ++ t) = escapeHtml s ++ escapeHtml t /\ escapeHtml [c] = escape_cu c.
Proof.
  rewrite !escapeHtml_flat_map. unfold escape_ref. rewrite flat_map_app. split; [done|].
  simpl. apply app_nil_r.
Qed.

(** C30. Safety: the escaped text holds no [<], [>], ['] or the double
    quote, so it can open no tag and close no quoted attribute value. *)
Theorem escapeHtml_safe (s : jstr) (c : Z) :
  In c (escapeHtml s) -> html_special c = false.
Proof. rewrite escapeHtml_flat_map. apply escape_ref_safe. Qed.

(** C8. The browser's decoding of the escaped text is the original text. *)
Theorem escapeHtml_decode (s : jstr) : html_decode (escapeHtml s) = s.
Proof. rewrite escapeHtml_flat_map. apply html_decode_escape_ref. Qed.

(** Escaping is injective: two texts that escape alike are equal. *)
Corollary escapeHtml_inj (s t : jstr) : escapeHtml s = escapeHtml t -> s = t.
Proof.
  rewrite !escapeHtml_flat_map. intros H.
  rewrite <- (html_decode_escape_ref s), <- (html_decode_escape_ref t). by f_equal.
Qed.

(** Every code unit of the escaped text [<b>] is harmless. *)
Lemma escapeHtml_safe_witness :
  In 38 (escapeHtml (lit "<b>")) /\ html_special 38 = false.
Proof. split; [vm_compute; auto|]. apply (escapeHtml_safe (lit "<b>")). vm_compute. auto. Defined.

(** No character of an escaped text is special. *)
Lemma filter_special_escape (s : jstr) : List.filter html_special (escapeHtml s) = [].
Proof.
  apply filter_none. intros c Hc. by apply (escape_ref_safe s); rewrite <- escapeHtml_flat_map.
Qed.
