(* ===== verification/Json.v ===== *)
(** * JSON values and the codec of [localStorage]

    [src/app.js] keeps its items as the text [JSON.stringify(items)]
    under one [localStorage] key and reads them back with [JSON.parse]
    (lines 57-67).  This file holds the JavaScript values that JSON
    denotes ([jval]), the interface the store relies on ([JsonCodec], a
    class whose law is the round trip [parse (stringify v) = Some v] on
    well-formed values), and an instance of it: a printer that follows
    SerializeJSONProperty and QuoteJSONString of ECMAScript (25.5.2) and a
    recursive-descent parser of the JSON grammar (25.5.1), with the proof
    of the round trip.

    Two simplifications, both invisible to the program: the printer
    writes a number as its exact decimal mantissa and exponent ([5e-1]
    where JavaScript writes [0.5]), and the parser reads a numeral as the
    exact rational it denotes (JavaScript rounds it to a double; on the
    numerals of doubles, which are all the store ever holds, the two
    agree).  Objects keep their members in text order; JavaScript moves
    array-index keys first, which the well-formedness condition
    [json_wf] rules out. *)

From S2P Require Import Prelude JsString.

Local Open Scope Z_scope.

(** ** Values *)

(** A JavaScript value that JSON can denote. *)
#[warnings="-register-all"]
Inductive jval :=
| JNull
| JBool (b : bool)
| JNum (q : Q)
| JStr (s : jstr)
| JArr (l : list jval)
| JObj (kvs : list (jstr * jval)).

(** The induction principle that reaches the elements of arrays and the
    members of objects. *)
Section jval_rect.
Context (P : jval -> Type).
Context (PL : list jval -> Type) (PO : list (jstr * jval) -> Type).
Context (Hnull : P JNull) (Hbool : forall b, P (JBool b)) (Hnum : forall q, P (JNum q))
        (Hstr : forall s, P (JStr s)) (Harr : forall l, PL l -> P (JArr l))
        (Hobj : forall kvs, PO kvs -> P (JObj kvs))
        (Hlnil : PL []) (Hlcons : forall v l, P v -> PL l -> PL (v :: l))
        (Honil : PO []) (Hocons : forall k v kvs, P v -> PO kvs -> PO ((k, v) :: kvs)).

Fixpoint jval_rect' (v : jval) : P v :=
  match v with
  | JNull => Hnull
  | JBool b => Hbool b
  | JNum q => Hnum q
  | JStr s => Hstr s
  | JArr l =>
      Harr l ((fix go (l : list jval) : PL l :=
                 match l with [] => Hlnil | w :: l' => Hlcons w l' (jval_rect' w) (go l') end) l)
  | JObj kvs =>
      Hobj kvs ((fix go (kvs : list (jstr * jval)) : PO kvs :=
                   match kvs with
                   | [] => Honil
                   | (k, w) :: kvs' => Hocons k w kvs' (jval_rect' w) (go kvs')
                   end) kvs)
  end.
End jval_rect.

(** The size of a value: the fuel its parse needs. *)
Fixpoint jsize (v : jval) : nat :=
  match v with
  | JArr l => S (fold_right (fun w n => S (jsize w + n)) 0%nat l)
  | JObj kvs => S (fold_right (fun kv n => S (jsize kv.2 + n)) 0%nat kvs)
  | _ => 1%nat
  end.

(** ** Property keys *)

(** A canonical array index: a decimal numeral without leading zero
    below [2^32 - 1].  JavaScript orders such keys of an object first. *)
Definition is_array_index (k : jstr) : bool :=
  match k with
  | [] => false
  | c :: t =>
      forallb is_digit k && (negb (c =? 48) || match t with [] => true | _ => false end)
      && (decimal_value k <? 4294967295)
  end.

(** [CreateDataProperty(obj, k, v)] on an object whose properties are
    [kvs]: an existing key keeps its place and takes the new value. *)
Fixpoint obj_set (kvs : list (jstr * jval)) (k : jstr) (v : jval) : list (jstr * jval) :=
  match kvs with
  | [] => [(k, v)]
  | (k', w) :: kvs' =>
      if decide (k' = k) then (k, v) :: kvs' else (k', w) :: obj_set kvs' k v
  end.

(** [obj[k]] on an object: the value of key [k], [None] for undefined. *)
Definition obj_get (kvs : list (jstr * jval)) (k : jstr) : option jval :=
  snd <$> List.find (fun kv => bool_decide (kv.1 = k)) kvs.

(** ** [JSON.stringify] *)

(** The least [k] from [k0] on, within [fuel] steps, with [d] dividing
    [10^k]. *)
Fixpoint dec_places (fuel : nat) (k : nat) (d : Z) : nat :=
  match fuel with
  | O => k
  | S f => if (10 ^ Z.of_nat k) mod d =? 0 then k else dec_places f (S k) d
  end.

(** The decimal places of a number: a denominator [2^a 5^b] divides
    [10^k] for [k = max a b], which is below its bit size. *)
Definition num_places (q : Q) : nat := dec_places (Pos.size_nat (Qden q)) 0 (Zpos (Qden q)).

Definition num_mantissa (q : Q) : Z := Qnum q * (10 ^ Z.of_nat (num_places q) / Zpos (Qden q)).

(** A number the store can hold: a reduced fraction whose denominator
    divides a power of ten, as the value of every finite double is. *)
Definition num_ok (q : Q) : bool :=
  (Z.gcd (Qnum q) (Zpos (Qden q)) =? 1) && ((10 ^ Z.of_nat (num_places q)) mod Zpos (Qden q) =? 0).

(** The numeral of a number: its decimal mantissa, then [e-k] when it
    has [k > 0] decimal places. *)
Definition exp_suffix (k : nat) : jstr :=
  match k with
  | O => []
  | _ => [101; 45] ++ nat_to_decimal (Z.of_nat k)
  end.

Definition print_number (q : Q) : jstr := Z_to_decimal (num_mantissa q) ++ exp_suffix (num_places q).

Definition hex_digit (n : Z) : Z := if n <? 10 then 48 + n else 87 + n.

(** UnicodeEscape (25.5.2.4): [\u] and four lower-case hex digits. *)
Definition unicode_escape (c : Z) : jstr :=
  [92; 117; hex_digit (c / 4096 mod 16); hex_digit (c / 256 mod 16);
   hex_digit (c / 16 mod 16); hex_digit (c mod 16)].

Definition is_lead_surrogate (c : Z) : bool := (55296 <=? c) && (c <=? 56319).
Definition is_trail_surrogate (c : Z) : bool := (56320 <=? c) && (c <=? 57343).

(** QuoteJSONString (25.5.2.3), between the quotes: the short escapes,
    [\u] escapes for the other control characters and for lone
    surrogates, every other code unit copied. *)
Fixpoint quote_units (s : jstr) : jstr :=
  match s with
  | [] => []
  | c :: t =>
      if c =? 8 then 92 :: 98 :: quote_units t
      else if c =? 9 then 92 :: 116 :: quote_units t
      else if c =? 10 then 92 :: 110 :: quote_units t
      else if c =? 12 then 92 :: 102 :: quote_units t
      else if c =? 13 then 92 :: 114 :: quote_units t
      else if c =? 34 then 92 :: 34 :: quote_units t
      else if c =? 92 then 92 :: 92 :: quote_units t
      else if c <? 32 then unicode_escape c ++ quote_units t
      else if is_lead_surrogate c then
        match t with
        | d :: t' =>
            if is_trail_surrogate d then c :: d :: quote_units t'
            else unicode_escape c ++ quote_units t
        | [] => unicode_escape c
        end
      else if is_trail_surrogate c then unicode_escape c ++ quote_units t
      else c :: quote_units t
  end.

Definition quote (s : jstr) : jstr := 34 :: quote_units s ++ [34].

(** SerializeJSONArray (25.5.2.6): the elements, separated by [,]. *)
Fixpoint join_elems (f : jval -> jstr) (l : list jval) : jstr :=
  match l with
  | [] => []
  | w :: l' => f w ++ (match l' with [] => [] | _ => [44] end) ++ join_elems f l'
  end.

(** SerializeJSONObject (25.5.2.5): the members [key:value], separated
    by [,]. *)
Fixpoint join_members (f : jval -> jstr) (kvs : list (jstr * jval)) : jstr :=
  match kvs with
  | [] => []
  | (k, w) :: kvs' =>
      quote k ++ [58] ++ f w ++ (match kvs' with [] => [] | _ => [44] end)
        ++ join_members f kvs'
  end.

(** SerializeJSONProperty (25.5.2.2) of a value. *)
Fixpoint stringify (v : jval) : jstr :=
  match v with
  | JNull => lit "null"
  | JBool true => lit "true"
  | JBool false => lit "false"
  | JNum q => print_number q
  | JStr s => quote s
  | JArr l => 91 :: join_elems stringify l ++ [93]
  | JObj kvs => 123 :: join_members stringify kvs ++ [125]
  end.

Example stringify_ex :
  stringify (JObj [(lit "a", JArr [JNum (3 # 2); JNull]); (lit "b", JStr [34; 10])])
  = html "{`a`:[15e-1,null],`b`:`\`\n`}".
Proof. reflexivity. Qed.

(** ** [JSON.parse] *)

Definition is_json_ws (c : Z) : bool := (c =? 9) || (c =? 10) || (c =? 13) || (c =? 32).

Fixpoint skip_ws (s : jstr) : jstr :=
  match s with
  | c :: t => if is_json_ws c then skip_ws t else s
  | [] => []
  end.

(** The longest prefix of decimal digits, and the rest. *)
Fixpoint span_digits (s : jstr) : jstr * jstr :=
  match s with
  | c :: t => if is_digit c then let '(ds, r) := span_digits t in (c :: ds, r) else ([], s)
  | [] => ([], [])
  end.

Definition hex_value (c : Z) : option Z :=
  if (48 <=? c) && (c <=? 57) then Some (c - 48)
  else if (97 <=? c) && (c <=? 102) then Some (c - 87)
  else if (65 <=? c) && (c <=? 70) then Some (c - 55)
  else None.

(** The single-character escapes of JSONString: a backslash followed by
    the double quote, the backslash, the slash, [b], [f], [n], [r] or
    [t]. *)
Definition short_escape (e : Z) : option Z :=
  if e =? 34 then Some 34 else if e =? 92 then Some 92 else if e =? 47 then Some 47
  else if e =? 98 then Some 8 else if e =? 102 then Some 12 else if e =? 110 then Some 10
  else if e =? 114 then Some 13 else if e =? 116 then Some 9 else None.

Definition hex4 (h1 h2 h3 h4 : Z) : option Z :=
  match hex_value h1, hex_value h2, hex_value h3, hex_value h4 with
  | Some a, Some b, Some c, Some d => Some (a * 4096 + b * 256 + c * 16 + d)
  | _, _, _, _ => None
  end.

(** The body of a JSON string after its opening quote: the code units
    up to the closing quote, with the escapes decoded, and the rest. *)
Fixpoint parse_string (s : jstr) : option (jstr * jstr) :=
  match s with
  | [] => None
  | c :: t =>
      if c =? 34 then Some ([], t)
      else if c =? 92 then
        match t with
        | e :: t' =>
            if e =? 117 then
              match t' with
              | h1 :: h2 :: h3 :: h4 :: t'' =>
                  u ← hex4 h1 h2 h3 h4; '(r, rest) ← parse_string t''; Some (u :: r, rest)
              | _ => None
              end
            else u ← short_escape e; '(r, rest) ← parse_string t'; Some (u :: r, rest)
        | [] => None
        end
      else if c <? 32 then None
      else '(r, rest) ← parse_string t; Some (c :: r, rest)
  end.

(** The fraction part [.digits] of a numeral, if any. *)
Definition parse_frac (s : jstr) : option (jstr * jstr) :=
  match s with
  | c :: t =>
      if c =? 46 then
        let '(ds, r) := span_digits t in
        match ds with [] => None | _ => Some (ds, r) end
      else Some ([], s)
  | [] => Some ([], [])
  end.

(** The exponent part [e+digits], [E-digits], ... of a numeral, if any. *)
Definition parse_exp (s : jstr) : option (Z * jstr) :=
  match s with
  | c :: t =>
      if (c =? 101) || (c =? 69) then
        let '(sgn, t') :=
          match t with
          | d :: t'' => if d =? 43 then (1, t'') else if d =? 45 then (-1, t'') else (1, t)
          | [] => (1, t)
          end in
        let '(ds, r) := span_digits t' in
        match ds with [] => None | _ => Some (sgn * decimal_value ds, r) end
      else Some (0, s)
  | [] => Some (0, [])
  end.

(** The value [m * 10^e] of a numeral, in lowest terms. *)
Definition decimal_to_Q (m e : Z) : Q :=
  Qred (if 0 <=? e then (m * 10 ^ e) # 1 else m # Z.to_pos (10 ^ (- e))).

(** A JSON numeral after its sign: ([0] | [1-9][0-9]* ) fraction?
    exponent?, negated when [neg]. *)
Definition parse_unsigned (neg : bool) (s1 : jstr) : option (Q * jstr) :=
  let '(int, s2) := span_digits s1 in
  match int with
  | [] => None
  | d :: ds =>
      if (d =? 48) && negb (match ds with [] => true | _ => false end) then None
      else
        '(frac, s3) ← parse_frac s2;
        '(ex, s4) ← parse_exp s3;
        let m := decimal_value (int ++ frac) in
        Some (decimal_to_Q (if neg then - m else m) (ex - Z.of_nat (length frac)), s4)
  end.

(** A JSON numeral: an optional [-], then the unsigned part. *)
Definition parse_number (s : jstr) : option (Q * jstr) :=
  match s with
  | c :: t => if c =? 45 then parse_unsigned true t else parse_unsigned false s
  | [] => None
  end.

(** A JSON value, after white space; arrays and objects read their
    elements and members by the two loops below.  Each call consumes a
    unit of fuel; [json_parse] gives as much as the text is long. *)
Fixpoint parse_value (fuel : nat) (s : jstr) {struct fuel} : option (jval * jstr) :=
  match fuel with
  | O => None
  | S f =>
      match skip_ws s with
      | [] => None
      | c :: t =>
          if c =? 110 then (if is_prefix (lit "ull") t then Some (JNull, drop 3 t) else None)
          else if c =? 116 then (if is_prefix (lit "rue") t then Some (JBool true, drop 3 t) else None)
          else if c =? 102 then (if is_prefix (lit "alse") t then Some (JBool false, drop 4 t) else None)
          else if c =? 34 then '(u, r) ← parse_string t; Some (JStr u, r)
          else if c =? 91 then
            match skip_ws t with
            | d :: r => if d =? 93 then Some (JArr [], r) else parse_elems f t []
            | [] => None
            end
          else if c =? 123 then
            match skip_ws t with
            | d :: r => if d =? 125 then Some (JObj [], r) else parse_members f t []
            | [] => None
            end
          else '(q, r) ← parse_number (c :: t); Some (JNum q, r)
      end
  end
(** The elements of an array, after [[] or [,]: a value, then [,] and
    more elements or []] and the end. *)
with parse_elems (fuel : nat) (s : jstr) (acc : list jval) {struct fuel} : option (jval * jstr) :=
  match fuel with
  | O => None
  | S f =>
      '(v, r) ← parse_value f s;
      match skip_ws r with
      | d :: r' =>
          if d =? 44 then parse_elems f r' (acc ++ [v])
          else if d =? 93 then Some (JArr (acc ++ [v]), r')
          else None
      | [] => None
      end
  end
(** The members of an object, after [{] or [,]: a string key, [:], a
    value, then [,] and more members or [}] and the end.  A repeated key
    keeps its first place and takes its last value ([obj_set]). *)
with parse_members (fuel : nat) (s : jstr) (acc : list (jstr * jval)) {struct fuel}
  : option (jval * jstr) :=
  match fuel with
  | O => None
  | S f =>
      match skip_ws s with
      | c :: t =>
          if c =? 34 then
            '(k, r) ← parse_string t;
            match skip_ws r with
            | d :: r' =>
                if d =? 58 then
                  '(v, r'') ← parse_value f r';
                  match skip_ws r'' with
                  | e :: r3 =>
                      if e =? 44 then parse_members f r3 (obj_set acc k v)
                      else if e =? 125 then Some (JObj (obj_set acc k v), r3)
                      else None
                  | [] => None
                  end
                else None
            | [] => None
            end
          else None
      | [] => None
      end
  end.

(** [JSON.parse(text)]: one value and nothing but white space after it;
    [None] is the [SyntaxError] it throws. *)
Definition json_parse (s : jstr) : option jval :=
  match parse_value (S (length s)) s with
  | Some (v, r) => match skip_ws r with [] => Some v | _ => None end
  | None => None
  end.

(** ** Well-formed values *)

Fixpoint keys_nodup (kvs : list (jstr * jval)) : bool :=
  match kvs with
  | [] => true
  | (k, _) :: kvs' => negb (existsb (fun kv => bool_decide (kv.1 = k)) kvs') && keys_nodup kvs'
  end.

(** The values the round trip holds for: numbers of [num_ok], strings
    of code units, objects with distinct keys, none an array index. *)
Fixpoint json_wf (v : jval) : bool :=
  match v with
  | JNull | JBool _ => true
  | JNum q => num_ok q
  | JStr s => forallb is_code_unit s
  | JArr l => forallb json_wf l
  | JObj kvs =>
      keys_nodup kvs &&
      forallb (fun kv => forallb is_code_unit kv.1 && negb (is_array_index kv.1) && json_wf kv.2) kvs
  end.

Example json_parse_ex1 :
  json_parse (html " [1.5e1 , {`a`:true,`a`:null}, `xA\n` ] ")
  = Some (JArr [JNum 15; JObj [(lit "a", JNull)]; JStr [120; 65; 10]]).
Proof. reflexivity. Qed.

Example json_parse_ex2 : json_parse (lit "[1,]") = None.
Proof. reflexivity. Qed.

Example json_parse_ex3 : json_parse (lit "012") = None.
Proof. reflexivity. Qed.

Example json_parse_ex4 : json_parse (lit "-0.25") = Some (JNum (-1 # 4)).
Proof. reflexivity. Qed.

(** ** The round trip *)

(** *** Strings *)

Lemma parse_string_copy (c : Z) (t : jstr) :
  (c =? 34) = false -> (c =? 92) = false -> (c <? 32) = false ->
  parse_string (c :: t) = '(r, rest) ← parse_string t; Some (c :: r, rest).
Proof. intros H1 H2 H3. simpl. by rewrite H1, H2, H3. Qed.

Lemma hex_value_digit (n : Z) : 0 <= n < 16 -> hex_value (hex_digit n) = Some n.
Proof. intros Hn. unfold hex_value, hex_digit. zbool_cases; f_equal; lia. Qed.

Lemma parse_string_unicode (c : Z) (t : jstr) :
  0 <= c < 65536 ->
  parse_string (unicode_escape c ++ t) = '(r, rest) ← parse_string t; Some (c :: r, rest).
Proof.
  intros Hc. unfold unicode_escape. simpl. unfold hex4.
  rewrite !hex_value_digit by (apply Z.mod_pos_bound; lia).
  replace (c / 4096 mod 16 * 4096 + c / 256 mod 16 * 256 + c / 16 mod 16 * 16 + c mod 16) with c;
    [done|Z.div_mod_to_equations; lia].
Qed.

(** Each branch of QuoteJSONString is read back by [parse_string]. *)
Lemma parse_quote_units (s rest : jstr) :
  forallb is_code_unit s = true -> parse_string (quote_units s ++ 34 :: rest) = Some (s, rest).
Proof.
  induction s as [s IH] using list_length_ind.
  destruct s as [|c t]; intros Hwf; [done|].
  simpl in Hwf. apply andb_true_iff in Hwf as [Hc Ht]. unfold is_code_unit in Hc.
  assert (IHt : parse_string (quote_units t ++ 34 :: rest) = Some (t, rest))
    by (apply IH; [simpl; lia|done]).
  cbn [quote_units].
  destruct (c =? 8) eqn:E8; [apply Z.eqb_eq in E8; subst; simpl; by rewrite IHt|].
  destruct (c =? 9) eqn:E9; [apply Z.eqb_eq in E9; subst; simpl; by rewrite IHt|].
  destruct (c =? 10) eqn:E10; [apply Z.eqb_eq in E10; subst; simpl; by rewrite IHt|].
  destruct (c =? 12) eqn:E12; [apply Z.eqb_eq in E12; subst; simpl; by rewrite IHt|].
  destruct (c =? 13) eqn:E13; [apply Z.eqb_eq in E13; subst; simpl; by rewrite IHt|].
  destruct (c =? 34) eqn:E34; [apply Z.eqb_eq in E34; subst; simpl; by rewrite IHt|].
  destruct (c =? 92) eqn:E92; [apply Z.eqb_eq in E92; subst; simpl; by rewrite IHt|].
  destruct (c <? 32) eqn:E32.
  { rewrite <- app_assoc, parse_string_unicode, IHt by zbool_goal. done. }
  destruct (is_lead_surrogate c) eqn:EL.
  - destruct t as [|d t'].
    + rewrite parse_string_unicode by zbool_goal. done.
    + simpl in Ht. apply andb_true_iff in Ht as [Hd Ht']. unfold is_code_unit in Hd.
      destruct (is_trail_surrogate d) eqn:ET.
      * unfold is_trail_surrogate in ET. cbn [app].
        rewrite !parse_string_copy by (done || zbool_goal).
        rewrite IH; [done|simpl; lia|done].
      * rewrite <- app_assoc, parse_string_unicode, IHt by zbool_goal. done.
  - destruct (is_trail_surrogate c) eqn:ET.
    + rewrite <- app_assoc, parse_string_unicode, IHt by zbool_goal. done.
    + cbn [app]. rewrite parse_string_copy, IHt by done. done.
Qed.

Lemma parse_quote (s rest : jstr) :
  forallb is_code_unit s = true -> parse_string (quote_units s ++ [34] ++ rest) = Some (s, rest).
Proof. apply parse_quote_units. Qed.

(** *** Numbers *)

(** Nothing that could continue a numeral: the end, or a code unit other
    than a digit, [.], [e], [E]. *)
Definition num_stop (r : jstr) : bool :=
  match r with
  | [] => true
  | c :: _ => negb (is_digit c || (c =? 46) || (c =? 101) || (c =? 69))
  end.

Definition digit_stop (r : jstr) : bool :=
  match r with [] => true | c :: _ => negb (is_digit c) end.

Lemma span_digits_app (ds r : jstr) :
  Forall (fun c => is_digit c = true) ds -> digit_stop r = true ->
  span_digits (ds ++ r) = (ds, r).
Proof.
  intros Hds Hr. induction Hds as [|c ds Hc Hds IH]; simpl.
  - destruct r as [|c r]; [done|]. simpl in *. apply negb_true_iff in Hr. by rewrite Hr.
  - by rewrite Hc, IH.
Qed.

Lemma num_stop_digit_stop (r : jstr) : num_stop r = true -> digit_stop r = true.
Proof. destruct r as [|c r]; simpl; [done|]. destruct (is_digit c); done. Qed.

(** The exponent part is read back, and no fraction precedes it. *)
Lemma parse_frac_exp_suffix (k : nat) (rest : jstr) :
  num_stop rest = true ->
  parse_frac (exp_suffix k ++ rest) = Some ([], exp_suffix k ++ rest) /\
  parse_exp (exp_suffix k ++ rest) = Some (- Z.of_nat k, rest).
Proof.
  intros Hr. destruct k as [|k].
  - destruct rest as [|c r]; [done|]. simpl in Hr.
    apply negb_true_iff, orb_false_iff in Hr as [Hr H69].
    apply orb_false_iff in Hr as [Hr H101]. apply orb_false_iff in Hr as [_ H46].
    simpl. by rewrite H46, H101, H69.
  - split; [done|]. unfold exp_suffix. simpl.
    rewrite span_digits_app
      by first [apply nat_to_decimal_digits; lia | by apply num_stop_digit_stop].
    destruct (nat_to_decimal_lead (Z.of_nat (S k))) as (d & ds & Heq & _); [lia|].
    rewrite Heq, <- Heq, decimal_value_nat_to_decimal by lia. do 2 f_equal; lia.
Qed.

(** The numeral of a [num_ok] number denotes it. *)
Lemma decimal_to_Q_mantissa (q : Q) :
  num_ok q = true -> decimal_to_Q (num_mantissa q) (- Z.of_nat (num_places q)) = q.
Proof.
  unfold num_ok, decimal_to_Q, num_mantissa. intros [Hg Hm]%andb_true_iff.
  apply Z.eqb_eq in Hg. apply Z.eqb_eq in Hm.
  destruct q as [n d]. cbn [Qnum Qden] in *.
  set (k := Z.of_nat (num_places (n # d))) in *.
  assert (Hk : 0 <= k) by lia.
  assert (Hdiv : 10 ^ k = Zpos d * (10 ^ k / Zpos d)) by (apply Z_div_exact_full_2; lia).
  rewrite <- (Qcanon.Qred_identity (n # d)) by exact Hg. apply Qred_complete.
  destruct (Z.leb_spec 0 (- k)).
  - assert (k = 0) as Hk0 by lia. rewrite Hk0, Z.pow_0_r in Hdiv |- *.
    assert (Zpos d = 1) as Hd1
      by (destruct (Z.le_gt_cases (Zpos d) 1); [lia|]; rewrite Z.div_small in Hdiv; lia).
    assert (d = 1%positive) as -> by lia.
    unfold Qeq; simpl. lia.
  - unfold Qeq; simpl. rewrite Z.opp_involutive, Z2Pos.id by (apply Z.pow_pos_nonneg; lia).
    rewrite Hdiv at 2. lia.
Qed.

Lemma exp_suffix_digit_stop (k : nat) (rest : jstr) :
  num_stop rest = true -> digit_stop (exp_suffix k ++ rest) = true.
Proof. destruct k; [apply num_stop_digit_stop|done]. Qed.

Lemma parse_unsigned_numeral (neg : bool) (n : Z) (k : nat) (rest : jstr) :
  0 <= n -> num_stop rest = true ->
  parse_unsigned neg (nat_to_decimal n ++ exp_suffix k ++ rest)
  = Some (decimal_to_Q (if neg then - n else n) (- Z.of_nat k), rest).
Proof.
  intros Hn Hr. destruct (parse_frac_exp_suffix k rest Hr) as [Hf He].
  unfold parse_unsigned.
  rewrite span_digits_app by (apply nat_to_decimal_digits, Hn || apply exp_suffix_digit_stop, Hr).
  destruct (nat_to_decimal_lead n Hn) as (d & ds & Heq & Hlead). rewrite Heq.
  assert (Hnz : ((d =? 48) && negb (match ds with [] => true | _ => false end)) = false).
  { destruct (Z.eqb_spec d 48) as [Hd|]; [by rewrite (Hlead Hd)|done]. }
  rewrite Hnz, Hf. simpl. rewrite He. simpl.
  rewrite app_nil_r, <- Heq, decimal_value_nat_to_decimal by done.
  do 3 f_equal. lia.
Qed.

(** The numeral [print_number] writes is read back as the same number,
    provided nothing after it continues the numeral. *)
Lemma parse_print_number (q : Q) (rest : jstr) :
  num_ok q = true -> num_stop rest = true ->
  parse_number (print_number q ++ rest) = Some (q, rest).
Proof.
  intros Hq Hr. unfold print_number, Z_to_decimal. rewrite <- app_assoc.
  destruct (Z.ltb_spec (num_mantissa q) 0).
  - simpl. rewrite parse_unsigned_numeral by (lia || done).
    by rewrite Z.opp_involutive, decimal_to_Q_mantissa.
  - destruct (nat_to_decimal_lead (num_mantissa q)) as (d & ds & Heq & _); [lia|].
    pose proof (nat_to_decimal_digits (num_mantissa q)) as Hdig.
    rewrite Heq in Hdig. apply Forall_cons_1 in Hdig as [Hd _]; [|lia].
    unfold parse_number. rewrite Heq. simpl.
    replace (d =? 45) with false by (symmetry; unfold is_digit in Hd; zbool_goal).
    rewrite app_comm_cons, <- Heq, parse_unsigned_numeral by (lia || done).
    by rewrite decimal_to_Q_mantissa.
Qed.

(** *** Values *)

Lemma skip_ws_cons (c : Z) (t : jstr) : is_json_ws c = false -> skip_ws (c :: t) = c :: t.
Proof. intros H. simpl. by rewrite H. Qed.

(** The code units a value can start with. *)
Definition value_start (c : Z) : bool :=
  (c =? 110) || (c =? 116) || (c =? 102) || (c =? 34) || (c =? 91) || (c =? 123) ||
  (c =? 45) || is_digit c.

Lemma value_start_facts (c : Z) :
  value_start c = true ->
  is_json_ws c = false /\ (c =? 93) = false /\ (c =? 125) = false.
Proof. unfold value_start, is_digit, is_json_ws. intros H. zify_bools; split_and!; zbool_goal. Qed.

Lemma print_number_head (q : Q) :
  exists c t, print_number q = c :: t /\ ((c = 45) \/ (48 <= c <= 57)).
Proof.
  unfold print_number, Z_to_decimal. destruct (Z.ltb_spec (num_mantissa q) 0).
  - eexists _, _. split; [reflexivity|by left].
  - destruct (nat_to_decimal_lead (num_mantissa q)) as (d & ds & Heq & _); [lia|].
    pose proof (nat_to_decimal_digits (num_mantissa q)) as Hdig.
    rewrite Heq in Hdig |- *. apply Forall_cons_1 in Hdig as [Hd _]; [|lia].
    eexists _, _. split; [reflexivity|right]. unfold is_digit in Hd. zify_bools. lia.
Qed.

Lemma stringify_head (v : jval) : exists c t, stringify v = c :: t /\ value_start c = true.
Proof.
  destruct v as [|[]|q|s|l|kvs]; try (eexists _, _; split; [reflexivity|done]).
  destruct (print_number_head q) as (c & t & Heq & Hc). exists c, t. split; [done|].
  unfold value_start, is_digit. apply orb_true_iff.
  destruct Hc as [->|Hc]; [by left|right]. apply andb_true_iff. split; zbool_goal.
Qed.

Lemma parse_value_number (f : nat) (q : Q) (rest : jstr) :
  num_ok q = true -> num_stop rest = true ->
  parse_value (S f) (print_number q ++ rest) = Some (JNum q, rest).
Proof.
  intros Hq Hr. pose proof (parse_print_number q rest Hq Hr) as Hp.
  destruct (print_number_head q) as (c & t & Heq & Hc). rewrite Heq in Hp |- *.
  cbn [parse_value app]. rewrite skip_ws_cons by (unfold is_json_ws; zbool_cases).
  replace (c =? 110) with false by (symmetry; zbool_goal).
  replace (c =? 116) with false by (symmetry; zbool_goal).
  replace (c =? 102) with false by (symmetry; zbool_goal).
  replace (c =? 34) with false by (symmetry; zbool_goal).
  replace (c =? 91) with false by (symmetry; zbool_goal).
  replace (c =? 123) with false by (symmetry; zbool_goal).
  cbn [app] in Hp. by rewrite Hp.
Qed.

Lemma obj_set_fresh (acc : list (jstr * jval)) (k : jstr) (v : jval) :
  ~ In k (map fst acc) -> obj_set acc k v = acc ++ [(k, v)].
Proof.
  induction acc as [|[k' w] acc IH]; intros Hk; simpl; [done|].
  simpl in Hk. destruct (decide (k' = k)) as [->|]; [tauto|]. rewrite IH; [done|tauto].
Qed.

Definition elems_size (l : list jval) : nat := fold_right (fun w n => S (jsize w + n)) 0%nat l.

Definition members_size (kvs : list (jstr * jval)) : nat :=
  fold_right (fun kv n => S (jsize kv.2 + n)) 0%nat kvs.

Definition member_ok (kv : jstr * jval) : bool :=
  forallb is_code_unit kv.1 && negb (is_array_index kv.1) && json_wf kv.2.

Lemma join_elems_head (l : list jval) :
  l <> [] -> exists c t, join_elems stringify l = c :: t /\ value_start c = true.
Proof.
  destruct l as [|v l]; [done|]. intros _.
  destruct (stringify_head v) as (c & t & Hv & Hc). simpl. rewrite Hv. eauto.
Qed.

Lemma existsb_key_false (kvs : list (jstr * jval)) (k k' : jstr) :
  existsb (fun kv => bool_decide (kv.1 = k)) kvs = false -> In k' (map fst kvs) -> k' <> k.
Proof.
  intros Hex Hin Heq. subst k'.
  apply in_map_iff in Hin as ([k'' w] & Hk & Hin). simpl in Hk. subst k''.
  assert (existsb (fun kv => bool_decide (kv.1 = k)) kvs = true) as Ht
    by (apply existsb_exists; exists (k, w); split; [done|by apply bool_decide_eq_true_2]).
  congruence.
Qed.

(** Printing then parsing gives the value back, at any fuel above its
    size, whatever follows that cannot continue a numeral. *)
Lemma parse_stringify_value (v : jval) :
  json_wf v = true -> forall fuel rest, (jsize v <= fuel)%nat -> num_stop rest = true ->
  parse_value fuel (stringify v ++ rest) = Some (v, rest).
Proof.
  revert v.
  apply (jval_rect'
    (fun v => json_wf v = true -> forall fuel rest, (jsize v <= fuel)%nat -> num_stop rest = true ->
              parse_value fuel (stringify v ++ rest) = Some (v, rest))
    (fun l => forallb json_wf l = true -> forall fuel acc rest, l <> [] ->
              (elems_size l <= fuel)%nat ->
              parse_elems fuel (join_elems stringify l ++ 93 :: rest) acc = Some (JArr (acc ++ l), rest))
    (fun kvs => forallb member_ok kvs = true -> keys_nodup kvs = true ->
              forall fuel acc rest, kvs <> [] ->
              (forall k, In k (map fst kvs) -> ~ In k (map fst acc)) ->
              (members_size kvs <= fuel)%nat ->
              parse_members fuel (join_members stringify kvs ++ 125 :: rest) acc
              = Some (JObj (acc ++ kvs), rest))).
  - (* null *)
    intros _ [|f] rest Hf Hr; [simpl in Hf; lia|]. reflexivity.
  - (* booleans *)
    intros [] _ [|f] rest Hf Hr; (simpl in Hf; lia) || reflexivity.
  - (* numbers *)
    intros q Hq [|f] rest Hf Hr; [simpl in Hf; lia|]. by apply parse_value_number.
  - (* strings *)
    intros s Hs [|f] rest Hf Hr; [simpl in Hf; lia|].
    unfold stringify, quote. cbn [app]. rewrite <- app_assoc. simpl.
    rewrite parse_quote_units; [done|]. by apply Hs.
  - (* arrays *)
    intros l IHl Hwf [|f] rest Hf Hr; [simpl in Hf; lia|].
    destruct (decide (l = [])) as [->|Hl]; [reflexivity|].
    destruct (join_elems_head l Hl) as (c & t & Heq & Hc).
    destruct (value_start_facts c Hc) as (Hws & H93 & _).
    cbn [stringify app]. rewrite <- app_assoc. simpl.
    rewrite Heq. cbn [app]. rewrite skip_ws_cons, H93 by done.
    rewrite app_comm_cons, <- Heq.
    apply IHl; [done|done|]. simpl in Hf. unfold elems_size. lia.
  - (* objects *)
    intros kvs IHo Hwf [|f] rest Hf Hr; [simpl in Hf; lia|].
    destruct (decide (kvs = [])) as [->|Hk]; [reflexivity|].
    simpl in Hwf. apply andb_true_iff in Hwf as [Hnd Hall].
    assert (Hj : exists t, join_members stringify kvs = 34 :: t)
      by (destruct kvs as [|[k v] kvs]; [done|]; eexists; reflexivity).
    destruct Hj as [t Ht].
    cbn [stringify app]. rewrite <- app_assoc. simpl. rewrite Ht. simpl.
    rewrite app_comm_cons, <- Ht.
    apply IHo; [done|done|done| |]; [intros ? _ []|simpl in Hf; unfold members_size; lia].
  - (* no element *)
    done.
  - (* an element, then more *)
    intros v l IHv IHl Hwf [|f] acc rest Hne Hf; [simpl in Hf; lia|].
    simpl in Hwf. apply andb_true_iff in Hwf as [Hv Hl].
    cbn [join_elems]. rewrite <- !app_assoc. cbn [parse_elems].
    rewrite IHv by (done || (simpl in Hf; lia) || by destruct l).
    simpl. destruct l as [|w l'].
    + reflexivity.
    + simpl. rewrite IHl by (done || (unfold elems_size in *; simpl in *; lia)).
      by rewrite <- app_assoc.
  - (* no member *)
    done.
  - (* a member, then more *)
    intros k v kvs IHv IHo Hok Hnd [|f] acc rest Hne Hfresh Hf; [simpl in Hf; lia|].
    simpl in Hok. unfold member_ok in Hok. simpl in Hok.
    apply andb_true_iff in Hok as [Hok Hokl]. apply andb_true_iff in Hok as [Hok Hv].
    apply andb_true_iff in Hok as [Hk _].
    simpl in Hnd. apply andb_true_iff in Hnd as [Hnk Hnd]. apply negb_true_iff in Hnk.
    assert (Hkf : ~ In k (map fst acc)) by (apply Hfresh; by left).
    cbn [join_members quote]. rewrite <- !app_assoc. cbn [app parse_members]. simpl.
    rewrite <- app_assoc. cbn [app]. rewrite parse_quote_units by done. simpl.
    rewrite IHv by (done || (simpl in Hf; lia) || by destruct kvs).
    destruct kvs as [|kv kvs'].
    + simpl. by rewrite obj_set_fresh.
    + simpl. rewrite obj_set_fresh by done. rewrite IHo.
      * by rewrite <- app_assoc.
      * done.
      * done.
      * done.
      * intros k' Hk'. rewrite map_app, in_app_iff. simpl. intros [Hin|[<-|[]]].
        -- apply (Hfresh k'); [by right|done].
        -- by apply (existsb_key_false _ _ _ Hnk Hk').
      * unfold members_size in *; simpl in *; lia.
Qed.

(** The printed text is at least as long as the fuel the parse needs. *)
Lemma jsize_le_length (v : jval) : (jsize v <= length (stringify v))%nat.
Proof.
  revert v.
  apply (jval_rect'
    (fun v => (jsize v <= length (stringify v))%nat)
    (fun l => (elems_size l <= S (length (join_elems stringify l)))%nat)
    (fun kvs => (members_size kvs <= S (length (join_members stringify kvs)))%nat));
    try (intros; simpl; lia).
  - intros [] ; simpl; lia.
  - intros q. destruct (print_number_head q) as (c & t & Heq & _). simpl. rewrite Heq. simpl. lia.
  - intros l IH. simpl. rewrite length_app. simpl. unfold elems_size in IH. lia.
  - intros kvs IH. simpl. rewrite length_app. simpl. unfold members_size in IH. lia.
  - intros v l Hv Hl. unfold elems_size in *. cbn [join_elems foldr]. rewrite !length_app.
    destruct l; cbn [length foldr] in *; lia.
  - intros k v kvs Hv Hk. unfold members_size in *. cbn [join_members foldr snd].
    rewrite !length_app. destruct kvs; cbn [length foldr] in *; lia.
Qed.

Lemma stringify_roundtrip (v : jval) : json_wf v = true -> json_parse (stringify v) = Some v.
Proof.
  intros Hwf. unfold json_parse.
  pose proof (parse_stringify_value v Hwf (S (length (stringify v))) []) as H.
  rewrite app_nil_r in H. rewrite H; [done| |done]. pose proof (jsize_le_length v). lia.
Qed.

(** C20. The round trip of the codec: [JSON.parse(JSON.stringify(v))] is [v]
    for every well-formed value. *)
Theorem json_parse_stringify (v : jval) : json_wf v = true -> json_parse (stringify v) = Some v.
Proof. apply stringify_roundtrip. Qed.

(** ** The interface the store relies on *)

(** What the store needs of [JSON.stringify] and [JSON.parse]: the
    round trip on well-formed values, that no text it writes is empty
    (an empty text would read as absent), and that the literal [[]] of
    [loadItems] denotes the empty array. *)
Class JsonCodec := {
  codec_stringify : jval -> jstr;
  codec_parse : jstr -> option jval;
  codec_roundtrip : forall v, json_wf v = true -> codec_parse (codec_stringify v) = Some v;
  codec_stringify_nonempty : forall v, codec_stringify v <> [];
  codec_parse_empty : codec_parse (lit "[]") = Some (JArr [])
}.

Lemma stringify_nonempty (v : jval) : stringify v <> [].
Proof. destruct (stringify_head v) as (c & t & -> & _). done. Qed.

#[export] Instance json_codec : JsonCodec := {|
  codec_stringify := stringify;
  codec_parse := json_parse;
  codec_roundtrip := stringify_roundtrip;
  codec_stringify_nonempty := stringify_nonempty;
  codec_parse_empty := eq_refl
|}.

(** The JSON form of a small array of an object, a string with an escape
    and a decimal reads back. *)
Lemma json_parse_stringify_witness :
  json_wf (JArr [JObj [(lit "k", JStr (lit "a\b"))]; JNum (-261 # 10)]) = true /\
  json_parse (stringify (JArr [JObj [(lit "k", JStr (lit "a\b"))]; JNum (-261 # 10)])) =
    Some (JArr [JObj [(lit "k", JStr (lit "a\b"))]; JNum (-261 # 10)]).
Proof. split; [vm_compute; reflexivity|]. apply json_parse_stringify. vm_compute. reflexivity. Defined.
