(* ===== verification/Item.v ===== *)
(** * Incident records and positions

    The two kinds of objects [src/app.js] builds: the position
    [{lat, lng, acc}] that [ensureGeolocation] resolves (lines 98-102),
    which becomes [myPosition] and the [location] of records, and the
    incident record of the panic handler (lines 318-326) and of the
    report handler (lines 420-428).  The file gives their JSON form (what
    [JSON.stringify] makes of them, with the keys in the order of the
    object literals), the property reads the code performs on stored
    values, and the lemmas that the JSON form of a record is a
    well-formed value whose [id] reads back. *)

From S2P Require Import Prelude JsString Json.

Local Open Scope Z_scope.

(** ** Data *)

(** [{ lat, lng, acc }]: degrees as the exact values of the doubles the
    geolocation API reports, and the accuracy rounded to an integer by
    [Math.round]. *)
Record position := mk_position { lat : Q; lng : Q; acc : Z }.

(** The two values the code writes in [kind]. *)
Inductive item_kind := PANIC | REPORT.

#[export] Instance item_kind_eq_dec : EqDecision item_kind.
Proof. solve_decision. Defined.

Definition kind_str (k : item_kind) : jstr :=
  match k with PANIC => lit "PANIC" | REPORT => lit "REPORT" end.

(** An incident record, field by field as the handlers build it: the
    [location] and [imageDataUrl] are [null] when absent. *)
Record item := mk_item {
  id : jstr;
  kind : item_kind;
  type : jstr;
  description : jstr;
  location : option position;
  createdAt : jstr;
  imageDataUrl : option jstr
}.

Lemma kind_str_inj (k1 k2 : item_kind) : kind_str k1 = kind_str k2 -> k1 = k2.
Proof. intros H. destruct k1, k2; try reflexivity; vm_compute in H; discriminate. Qed.

(** ** JSON form *)

Definition position_to_json (p : position) : jval :=
  JObj [(lit "lat", JNum (lat p)); (lit "lng", JNum (lng p)); (lit "acc", JNum (inject_Z (acc p)))].

Definition null_or {A} (f : A -> jval) (o : option A) : jval :=
  match o with Some a => f a | None => JNull end.

(** [JSON.stringify] serialises the object literal's keys in order. *)
Definition item_to_json (it : item) : jval :=
  JObj [(lit "id", JStr (id it));
        (lit "kind", JStr (kind_str (kind it)));
        (lit "type", JStr (type it));
        (lit "description", JStr (description it));
        (lit "location", null_or position_to_json (location it));
        (lit "createdAt", JStr (createdAt it));
        (lit "imageDataUrl", null_or JStr (imageDataUrl it))].

(** ** Property reads on stored values *)

(** [v[k]]: reading a property of [null] throws; objects look the key
    up; booleans, numbers, strings and arrays have no own property the
    code reads, so the read is [undefined] ([None]). *)
Definition get_prop (v : jval) (k : jstr) : result (option jval) :=
  match v with
  | JNull => Throw TypeError
  | JObj kvs => Ok (obj_get kvs k)
  | _ => Ok None
  end.

(** ** Reading records back *)

(** The abstraction from stored JSON values to records: the inverse of
    [item_to_json] on its image.  The views are defined on stores whose
    text decodes. *)
Definition kind_of_str (s : jstr) : option item_kind :=
  if decide (s = lit "PANIC") then Some PANIC
  else if decide (s = lit "REPORT") then Some REPORT else None.

Definition decode_position (v : jval) : option position :=
  match v with
  | JObj kvs =>
      match obj_get kvs (lit "lat"), obj_get kvs (lit "lng"), obj_get kvs (lit "acc") with
      | Some (JNum la), Some (JNum ln), Some (JNum ac) =>
          if decide (Qden ac = 1%positive) then Some (mk_position la ln (Qnum ac)) else None
      | _, _, _ => None
      end
  | _ => None
  end.

Definition decode_option {A} (f : jval -> option A) (v : jval) : option (option A) :=
  match v with JNull => Some None | _ => option_map Some (f v) end.

Definition decode_str (v : jval) : option jstr := match v with JStr s => Some s | _ => None end.

Definition decode_kind (v : jval) : option item_kind :=
  match v with JStr s => kind_of_str s | _ => None end.

(** The field [k] of an object, decoded by [dec]. *)
Definition field {A} (kvs : list (jstr * jval)) (k : jstr) (dec : jval -> option A) : option A :=
  match obj_get kvs k with Some v => dec v | None => None end.

Definition decode_item (v : jval) : option item :=
  match v with
  | JObj kvs =>
      match field kvs (lit "id") decode_str, field kvs (lit "kind") decode_kind,
            field kvs (lit "type") decode_str, field kvs (lit "description") decode_str,
            field kvs (lit "location") (decode_option decode_position),
            field kvs (lit "createdAt") decode_str,
            field kvs (lit "imageDataUrl") (decode_option decode_str) with
      | Some i, Some k, Some t, Some d, Some loc, Some c, Some img =>
          Some (mk_item i k t d loc c img)
      | _, _, _, _, _, _, _ => None
      end
  | _ => None
  end.

(** The records of a loaded value: an array of records. *)
Definition decode_items (v : jval) : option (list item) :=
  match v with JArr vs => mapM decode_item vs | _ => None end.

(** ** Well-formed records *)

Definition jstr_ok (s : jstr) : bool := forallb is_code_unit s.

(** A position the store can hold: its coordinates are values of
    doubles (finite decimals, [num_ok]). *)
Definition position_ok (p : position) : bool := num_ok (lat p) && num_ok (lng p).

Definition item_ok (it : item) : bool :=
  jstr_ok (id it) && jstr_ok (type it) && jstr_ok (description it) && jstr_ok (createdAt it)
  && match location it with Some p => position_ok p | None => true end
  && match imageDataUrl it with Some u => jstr_ok u | None => true end.

Lemma num_ok_inject_Z (z : Z) : num_ok (inject_Z z) = true.
Proof. unfold num_ok. simpl. rewrite Z.gcd_1_r. reflexivity. Qed.

(** The JSON form of a well-formed record is a well-formed value: the
    store's round trip applies to it. *)
Lemma item_to_json_wf (it : item) : item_ok it = true -> json_wf (item_to_json it) = true.
Proof.
  destruct it as [i k t d loc c img]. unfold item_ok, jstr_ok. simpl.
  intros H. repeat (apply andb_true_iff in H as [H ?]).
  repeat (apply andb_true_iff; split); try done; try (by destruct k).
  - destruct loc as [[la ln ac]|]; [|done]. unfold position_ok in *. simpl in *.
    apply andb_true_iff in H1 as [-> ->]. by rewrite num_ok_inject_Z.
  - by destruct img.
Qed.

Lemma items_to_json_wf (l : list item) :
  forallb item_ok l = true -> json_wf (JArr (map item_to_json l)) = true.
Proof.
  intros H. change (forallb json_wf (map item_to_json l) = true).
  apply forallb_forall. intros v (it & <- & Hin)%in_map_iff.
  apply item_to_json_wf. by apply (proj1 (forallb_forall _ _) H).
Qed.

(** The [id] property of a stored record is its id. *)
Lemma get_prop_id (it : item) : get_prop (item_to_json it) (lit "id") = Ok (Some (JStr (id it))).
Proof. reflexivity. Qed.

(** Reading a stored record back gives the record. *)
Lemma decode_item_to_json (it : item) : decode_item (item_to_json it) = Some it.
Proof.
  destruct it as [i k t d loc c img]. unfold decode_item, item_to_json. simpl.
  destruct k, loc as [[la ln ac]|], img; reflexivity.
Qed.

Lemma decode_items_to_json (l : list item) : decode_items (JArr (map item_to_json l)) = Some l.
Proof.
  induction l as [|it l IH]; [done|]. cbn [decode_items map mapM] in *.
  rewrite decode_item_to_json, IH. reflexivity.
Qed.

(** ** Sample records *)

(** The record of end-to-end scenario A of the specification: a report
    "Fence Damage" / "Gate broken" without location or image. *)
Definition sample_report : item :=
  mk_item (lit "r-1") REPORT (lit "Fence Damage") (lit "Gate broken") None
          (lit "2026-11-09T08:00:00.000Z") None.

(** The panic record of scenario B: location (-26.1, 28.0), accuracy 15. *)
Definition sample_position : position := mk_position (-261 # 10) 28 15.

Definition sample_panic : item :=
  mk_item (lit "p-1") PANIC (lit "Emergency Panic")
          (lit "Emergency alert sent. Please respond or contact emergency services.")
          (Some sample_position) (lit "2026-11-09T08:01:00.000Z") None.
