(* ===== verification/Schema.v ===== *)
(** * The shape of stored records, as a type of JSON values

    [src/app.js] never checks what [JSON.parse] gives back: [renderFeed],
    [rebuildMarkers] and the handlers read [item.id], [item.kind],
    [item.location.lat] and so on as if every stored value had the shape
    of the object literals the handlers write (lines 318-326 and
    420-428, the position of lines 98-102).  This file states that shape
    as a type: a small algebra of JSON types ([jty]), the typing
    judgement [has_type] (an open record type: extra members allowed, as
    for the structural types of JavaScript), a checker [typecheck] proved
    sound and complete against it, and the record type [item_ty].

    The theorems: every record the handlers build has the type; the
    decoder of [Item] accepts exactly the values of the type, so that a
    stored array is read back in full iff it has type [items_ty]. *)

From S2P Require Import Prelude Json Item.

Local Open Scope Z_scope.

(** ** Types of JSON values *)

#[warnings="-register-all"]
Inductive jty :=
| TyNull
| TyNum
| TyInt                         (* a number with an integer value *)
| TyStr
| TyLit (s : jstr)              (* one string *)
| TyOr (t1 t2 : jty)
| TyArr (t : jty)
| TyObj (fs : list (jstr * jty)). (* these members, others allowed *)

(** The induction principle that reaches the members of record types. *)
Section jty_ind.
Context (P : jty -> Prop).
Context (Hnull : P TyNull) (Hnum : P TyNum) (Hint : P TyInt) (Hstr : P TyStr)
        (Hlit : forall s, P (TyLit s)) (Hor : forall t1 t2, P t1 -> P t2 -> P (TyOr t1 t2))
        (Harr : forall t, P t -> P (TyArr t))
        (Hobj : forall fs, Forall (fun kt => P kt.2) fs -> P (TyObj fs)).

Fixpoint jty_ind' (t : jty) : P t :=
  match t with
  | TyNull => Hnull
  | TyNum => Hnum
  | TyInt => Hint
  | TyStr => Hstr
  | TyLit s => Hlit s
  | TyOr t1 t2 => Hor t1 t2 (jty_ind' t1) (jty_ind' t2)
  | TyArr t => Harr t (jty_ind' t)
  | TyObj fs =>
      Hobj fs ((fix go (fs : list (jstr * jty)) : Forall (fun kt => P kt.2) fs :=
                  match fs with
                  | [] => Forall_nil_2 _
                  | (k, t) :: fs' => Forall_cons_2 _ (k, t) fs' (jty_ind' t) (go fs')
                  end) fs)
  end.
End jty_ind.

(** The typing judgement. *)
#[warnings="-register-all"]
Inductive has_type : jval -> jty -> Prop :=
| T_Null : has_type JNull TyNull
| T_Num (q : Q) : has_type (JNum q) TyNum
| T_Int (q : Q) : Qden q = 1%positive -> has_type (JNum q) TyInt
| T_Str (s : jstr) : has_type (JStr s) TyStr
| T_Lit (s : jstr) : has_type (JStr s) (TyLit s)
| T_OrL (v : jval) (t1 t2 : jty) : has_type v t1 -> has_type v (TyOr t1 t2)
| T_OrR (v : jval) (t1 t2 : jty) : has_type v t2 -> has_type v (TyOr t1 t2)
| T_Arr (vs : list jval) (t : jty) :
    Forall (fun v => has_type v t) vs -> has_type (JArr vs) (TyArr t)
| T_Obj (kvs : list (jstr * jval)) (fs : list (jstr * jty)) :
    Forall (fun kt => exists v, obj_get kvs kt.1 = Some v /\ has_type v kt.2) fs ->
    has_type (JObj kvs) (TyObj fs).

(** The checker. *)
Fixpoint typecheck (t : jty) (v : jval) {struct t} : bool :=
  match t, v with
  | TyNull, JNull => true
  | TyNum, JNum _ => true
  | TyInt, JNum q => bool_decide (Qden q = 1%positive)
  | TyStr, JStr _ => true
  | TyLit s, JStr s' => bool_decide (s' = s)
  | TyOr t1 t2, _ => typecheck t1 v || typecheck t2 v
  | TyArr t, JArr vs => forallb (typecheck t) vs
  | TyObj fs, JObj kvs =>
      forallb (fun kt => match obj_get kvs kt.1 with Some w => typecheck kt.2 w | None => false end) fs
  | _, _ => false
  end.

(** ** The record type *)

(** [{ lat, lng, acc: Math.round(...) }]. *)
Definition position_ty : jty :=
  TyObj [(lit "lat", TyNum); (lit "lng", TyNum); (lit "acc", TyInt)].

(** The object literal of the panic and report handlers. *)
Definition item_ty : jty :=
  TyObj [(lit "id", TyStr);
         (lit "kind", TyOr (TyLit (lit "PANIC")) (TyLit (lit "REPORT")));
         (lit "type", TyStr);
         (lit "description", TyStr);
         (lit "location", TyOr TyNull position_ty);
         (lit "createdAt", TyStr);
         (lit "imageDataUrl", TyOr TyNull TyStr)].

(** What [localStorage] holds under the items key. *)
Definition items_ty : jty := TyArr item_ty.

(** ** The checker decides the judgement *)

Lemma forallb_Forall_iff {A} (f : A -> bool) (P : A -> Prop) (l : list A) :
  Forall (fun x => f x = true <-> P x) l -> forallb f l = true <-> Forall P l.
Proof.
  intros H. rewrite forallb_forall, List.Forall_forall.
  rewrite List.Forall_forall in H. split; intros Hl x Hx; apply H; auto.
Qed.

Theorem typecheck_correct (t : jty) (v : jval) : typecheck t v = true <-> has_type v t.
Proof.
  revert v. induction t as [| | | |s|t1 t2 IH1 IH2|t IH|fs IH] using jty_ind'; intros v.
  - split; [destruct v; done || constructor|by inversion 1].
  - split; [destruct v; done || constructor|by inversion 1].
  - split; [destruct v; try done; intros ?%bool_decide_eq_true; by constructor|].
    inversion 1; subst. by apply bool_decide_eq_true.
  - split; [destruct v; done || constructor|by inversion 1].
  - split; [destruct v; try done; intros ->%bool_decide_eq_true; constructor|].
    inversion 1; subst. by apply bool_decide_eq_true.
  - cbn. rewrite orb_true_iff, IH1, IH2.
    split; [intros [?|?]; [by apply T_OrL|by apply T_OrR]|by inversion 1; auto].
  - split; [destruct v as [| | | |vs|]; try done|inversion 1; subst].
    + intros Hc. constructor. eapply forallb_Forall_iff; [|exact Hc]. by apply List.Forall_forall.
    + cbn. eapply forallb_Forall_iff; [|done]. by apply List.Forall_forall.
  - assert (Hf : forall kvs, Forall (fun kt => (match obj_get kvs kt.1 with Some w => typecheck kt.2 w
              | None => false end) = true <-> exists w, obj_get kvs kt.1 = Some w /\ has_type w kt.2) fs).
    { intros kvs. eapply Forall_impl; [exact IH|]. intros [k t] Ht. cbn in *.
      destruct (obj_get kvs k); [rewrite Ht|]; split; [eauto|by intros (? & [= ->] & ?)|done|by intros (? & ? & ?)]. }
    split; [destruct v as [| | | | |kvs]; try done|inversion 1; subst].
    + intros Hc. constructor. by apply (forallb_Forall_iff _ _ _ (Hf kvs)).
    + cbn. by apply (forallb_Forall_iff _ _ _ (Hf kvs)).
Qed.

#[export] Instance has_type_dec (v : jval) (t : jty) : Decision (has_type v t).
Proof. destruct (typecheck t v) eqn:E; [left|right]; rewrite <- typecheck_correct; congruence. Defined.

(** ** The decoder reads exactly the values of the record type *)

(** Whether a decoder succeeded. *)
Definition isSome {A} (o : option A) : bool := match o with Some _ => true | None => false end.

Lemma typecheck_obj (fs : list (jstr * jty)) (kvs : list (jstr * jval)) :
  typecheck (TyObj fs) (JObj kvs)
  = forallb (fun kt => match obj_get kvs kt.1 with Some w => typecheck kt.2 w | None => false end) fs.
Proof. reflexivity. Qed.

(** A member checked by [t] and decoded by [dec], when the two agree. *)
Lemma field_typecheck {A} (kvs : list (jstr * jval)) (k : jstr) (t : jty) (dec : jval -> option A) :
  (forall w, typecheck t w = isSome (dec w)) ->
  (match obj_get kvs k with Some w => typecheck t w | None => false end) = isSome (field kvs k dec).
Proof. intros H. unfold field. destruct (obj_get kvs k); [apply H|done]. Qed.

Lemma typecheck_str (w : jval) : typecheck TyStr w = isSome (decode_str w).
Proof. by destruct w. Qed.

Lemma typecheck_kind (w : jval) :
  typecheck (TyOr (TyLit (lit "PANIC")) (TyLit (lit "REPORT"))) w = isSome (decode_kind w).
Proof.
  destruct w as [| | |s| |]; try done. cbn [typecheck decode_kind]. unfold kind_of_str.
  by repeat (case_decide || case_bool_decide).
Qed.

Lemma typecheck_position (w : jval) : typecheck position_ty w = isSome (decode_position w).
Proof.
  destruct w as [| | | | |kvs]; try done. unfold position_ty. rewrite typecheck_obj.
  cbn [forallb fst snd decode_position]. rewrite andb_true_r.
  destruct (obj_get kvs (lit "lat")) as [[]|], (obj_get kvs (lit "lng")) as [[]|],
    (obj_get kvs (lit "acc")) as [[]|]; cbn; rewrite ?andb_false_r; try done.
  by case_decide; case_bool_decide.
Qed.

Lemma typecheck_null_or {A} (t : jty) (dec : jval -> option A) (w : jval) :
  (forall w, typecheck t w = isSome (dec w)) -> typecheck t JNull = false ->
  typecheck (TyOr TyNull t) w = isSome (decode_option dec w).
Proof.
  intros H Hn. destruct w; cbn [typecheck decode_option orb]; rewrite ?H; try done.
  all: by destruct (dec _).
Qed.

Lemma typecheck_item (v : jval) : typecheck item_ty v = isSome (decode_item v).
Proof.
  destruct v as [| | | | |kvs]; try done. unfold item_ty. rewrite typecheck_obj.
  cbn [forallb fst snd]. rewrite andb_true_r.
  rewrite (field_typecheck _ _ _ decode_str typecheck_str), (field_typecheck _ _ _ decode_kind typecheck_kind).
  rewrite 2!(field_typecheck _ _ _ decode_str typecheck_str).
  rewrite (field_typecheck _ _ _ (decode_option decode_position)
             (fun w => typecheck_null_or _ _ w typecheck_position eq_refl)).
  rewrite (field_typecheck _ _ _ decode_str typecheck_str).
  rewrite (field_typecheck _ _ _ (decode_option decode_str) (fun w => typecheck_null_or _ _ w typecheck_str eq_refl)).
  unfold decode_item.
  destruct (field kvs (lit "id") _), (field kvs (lit "kind") _), (field kvs (lit "type") _),
    (field kvs (lit "description") _), (field kvs (lit "location") _), (field kvs (lit "createdAt") _),
    (field kvs (lit "imageDataUrl") _); reflexivity.
Qed.

(** The values of the record type are those the decoder reads. *)
Lemma decode_item_typed (v : jval) : has_type v item_ty <-> is_Some (decode_item v).
Proof.
  rewrite <- typecheck_correct, typecheck_item.
  destruct (decode_item v); split; intros H; [by eexists|done|done|by destruct H].
Qed.

(** C15. The type of records: every object the panic and report handlers
    build, turned into JSON, has the type [item_ty] of stored records. *)
Theorem item_to_json_typed (it : item) : has_type (item_to_json it) item_ty.
Proof. apply decode_item_typed. rewrite decode_item_to_json. by eexists. Qed.

(** The type of the store: a loaded value is read back in full as
    records exactly when it has the type [items_ty], an array of records. *)
Theorem decode_items_typed (v : jval) : has_type v items_ty <-> is_Some (decode_items v).
Proof.
  split.
  - inversion 1 as [| | | | | | |vs t Hvs|]; subst. cbn [decode_items]. apply mapM_is_Some.
    eapply Forall_impl; [exact Hvs|]. intros w. apply decode_item_typed.
  - destruct v as [| | | |vs|]; intros Hs; try by destruct Hs. constructor.
    apply mapM_is_Some in Hs. eapply Forall_impl; [exact Hs|]. intros w. apply decode_item_typed.
Qed.

(** The JSON form of a list of records has the type of the store. *)
Lemma items_to_json_typed (l : list item) : has_type (JArr (map item_to_json l)) items_ty.
Proof. apply decode_items_typed. rewrite decode_items_to_json. by eexists. Qed.
