(* ===== verification/Store.v ===== *)
(** * The item store

    [localStorage] and the functions of [src/app.js] that read and write
    the items: [loadItems] (lines 57-63), [saveItems] (65-67), the store
    update of [addItem] (69-72), of [clearAll] (76-77) and of the delete
    button of the feed (259-262).  The store is modelled at the level of
    the JavaScript values [JSON.parse] returns, so that a blob holding
    something else than an array of records is modelled too, over any
    codec of the [JsonCodec] interface.

    The theorems: the load/save round trip; the refinement of an abstract
    store, a list of records newest first ([StoreSpec]), by the concrete
    operations under the representation [store_repr]; the soft failure of
    [loadItems] on a text that does not parse; and the [TypeError] the
    updates throw when the blob parses to something that is not an
    array. *)

From S2P Require Import Prelude JsString Json Item Schema.

Local Open Scope Z_scope.

(** ** [localStorage] *)

Definition LS_KEY : jstr := lit "safeconnect_items_v1".
Definition LS_THEME : jstr := lit "safeconnect_theme_v1".

(** The storage area of the page's origin and its quota, in code units
    of keys and values. *)
Record storage := mk_storage { entries : gmap jstr jstr; quota : Z }.

Definition storage_used (m : gmap jstr jstr) : Z :=
  map_fold (fun k v n => Z.of_nat (length k) + Z.of_nat (length v) + n) 0 m.

(** [localStorage.getItem(k)]: [None] is [null]. *)
Definition getItem (st : storage) (k : jstr) : option jstr := entries st !! k.

(** [localStorage.setItem(k, v)]: throws when the area would exceed the
    quota, and then changes nothing. *)
Definition setItem (k v : jstr) (st : storage) : result storage :=
  let m := <[k := v]> (entries st) in
  if storage_used m <=? quota st then Ok (mk_storage m (quota st))
  else Throw QuotaExceededError.

(** [localStorage.removeItem(k)]. *)
Definition removeItem (k : jstr) (st : storage) : storage :=
  mk_storage (delete k (entries st)) (quota st).

(** [x || d] for [x] a string or [null]: [null] and the empty string are
    falsy. *)
Definition or_default (o : option jstr) (d : jstr) : jstr :=
  match o with Some (c :: s) => c :: s | _ => d end.

(** ** Array methods on stored values *)

(** [arr.unshift(x)]: only arrays have the method. *)
Definition js_unshift (arr : jval) (x : jval) : result jval :=
  match arr with JArr l => Ok (JArr (x :: l)) | _ => Throw TypeError end.

(** The loop of [Array.prototype.filter]: the predicate in order, the
    first exception stops it. *)
Fixpoint filterM (p : jval -> result bool) (l : list jval) : result (list jval) :=
  match l with
  | [] => Ok []
  | x :: l' =>
      let! b := p x in
      let! r := filterM p l' in
      Ok (if b then x :: r else r)
  end.

(** [arr.filter(p)]: only arrays have the method. *)
Definition js_filter (arr : jval) (p : jval -> result bool) : result jval :=
  match arr with JArr l => let! r := filterM p l in Ok (JArr r) | _ => Throw TypeError end.

(** ** The abstract store

    What the store promises: an ordered list of records, newest first,
    with prepend, removal by id and clearing.  [store_repr] below relates
    it to [localStorage]. *)
Module StoreSpec.
Definition add (it : item) (l : list item) : list item := it :: l.
Definition remove (i : jstr) (l : list item) : list item :=
  List.filter (fun it => negb (bool_decide (id it = i))) l.
Definition clear : list item := [].

(** Ids unique: the invariant of [src/app.js] (the code relies on
    [uuid()] for it). *)
Definition ids_unique (l : list item) : Prop := NoDup (map id l).

Lemma add_ids_unique (it : item) (l : list item) :
  ids_unique l -> id it ∉ map id l -> ids_unique (add it l).
Proof. unfold ids_unique, add. simpl. intros. by constructor. Qed.

Lemma remove_ids_unique (i : jstr) (l : list item) : ids_unique l -> ids_unique (remove i l).
Proof.
  unfold ids_unique. intros Hnd. eapply sublist_NoDup; [exact Hnd|].
  apply map_sublist, filter_sublist_bool.
Qed.

Lemma remove_absent (i : jstr) (l : list item) : i ∉ map id l -> remove i l = l.
Proof.
  induction l as [|it l IH]; simpl; intros Hi; [done|].
  rewrite bool_decide_false by (intros <-; set_solver). simpl.
  f_equal. apply IH. set_solver.
Qed.

Lemma remove_gone (i : jstr) (l : list item) : i ∉ map id (remove i l).
Proof.
  induction l as [|it l IH]; simpl; [apply not_elem_of_nil|].
  destruct (bool_decide (id it = i)) eqn:E; simpl; [done|].
  apply bool_decide_eq_false in E. set_solver.
Qed.

(** Removing a present id of a list with unique ids removes exactly one
    record. *)
Lemma remove_length (i : jstr) (l : list item) :
  ids_unique l -> i ∈ map id l -> length (remove i l) = pred (length l).
Proof.
  unfold ids_unique. induction l as [|it l IH]; simpl; intros Hnd Hi; [by apply elem_of_nil in Hi|].
  apply NoDup_cons in Hnd as [Hnin Hnd].
  destruct (bool_decide (id it = i)) eqn:E; simpl.
  - apply bool_decide_eq_true in E. subst. rewrite remove_absent by done. done.
  - apply bool_decide_eq_false in E. apply elem_of_cons in Hi as [->|Hi]; [done|].
    rewrite IH by done. destruct l; [by apply elem_of_nil in Hi|done].
Qed.
End StoreSpec.

Section Store.
Context `{JsonCodec}.

Definition parse_or_throw (s : jstr) : result jval :=
  match codec_parse s with Some v => Ok v | None => Throw SyntaxError end.

(** [function loadItems()]: [try { return JSON.parse(getItem || "[]") }
    catch { return [] }]. *)
Definition loadItems (st : storage) : jval :=
  try_catch (parse_or_throw (or_default (getItem st LS_KEY) (lit "[]"))) (fun _ => JArr []).

(** [function saveItems(items)]. *)
Definition saveItems (items : jval) (st : storage) : result storage :=
  setItem LS_KEY (codec_stringify items) st.

(** The store update of [function addItem(item)]: load, [unshift]
    (newest first), save.  [renderAll] follows in [App]. *)
Definition addItem_store (item : jval) (st : storage) : result storage :=
  let! items := js_unshift (loadItems st) item in
  saveItems items st.

(** The store update of [function clearAll()]. *)
Definition clearAll_store (st : storage) : storage := removeItem LS_KEY st.

(** [it => it.id !== id]: a record whose [id] is not the string [id]. *)
Definition id_differs (i : jstr) (it : jval) : result bool :=
  let! p := get_prop it (lit "id") in
  Ok (match p with Some (JStr s) => negb (bool_decide (s = i)) | _ => true end).

(** The store update of the delete button:
    [saveItems(loadItems().filter(it => it.id !== id))]. *)
Definition deleteItem_store (i : jstr) (st : storage) : result storage :=
  let! items := js_filter (loadItems st) (id_differs i) in
  saveItems items st.

(** ** The storage area *)

Lemma setItem_Ok (k v : jstr) (st st' : storage) :
  setItem k v st = Ok st' -> entries st' = <[k := v]> (entries st) /\ quota st' = quota st.
Proof.
  unfold setItem. destruct (storage_used _ <=? quota st); [|done]. by intros [= <-].
Qed.

Lemma setItem_Throw (k v : jstr) (st : storage) (e : js_exn) :
  setItem k v st = Throw e -> e = QuotaExceededError.
Proof. unfold setItem. by destruct (storage_used _ <=? quota st); intros [= <-]. Qed.

Lemma getItem_setItem (k k' v : jstr) (st st' : storage) :
  setItem k v st = Ok st' -> getItem st' k' = if decide (k = k') then Some v else getItem st k'.
Proof.
  intros [He _]%setItem_Ok. unfold getItem. rewrite He.
  destruct (decide (k = k')) as [->|]; [apply lookup_insert_eq|by apply lookup_insert_ne].
Qed.

(** [loadItems] reads the text stored under [LS_KEY]. *)
Lemma loadItems_text (st : storage) (s : jstr) :
  getItem st LS_KEY = Some s -> s <> [] ->
  loadItems st = match codec_parse s with Some v => v | None => JArr [] end.
Proof.
  intros Hs Hne. unfold loadItems, parse_or_throw. rewrite Hs.
  destruct s as [|c s]; [done|]. simpl. by destruct (codec_parse (c :: s)).
Qed.

(** With nothing stored, [loadItems] returns the empty array. *)
Lemma loadItems_absent (st : storage) : getItem st LS_KEY = None -> loadItems st = JArr [].
Proof. intros Hs. unfold loadItems, parse_or_throw. by rewrite Hs, codec_parse_empty. Qed.

Lemma getItem_removeItem (k k' : jstr) (st : storage) :
  getItem (removeItem k st) k' = if decide (k = k') then None else getItem st k'.
Proof.
  unfold getItem, removeItem. simpl.
  destruct (decide (k = k')) as [->|]; [apply lookup_delete_eq|by apply lookup_delete_ne].
Qed.

Lemma LS_THEME_LS_KEY : LS_THEME <> LS_KEY.
Proof. vm_compute. discriminate. Qed.

(** Writing another key leaves what [loadItems] reads. *)
Lemma loadItems_setItem_other (k v : jstr) (st st' : storage) :
  k <> LS_KEY -> setItem k v st = Ok st' -> loadItems st' = loadItems st.
Proof.
  intros Hk Hs. unfold loadItems. rewrite (getItem_setItem _ _ _ _ _ Hs). by rewrite decide_False.
Qed.

(** After [clearAll] the items key is absent. *)
Lemma clearAll_store_load (st : storage) : loadItems (clearAll_store st) = JArr [].
Proof.
  unfold clearAll_store. rewrite loadItems_absent; [done|].
  rewrite getItem_removeItem. by rewrite decide_True.
Qed.

(** ** The round trip *)

Lemma saveItems_load (v : jval) (st st' : storage) :
  json_wf v = true -> saveItems v st = Ok st' -> loadItems st' = v.
Proof.
  intros Hwf Hs. rewrite (loadItems_text st' (codec_stringify v)).
  - by rewrite codec_roundtrip.
  - unfold saveItems in Hs. rewrite (getItem_setItem _ _ _ _ _ Hs). by rewrite decide_True.
  - apply codec_stringify_nonempty.
Qed.

(** C7. Saving a well-formed value and loading it back gives it back. *)
Theorem loadItems_saveItems (v : jval) (st st' : storage) :
  json_wf v = true -> saveItems v st = Ok st' -> loadItems st' = v.
Proof. apply saveItems_load. Qed.

(** ** Refinement of the abstract store *)

(** The storage area represents the list [l] of records. *)
Definition store_repr (st : storage) (l : list item) : Prop :=
  loadItems st = JArr (map item_to_json l).

Lemma saveItems_repr (l : list item) (st st' : storage) :
  forallb item_ok l = true -> saveItems (JArr (map item_to_json l)) st = Ok st' ->
  store_repr st' l.
Proof. intros Hok Hs. apply (saveItems_load _ st); [by apply items_to_json_wf|done]. Qed.

Lemma remove_items_ok (i : jstr) (l : list item) :
  forallb item_ok l = true -> forallb item_ok (StoreSpec.remove i l) = true.
Proof.
  intros Hok. unfold StoreSpec.remove. apply forallb_forall. intros it Hin%filter_In.
  apply (proj1 (forallb_forall _ _) Hok). tauto.
Qed.

(** On a represented store, [addItem] saves the list with the record
    in front: it throws nothing but the quota error of [setItem]. *)
Lemma addItem_store_repr (it : item) (l : list item) (st : storage) :
  store_repr st l ->
  addItem_store (item_to_json it) st = saveItems (JArr (map item_to_json (StoreSpec.add it l))) st.
Proof. unfold addItem_store, store_repr. intros ->. reflexivity. Qed.

Lemma filterM_id_differs (i : jstr) (l : list item) :
  filterM (id_differs i) (map item_to_json l) = Ok (map item_to_json (StoreSpec.remove i l)).
Proof.
  induction l as [|it l IH]; [done|]. cbn [map filterM]. unfold id_differs at 1.
  rewrite get_prop_id. simpl. rewrite IH. simpl.
  by destruct (bool_decide (id it = i)).
Qed.

Lemma deleteItem_store_repr (i : jstr) (l : list item) (st : storage) :
  store_repr st l ->
  deleteItem_store i st = saveItems (JArr (map item_to_json (StoreSpec.remove i l))) st.
Proof.
  unfold deleteItem_store, store_repr. intros ->. simpl. by rewrite filterM_id_differs.
Qed.

(** C1. Refinement of [add]: when [addItem] succeeds on a store that
    represents [l], the store represents [l] with the record in front. *)
Theorem addItem_refines (it : item) (l : list item) (st st' : storage) :
  store_repr st l -> forallb item_ok (it :: l) = true ->
  addItem_store (item_to_json it) st = Ok st' -> store_repr st' (StoreSpec.add it l).
Proof. intros Hr Hok. rewrite (addItem_store_repr it l st Hr). by apply saveItems_repr. Qed.

(** C2. Refinement of [remove]: the delete button's update removes the
    records with that id and keeps the others in order. *)
Theorem deleteItem_refines (i : jstr) (l : list item) (st st' : storage) :
  store_repr st l -> forallb item_ok l = true ->
  deleteItem_store i st = Ok st' -> store_repr st' (StoreSpec.remove i l).
Proof.
  intros Hr Hok. rewrite (deleteItem_store_repr i l st Hr). apply saveItems_repr.
  by apply remove_items_ok.
Qed.

(** C3. Refinement of [clear]: after [clearAll] the store represents the
    empty list, whatever it held. *)
Theorem clearAll_refines (st : storage) : store_repr (clearAll_store st) StoreSpec.clear.
Proof. apply clearAll_store_load. Qed.

(** ** Errors *)

(** C22. Soft failure: a stored text that does not parse loads as the
    empty array. *)
Theorem loadItems_corrupt (st : storage) (s : jstr) :
  getItem st LS_KEY = Some s -> codec_parse s = None -> loadItems st = JArr [].
Proof.
  intros Hs Hp. destruct s as [|c s].
  - unfold loadItems, parse_or_throw. by rewrite Hs, codec_parse_empty.
  - rewrite (loadItems_text st (c :: s)); [by rewrite Hp|done|done].
Qed.

(** C23. The failure is not soft for a text that parses to something else
    than an array ([null], an object, a number, a string): [addItem]
    throws [TypeError] at [items.unshift]. *)
Theorem addItem_not_array (x : jval) (st : storage) :
  (forall l, loadItems st <> JArr l) -> addItem_store x st = Throw TypeError.
Proof.
  intros Hna. unfold addItem_store.
  destruct (loadItems st) eqn:E; try done. by destruct (Hna l).
Qed.

(** The delete button throws the same [TypeError] at [filter]. *)
Lemma deleteItem_not_array (i : jstr) (st : storage) :
  (forall l, loadItems st <> JArr l) -> deleteItem_store i st = Throw TypeError.
Proof.
  intros Hna. unfold deleteItem_store.
  destruct (loadItems st) eqn:E; try done. by destruct (Hna l).
Qed.

(** The loop of [filter] stops at the first predicate that throws, when
    the predicate throws nothing else. *)
Lemma filterM_throw (p : jval -> result bool) (e : js_exn) (x : jval) (l : list jval) :
  (forall y, p y = Throw e \/ exists b, p y = Ok b) -> In x l -> p x = Throw e -> filterM p l = Throw e.
Proof.
  intros Hp Hin Hx. induction l as [|y l IH]; [done|]. cbn.
  destruct Hin as [<-|Hin]; [by rewrite Hx|].
  destruct (Hp y) as [->|[b ->]]; [done|]. by rewrite (IH Hin).
Qed.

Lemma id_differs_cases (i : jstr) (y : jval) :
  id_differs i y = Throw TypeError \/ exists b, id_differs i y = Ok b.
Proof. destruct y; cbn; eauto. Qed.

(** C24. Entries that are not records are not excluded: a stored array
    with a [null] entry does not have the type of the store, and the
    delete button throws [TypeError] reading its [id], where the
    specification excludes structurally invalid entries on load. *)
Theorem delete_untyped_entry (i : jstr) (st : storage) (vs : list jval) :
  loadItems st = JArr vs -> In JNull vs ->
  ~ has_type (JArr vs) items_ty /\ deleteItem_store i st = Throw TypeError.
Proof.
  intros Hl Hin. split.
  - inversion 1 as [| | | | | | |vs' t Hvs|]; subst.
    rewrite List.Forall_forall in Hvs. pose proof (Hvs _ Hin) as Hn. by inversion Hn.
  - unfold deleteItem_store. rewrite Hl. cbn.
    by rewrite (filterM_throw _ _ JNull vs (id_differs_cases i) Hin eq_refl).
Qed.

(** ** Order, counts, other keys *)

(** Insertion order: two records added one after the other are loaded
    newest first. *)
Corollary addItem_twice (r1 r2 : item) (l : list item) (st st1 st2 : storage) :
  store_repr st l -> forallb item_ok (r2 :: r1 :: l) = true ->
  addItem_store (item_to_json r1) st = Ok st1 ->
  addItem_store (item_to_json r2) st1 = Ok st2 ->
  store_repr st2 (r2 :: r1 :: l).
Proof.
  intros Hr Hok H1 H2. simpl in Hok. apply andb_true_iff in Hok as [Hok2 Hok].
  rewrite (addItem_store_repr r1 l st Hr) in H1. apply saveItems_repr in H1; [|done].
  rewrite (addItem_store_repr r2 (r1 :: l) st1 H1) in H2. apply saveItems_repr in H2; [done|].
  simpl. by rewrite Hok2.
Qed.

(** Deleting from a store with unique ids: a present id goes and the
    store has one record less; an absent id leaves the list as it was. *)
Theorem deleteItem_count (i : jstr) (l : list item) (st st' : storage) :
  store_repr st l -> forallb item_ok l = true -> StoreSpec.ids_unique l ->
  deleteItem_store i st = Ok st' ->
  exists l', store_repr st' l' /\ (i ∉ map id l') /\
    (if bool_decide (i ∈ map id l) then length l' = pred (length l) else l' = l).
Proof.
  intros Hr Hok Hu Hd. exists (StoreSpec.remove i l).
  rewrite (deleteItem_store_repr i l st Hr) in Hd.
  split; [by apply saveItems_repr in Hd; [|apply remove_items_ok]|]. split; [apply StoreSpec.remove_gone|].
  case_bool_decide; [by apply StoreSpec.remove_length|by apply StoreSpec.remove_absent].
Qed.

(** C34. The item updates touch no other key of the storage area (the
    theme preference in particular). *)
Theorem addItem_other_keys (x : jval) (st st' : storage) (k : jstr) :
  k <> LS_KEY -> addItem_store x st = Ok st' -> getItem st' k = getItem st k.
Proof.
  intros Hk. unfold addItem_store. destruct (js_unshift (loadItems st) x); [|done].
  simpl. unfold saveItems. intros Hs. rewrite (getItem_setItem _ _ _ _ _ Hs).
  by rewrite decide_False.
Qed.

(** The other key and the quota of [clearAll]. *)
Lemma clearAll_other_keys (st : storage) (k : jstr) :
  k <> LS_KEY -> getItem (clearAll_store st) k = getItem st k.
Proof. intros Hk. unfold clearAll_store. rewrite getItem_removeItem. by rewrite decide_False. Qed.
End Store.

(** ** Concrete runs *)

(** An area of the usual five million code units. *)
Definition empty_storage : storage := mk_storage ∅ 5000000.

(** A storage area holding exactly the JSON text of [l]. *)
Definition store_of (l : list item) : storage :=
  mk_storage {[ LS_KEY := stringify (JArr (map item_to_json l)) ]} 5000000.

Lemma addItem_refines_witness :
  exists st', addItem_store (item_to_json sample_panic) (store_of [sample_report]) = Ok st' /\
              store_repr st' [sample_panic; sample_report].
Proof.
  eexists. split; [reflexivity|].
  apply (addItem_refines sample_panic [sample_report] (store_of [sample_report]));
    [vm_compute; reflexivity|vm_compute; reflexivity|reflexivity].
Defined.

Lemma deleteItem_refines_witness :
  exists st', deleteItem_store (lit "r-1") (store_of [sample_panic; sample_report]) = Ok st' /\
              store_repr st' [sample_panic].
Proof.
  eexists. split; [reflexivity|].
  apply (deleteItem_refines (lit "r-1") [sample_panic; sample_report]
           (store_of [sample_panic; sample_report])); [vm_compute; reflexivity|reflexivity|reflexivity].
Defined.

Lemma loadItems_saveItems_witness :
  exists st', saveItems (item_to_json sample_panic) empty_storage = Ok st' /\
              loadItems st' = item_to_json sample_panic.
Proof.
  eexists. split; [reflexivity|].
  apply (loadItems_saveItems (item_to_json sample_panic) empty_storage); [reflexivity|reflexivity].
Defined.

(** A blob that is not JSON, and one that is JSON but not an array. *)
Definition corrupt_storage : storage := mk_storage {[ LS_KEY := lit "[{oops" ]} 5000000.
Definition null_storage : storage := mk_storage {[ LS_KEY := lit "null" ]} 5000000.

Definition null_entry_storage : storage := mk_storage {[ LS_KEY := lit "[null]" ]} 5000000.

Lemma delete_untyped_entry_witness :
  loadItems null_entry_storage = JArr [JNull] /\ In JNull [JNull] /\
  ~ has_type (JArr [JNull]) items_ty /\ deleteItem_store (lit "id-0") null_entry_storage = Throw TypeError.
Proof.
  split; [vm_compute; reflexivity|]. split; [left; reflexivity|].
  apply (delete_untyped_entry (lit "id-0") null_entry_storage [JNull]); [vm_compute; reflexivity|left; reflexivity].
Defined.

Lemma loadItems_corrupt_witness : loadItems corrupt_storage = JArr [].
Proof. apply (loadItems_corrupt corrupt_storage (lit "[{oops")); reflexivity. Defined.

Lemma addItem_not_array_witness :
  loadItems null_storage = JNull /\
  addItem_store (item_to_json sample_report) null_storage = Throw TypeError.
Proof.
  split; [reflexivity|]. apply addItem_not_array. intros l. vm_compute. discriminate.
Defined.

Lemma addItem_twice_witness :
  exists st1 st2,
    addItem_store (item_to_json sample_report) empty_storage = Ok st1 /\
    addItem_store (item_to_json sample_panic) st1 = Ok st2 /\
    store_repr st2 [sample_panic; sample_report].
Proof.
  do 2 eexists. split; [reflexivity|]. split; [reflexivity|].
  eapply (addItem_twice sample_report sample_panic [] empty_storage);
    [vm_compute; reflexivity|reflexivity|reflexivity|reflexivity].
Defined.

Lemma deleteItem_count_witness :
  exists st', deleteItem_store (lit "p-1") (store_of [sample_panic; sample_report]) = Ok st' /\
    exists l', store_repr st' l' /\ (lit "p-1" ∉ map id l') /\ length l' = 1%nat.
Proof.
  eexists. split; [reflexivity|].
  edestruct (deleteItem_count (lit "p-1") [sample_panic; sample_report]
              (store_of [sample_panic; sample_report]))
    as (l' & Hr & Hn & Hl); [vm_compute; reflexivity|reflexivity| |reflexivity|].
  - unfold StoreSpec.ids_unique. simpl. repeat constructor; set_solver.
  - exists l'. split_and!; [done|done|]. rewrite bool_decide_true in Hl; [done|]. set_solver.
Defined.

Lemma addItem_other_keys_witness :
  exists st', addItem_store (item_to_json sample_report) empty_storage = Ok st' /\
              getItem st' LS_THEME = None.
Proof.
  eexists. split; [reflexivity|].
  rewrite (addItem_other_keys (item_to_json sample_report) empty_storage); [reflexivity|discriminate|reflexivity].
Defined.
