(* ===== verification/Query.v ===== *)
(** * The query engine

    [matchesSearch] (lines 191-195), [matchesFilter] (197-200) and the
    filtering step of [renderFeed] (204-207) of [src/app.js]: the search
    box's value is trimmed, lower-cased and looked for as a substring of
    the lower-cased text [kind type description] of each record; the
    category select keeps all records or those of one kind.

    The theorems characterise the filter exactly ([filter_items_spec]):
    it keeps, in store order, the records whose joined text contains the
    query and whose kind is selected; an empty or white-space query with
    [ALL] keeps everything; the search is insensitive to case.  The text
    searched is the three fields joined with spaces, so a query can
    match across two fields ([search_across_fields]). *)

From S2P Require Import Prelude JsString Item.

Local Open Scope Z_scope.

(** [s || d] on a string [s]: the empty string is falsy. *)
Definition or_str (s d : jstr) : jstr := match s with [] => d | _ => s end.

(** The template of [matchesSearch]: [item.kind], a space, [item.type]
    or the empty string, a space, [item.description] or the empty
    string. *)
Definition joined_text (it : item) : jstr :=
  kind_str (kind it) ++ [32] ++ or_str (type it) [] ++ [32] ++ or_str (description it) [].

(** [function matchesSearch(item, q)]: [if (!q) return true] (the empty
    string is falsy), then [hay.includes(q.toLowerCase())]. *)
Definition matchesSearch (it : item) (q : jstr) : bool :=
  match q with
  | [] => true
  | _ => includes (toLowerCase (joined_text it)) (toLowerCase q)
  end.

(** [function matchesFilter(item, f)]: [f === "ALL"] or
    [item.kind === f]. *)
Definition matchesFilter (it : item) (f : jstr) : bool :=
  if decide (f = lit "ALL") then true else bool_decide (kind_str (kind it) = f).

(** The filtering of [renderFeed]: [q = searchInput.value.trim()],
    [f = filterSelect.value], [items.filter(it => matchesSearch(it, q)
    && matchesFilter(it, f))]. *)
Definition filter_items (items : list item) (search_value f : jstr) : list item :=
  let q := trim search_value in
  List.filter (fun it => matchesSearch it q && matchesFilter it f) items.

(** ** Properties *)

Lemma or_str_nil (s : jstr) : or_str s [] = s.
Proof. by destruct s. Qed.

(** A record matches a non-empty query when the lower-cased query
    occurs in its lower-cased joined text. *)
Lemma matchesSearch_spec (it : item) (q : jstr) :
  matchesSearch it q = true <->
  q = [] \/ exists a b, toLowerCase (joined_text it) = a ++ toLowerCase q ++ b.
Proof.
  unfold matchesSearch. destruct q as [|c q]; [split; auto|].
  rewrite includes_spec. split; [by right|]. by intros [|].
Qed.

Lemma matchesFilter_spec (it : item) (f : jstr) :
  matchesFilter it f = true <-> f = lit "ALL" \/ kind_str (kind it) = f.
Proof.
  unfold matchesFilter. case_decide; [split; auto|].
  rewrite bool_decide_eq_true. split; [auto|]. by intros [|].
Qed.

(** C21. The filter, exactly: a record is kept when it is in the store, its
    text contains the trimmed query (or the query is blank), and its
    kind is the one selected (or [ALL] is). *)
Theorem filter_items_spec (items : list item) (s f : jstr) (it : item) :
  In it (filter_items items s f) <->
  In it items /\
  (trim s = [] \/ exists a b, toLowerCase (joined_text it) = a ++ toLowerCase (trim s) ++ b) /\
  (f = lit "ALL" \/ kind_str (kind it) = f).
Proof.
  unfold filter_items. rewrite filter_In, andb_true_iff, matchesSearch_spec, matchesFilter_spec.
  tauto.
Qed.

(** The filter keeps store order: its result is a sublist of the
    store. *)
Theorem filter_items_sublist (items : list item) (s f : jstr) :
  sublist (filter_items items s f) items.
Proof. apply filter_sublist_bool. Qed.

(** An empty or white-space query with [ALL] keeps every record, in
    order. *)
Theorem filter_items_all (items : list item) (s : jstr) :
  Forall (fun c => is_js_space c = true) s -> filter_items items s (lit "ALL") = items.
Proof.
  intros Hs. unfold filter_items. apply trim_nil_iff in Hs. rewrite Hs.
  apply filter_all_true. intros it _. reflexivity.
Qed.

(** With a blank query, a category keeps exactly the records of that
    kind. *)
Theorem filter_items_kind (items : list item) (s : jstr) (k : item_kind) :
  Forall (fun c => is_js_space c = true) s ->
  filter_items items s (kind_str k) = List.filter (fun it => bool_decide (kind it = k)) items.
Proof.
  intros Hs. unfold filter_items. apply trim_nil_iff in Hs. rewrite Hs.
  apply filter_ext_in. intros it _. simpl. unfold matchesFilter.
  rewrite decide_False by (destruct k; discriminate).
  apply bool_decide_ext. split; [apply kind_str_inj|by intros ->].
Qed.

(** The search ignores case: a query and its lower-cased form select the
    same records. *)
Theorem matchesSearch_case (it : item) (q : jstr) :
  matchesSearch it (toLowerCase q) = matchesSearch it q.
Proof.
  unfold matchesSearch. rewrite toLowerCase_idem. by destruct q.
Qed.

(** A text contains only queries no longer than itself. *)
Lemma includes_length (s q : jstr) : includes s q = true -> (length q <= length s)%nat.
Proof. intros (x & y & ->)%includes_spec. rewrite !length_app. lia. Qed.

(** C33. A query can span two fields: for every record, its kind, a
    space and its type, as a query, selects the record, though neither
    the kind nor the type contains it. *)
Theorem search_across_fields (it : item) :
  let q := kind_str (kind it) ++ [32] ++ type it in
  matchesSearch it q = true /\
  includes (toLowerCase (kind_str (kind it))) (toLowerCase q) = false /\
  includes (toLowerCase (type it)) (toLowerCase q) = false.
Proof.
  intros q. assert (Hk : kind_str (kind it) <> []) by (by destruct (kind it)).
  split_and!.
  - unfold matchesSearch, q. destruct (kind_str (kind it)) as [|c k] eqn:E; [done|].
    apply includes_spec. exists [], (toLowerCase ([32] ++ or_str (description it) [])).
    unfold joined_text. rewrite E. replace (or_str (type it) []) with (type it) by (by destruct (type it)).
    rewrite app_nil_l, <- toLowerCase_app, <- !app_assoc. reflexivity.
  - apply not_true_is_false. intros Hl%includes_length. revert Hl. unfold q.
    rewrite !length_toLowerCase, !length_app. simpl. lia.
  - apply not_true_is_false. intros Hl%includes_length. revert Hl. unfold q.
    rewrite !length_toLowerCase, !length_app. simpl. destruct (kind_str (kind it)); [done|]. simpl. lia.
Qed.

(** The query [panic emergency] selects the sample panic record, though
    none of its three fields contains it. *)
Example search_across_fields_sample :
  matchesSearch sample_panic (lit "panic emergency") = true /\
  includes (toLowerCase (kind_str (kind sample_panic))) (lit "panic emergency") = false /\
  includes (toLowerCase (type sample_panic)) (lit "panic emergency") = false /\
  includes (toLowerCase (description sample_panic)) (lit "panic emergency") = false.
Proof. vm_compute. auto. Qed.

(** A blank query with [ALL]: the two sample records are both kept. *)
Lemma filter_items_all_witness :
  Forall (fun c => is_js_space c = true) (lit "  ") /\
  filter_items [sample_panic; sample_report] (lit "  ") (lit "ALL") = [sample_panic; sample_report].
Proof.
  split; [vm_compute; repeat constructor|].
  apply filter_items_all. vm_compute. repeat constructor.
Defined.

(** A blank query with [REPORT]: the sample report only. *)
Lemma filter_items_kind_witness :
  Forall (fun c => is_js_space c = true) [] /\
  filter_items [sample_panic; sample_report] [] (kind_str REPORT) =
    List.filter (fun it => bool_decide (kind it = REPORT)) [sample_panic; sample_report].
Proof. split; [constructor|]. apply filter_items_kind. constructor. Defined.
