(* ===== verification/Platform.v ===== *)
(** * Platform functions and the small helpers of [src/app.js]

    The browser supplies functions whose results the model does not fix:
    the locale's rendering of a date ([toLocaleString]), the decimal
    text of a double ([Number::toString]), fresh ids ([crypto.randomUUID],
    or [Date.now] and [Math.random] without it), the clock
    ([new Date().toISOString()]), whether [navigator.share] exists and
    the page's [location.href].  They are the fields of the class
    [Platform]; the views and handlers are proved for every instance, and
    [sample_platform] is one concrete instance on which the scenarios
    run.  The file also models the helpers [niceTime] (lines 47-50),
    [uuid] (81-83), [nowISO] (43-45) and [coordsToMapsLink] (85-88), with
    [encodeURIComponent] on the ASCII text of numbers. *)

From S2P Require Import Prelude JsString Json.

Local Open Scope Z_scope.

(** What the page gets from the browser. *)
Class Platform := {
  (** [new Date(iso).toLocaleString()] *)
  date_toLocaleString : jstr -> jstr;
  (** [String(x)] for a finite number [x] *)
  number_toString : Q -> jstr;
  (** whether [crypto.randomUUID] exists *)
  has_randomUUID : bool;
  (** [crypto.randomUUID()], the [n]-th call *)
  random_uuid : nat -> jstr;
  (** [Date.now()] and [Math.random().toString(16).slice(2)], the [n]-th
      call *)
  date_now : nat -> Z;
  random_hex : nat -> jstr;
  (** [new Date().toISOString()], the [n]-th call *)
  now_iso : nat -> jstr;
  (** whether [navigator.share] exists, and [location.href] *)
  has_share : bool;
  page_href : jstr
}.

Section Helpers.
Context `{Platform}.

(** [function niceTime(iso)]. *)
Definition niceTime (iso : jstr) : jstr := date_toLocaleString iso.

(** [function uuid()]: [crypto.randomUUID()] where it exists, else the
    time and a random hexadecimal suffix joined by [_]. *)
Definition uuid (n : nat) : jstr :=
  if has_randomUUID then random_uuid n
  else Z_to_decimal (date_now n) ++ [95] ++ random_hex n.

(** [function nowISO()]. *)
Definition nowISO (n : nat) : jstr := now_iso n.
End Helpers.

(** The code units [encodeURIComponent] leaves alone: ASCII letters,
    digits and [- _ . ! ~ * ' ( )]. *)
Definition uri_unreserved (c : Z) : bool :=
  ((65 <=? c) && (c <=? 90)) || ((97 <=? c) && (c <=? 122)) || ((48 <=? c) && (c <=? 57)) ||
  (c =? 45) || (c =? 95) || (c =? 46) || (c =? 33) || (c =? 126) || (c =? 42) ||
  (c =? 39) || (c =? 40) || (c =? 41).

Definition hex_upper (n : Z) : Z := if n <? 10 then 48 + n else 55 + n.

(** [encodeURIComponent(s)] on ASCII text (the only text the code gives
    it, the decimal form of a number): other ASCII code units become
    [%XX]; non-ASCII code units, which it never receives, are copied. *)
Definition encodeURIComponent (s : jstr) : jstr :=
  flat_map (fun c => if uri_unreserved c || (127 <? c) then [c]
                     else [37; hex_upper (c / 16); hex_upper (c mod 16)]) s.

Section MapsLink.
Context `{Platform}.

(** [function coordsToMapsLink(lat, lng)]. *)
Definition coordsToMapsLink (la ln : Q) : jstr :=
  lit "https://www.google.com/maps?q=" ++ encodeURIComponent (number_toString la) ++ [44]
    ++ encodeURIComponent (number_toString ln).
End MapsLink.

(** A deterministic environment for the examples: dates are shown as
    their ISO text, numbers by the numeral of [Json.print_number], ids
    are numbered. *)
Definition sample_platform : Platform := {|
  date_toLocaleString := fun iso => iso;
  number_toString := print_number;
  has_randomUUID := true;
  random_uuid := fun n => lit "id-" ++ nat_to_decimal (Z.of_nat n);
  date_now := fun n => 1762675200000 + Z.of_nat n;
  random_hex := fun _ => lit "9f3a";
  now_iso := fun _ => lit "2026-11-09T08:00:00.000Z";
  has_share := false;
  page_href := lit "https://example.org/safeconnect/"
|}.
