(* ===== verification/MapView.v ===== *)
(** * The map projection

    The Leaflet markers of [src/app.js]: [upsertIncidentMarker] (lines
    145-168), [rebuildMarkers] (170-179) and [updateMyMarkerOnMap]
    (132-143).  The page keeps a JavaScript [Map] [markers] from record
    ids to marker objects, and one marker [myMarker] for the user's
    position.  Leaflet is modelled by the state of its layers: every
    marker object has a handle, a position and a popup; the map shows a
    set of handles, has a view (centre and zoom), at most one open popup
    and its tile layers ([leaflet]).  [initMap]'s map ([init_map_view])
    and the centring of the centre-me button ([centerOn]) are here too.

    The theorems: after [rebuildMarkers], the [markers] Map has exactly
    the ids of the stored records that have a location, each bound to a
    marker on the map at that location with that record's popup, and no
    marker of an earlier build is left on the map; with unique ids there
    is one marker per located record, and two records sharing an id get
    one marker; [myMarker] is created once and then only moved; the
    markup of a popup does not depend on the record's texts. *)

From S2P Require Import Prelude JsString Escape Item Platform Query.

Local Open Scope Z_scope.

(** ** Leaflet *)

(** A marker object: its position and its popup (bound or not). *)
Record lmarker := mk_lmarker { lm_pos : Q * Q; lm_popup : option jstr }.

(** The markers created so far, by handle, those on the map, the next
    handle, the view (centre and zoom) and the marker whose popup is
    open. *)
Record leaflet := mk_leaflet {
  layers : gmap positive lmarker;
  on_map : gset positive;
  next_handle : positive;
  view : (Q * Q) * Z;
  popup_open : option positive;
  tiles : list jstr
}.

(** [L.marker([lat, lng])]: a new marker object, not on the map. *)
Definition new_marker (p : Q * Q) (lf : leaflet) : positive * leaflet :=
  (next_handle lf,
   mk_leaflet (<[next_handle lf := mk_lmarker p None]> (layers lf)) (on_map lf)
              (Pos.succ (next_handle lf)) (view lf) (popup_open lf) (tiles lf)).

(** [m.addTo(map)]. *)
Definition add_to (h : positive) (lf : leaflet) : leaflet :=
  mk_leaflet (layers lf) ({[h]} ∪ on_map lf) (next_handle lf) (view lf) (popup_open lf) (tiles lf).

(** [m.bindPopup(html)]. *)
Definition bind_popup (h : positive) (html : jstr) (lf : leaflet) : leaflet :=
  mk_leaflet (alter (fun m => mk_lmarker (lm_pos m) (Some html)) h (layers lf))
             (on_map lf) (next_handle lf) (view lf) (popup_open lf) (tiles lf).

(** [m.setLatLng([lat, lng])]. *)
Definition set_lat_lng (h : positive) (p : Q * Q) (lf : leaflet) : leaflet :=
  mk_leaflet (alter (fun m => mk_lmarker p (lm_popup m)) h (layers lf))
             (on_map lf) (next_handle lf) (view lf) (popup_open lf) (tiles lf).

(** [map.removeLayer(m)]: a removed marker's popup closes with it. *)
Definition remove_layer (h : positive) (lf : leaflet) : leaflet :=
  mk_leaflet (layers lf) (on_map lf ∖ {[h]}) (next_handle lf) (view lf)
             (if decide (popup_open lf = Some h) then None else popup_open lf) (tiles lf).

(** [map.setView([lat, lng], zoom)]. *)
Definition set_view (c : Q * Q) (zoom : Z) (lf : leaflet) : leaflet :=
  mk_leaflet (layers lf) (on_map lf) (next_handle lf) (c, zoom) (popup_open lf) (tiles lf).

(** [m.openPopup()]: the map shows one popup at a time. *)
Definition open_popup (h : positive) (lf : leaflet) : leaflet :=
  mk_leaflet (layers lf) (on_map lf) (next_handle lf) (view lf) (Some h) (tiles lf).

(** [L.tileLayer(url, ...).addTo(map)]. *)
Definition add_tile_layer (url : jstr) (lf : leaflet) : leaflet :=
  mk_leaflet (layers lf) (on_map lf) (next_handle lf) (view lf) (popup_open lf) (tiles lf ++ [url]).

(** ** The page's map state *)

(** The Leaflet state, the [markers] Map (id to handle) and [myMarker]. *)
Record map_view := mk_map_view {
  leaflet_of : leaflet;
  markers : gmap jstr positive;
  myMarker : option positive
}.

Section MapView.
Context `{Platform}.

(** [label + ": " + (item.type || "Incident")], the label being the
    siren or the memo emoji and [Panic Alert] or [Report]. *)
Definition popup_title (it : item) : jstr :=
  (match kind it with
   | PANIC => [55357; 57000] ++ lit " Panic Alert"
   | REPORT => [55357; 56541] ++ lit " Report"
   end) ++ lit ": " ++ or_str (type it) (lit "Incident").

(** The [popupHtml] template. *)
Definition popupHtml (it : item) (p : position) : jstr :=
  html "
    <div style=`font-weight:900;margin-bottom:6px;`>" ++ escapeHtml (popup_title it) ++ html "</div>
    <div style=`font-size:12px;opacity:.8;margin-bottom:6px;`>" ++ escapeHtml (niceTime (createdAt it))
  ++ html "</div>
    <div style=`font-size:13px;line-height:1.4;opacity:.9;`>" ++ escapeHtml (or_str (description it) [])
  ++ html "</div>
    <div style=`margin-top:8px;`>
      <a href=`" ++ coordsToMapsLink (lat p) (lng p) ++ html "` target=`_blank` rel=`noopener`>Open in Maps</a>
    </div>
  ".

(** [function upsertIncidentMarker(item)] on a map that exists: a
    record without location is skipped; a known id moves its marker
    and rebinds its popup; a new id gets a new marker on the map. *)
Definition upsertIncidentMarker (mv : map_view) (it : item) : map_view :=
  match location it with
  | None => mv
  | Some p =>
      let popup := popupHtml it p in
      match markers mv !! id it with
      | Some h =>
          mk_map_view (bind_popup h popup (set_lat_lng h (lat p, lng p) (leaflet_of mv)))
                      (markers mv) (myMarker mv)
      | None =>
          let '(h, lf) := new_marker (lat p, lng p) (leaflet_of mv) in
          mk_map_view (bind_popup h popup (add_to h lf)) (<[id it := h]> (markers mv))
                      (myMarker mv)
      end
  end.

(** [markers.forEach((m) => map.removeLayer(m))] (the removals
    commute, so the order of the Map does not matter). *)
Definition remove_all (ms : list (jstr * positive)) (lf : leaflet) : leaflet :=
  fold_left (fun lf kv => remove_layer kv.2 lf) ms lf.

(** [function rebuildMarkers()], given the records [loadItems] returns:
    remove every marker of the Map from the map, clear the Map, then
    upsert the records in store order. *)
Definition rebuildMarkers (mv : map_view) (items : list item) : map_view :=
  let lf := remove_all (map_to_list (markers mv)) (leaflet_of mv) in
  fold_left upsertIncidentMarker items (mk_map_view lf ∅ (myMarker mv)).

(** [function updateMyMarkerOnMap()] on a map that exists: with a
    position, create [myMarker] the first time, move it afterwards. *)
Definition updateMyMarkerOnMap (mv : map_view) (pos : option position) : map_view :=
  match pos with
  | None => mv
  | Some p =>
      match myMarker mv with
      | None =>
          let '(h, lf) := new_marker (lat p, lng p) (leaflet_of mv) in
          mk_map_view (bind_popup h (lit "You are here") (add_to h lf)) (markers mv) (Some h)
      | Some h => mk_map_view (set_lat_lng h (lat p, lng p) (leaflet_of mv)) (markers mv) (Some h)
      end
  end.

(** The last lines of the centre-me listener on a map and a position:
    [map.setView([lat, lng], 16); if (myMarker) myMarker.openPopup();].
    Leaflet's [openPopup] may also pan the map (its [autoPan] option) by
    the pixels the rendered popup needs to fit in the map's container;
    the model has no pixel geometry, so [view] keeps the centre and zoom
    that [setView] gives. *)
Definition centerOn (mv : map_view) (p : position) : map_view :=
  let lf := set_view (lat p, lng p) 16 (leaflet_of mv) in
  mk_map_view (match myMarker mv with Some h => open_popup h lf | None => lf end)
              (markers mv) (myMarker mv).
End MapView.

(** The records that get a marker: those with a location. *)
Definition located (items : list item) : list item :=
  List.filter (fun it => match location it with Some _ => true | None => false end) items.

(** ** The handle invariant *)

(** Every handle the page holds names a created marker; handles are
    below the next one; [myMarker] is not an incident marker and is on
    the map. *)
Definition handles_ok (mv : map_view) : Prop :=
  (forall h, is_Some (layers (leaflet_of mv) !! h) -> (h < next_handle (leaflet_of mv))%positive) /\
  (forall h, h ∈ on_map (leaflet_of mv) -> is_Some (layers (leaflet_of mv) !! h)) /\
  (forall k h, markers mv !! k = Some h -> is_Some (layers (leaflet_of mv) !! h)) /\
  (forall h, myMarker mv = Some h -> is_Some (layers (leaflet_of mv) !! h)) /\
  (forall k h, markers mv !! k = Some h -> myMarker mv <> Some h) /\
  (forall h, myMarker mv = Some h -> h ∈ on_map (leaflet_of mv)).

(** The map of a page that has not drawn anything yet. *)
(** The OpenStreetMap tiles of [initMap]. *)
Definition osm_tiles : jstr := lit "https://{s}.tile.openstreetmap.org/{z}/{x}/{y}.png".

(** [map = L.map("map").setView([-26.2041, 28.0473], 12)] and the tile
    layer of [initMap]: no marker yet, the view on Johannesburg. *)
Definition init_map_view : map_view :=
  mk_map_view (add_tile_layer osm_tiles
                 (set_view ((-262041) # 10000, 280473 # 10000)%Q 12
                    (mk_leaflet ∅ ∅ 1 ((0, 0)%Q, 0) None [])))
              ∅ None.

Lemma init_map_view_ok : handles_ok init_map_view.
Proof. unfold handles_ok; simpl; split_and!; intros *; rewrite ?lookup_empty; set_solver. Qed.

(** The handle of the user's marker, as a set. *)
Definition my_handle (o : option positive) : gset positive :=
  match o with Some h => {[h]} | None => ∅ end.

(** Nothing else is on the map: the markers on the map are exactly the
    markers of the Map and the user's marker. *)
Definition on_map_exact (mv : map_view) : Prop :=
  on_map (leaflet_of mv) ≡ map_img (markers mv) ∪ my_handle (myMarker mv).

Lemma init_map_view_exact : on_map_exact init_map_view.
Proof. unfold on_map_exact. simpl. rewrite map_img_empty. set_solver. Qed.

(** The marker created for a located record: on the map, at the
    record's location, with its popup. *)
Definition placed `{Platform} (mv : map_view) (it : item) : Prop :=
  forall p, location it = Some p ->
  exists h, markers mv !! id it = Some h /\ h ∈ on_map (leaflet_of mv) /\
            layers (leaflet_of mv) !! h = Some (mk_lmarker (lat p, lng p) (Some (popupHtml it p))).

Section Upsert.
Context `{Platform}.

(** A fresh id gets the next handle, and everything else stays. *)
Lemma upsert_fresh (mv : map_view) (it : item) (p : position) :
  location it = Some p -> markers mv !! id it = None ->
  let h := next_handle (leaflet_of mv) in
  upsertIncidentMarker mv it =
  mk_map_view (mk_leaflet (<[h := mk_lmarker (lat p, lng p) (Some (popupHtml it p))]>
                              (layers (leaflet_of mv)))
                          ({[h]} ∪ on_map (leaflet_of mv)) (Pos.succ h)
                          (view (leaflet_of mv)) (popup_open (leaflet_of mv)) (tiles (leaflet_of mv)))
              (<[id it := h]> (markers mv)) (myMarker mv).
Proof.
  intros Hl Hm h. unfold upsertIncidentMarker. rewrite Hl, Hm. simpl.
  unfold bind_popup, add_to. simpl. by rewrite alter_insert_eq.
Qed.

Lemma upsert_handles_ok (mv : map_view) (it : item) :
  handles_ok mv -> handles_ok (upsertIncidentMarker mv it).
Proof.
  intros (Hlt & Hon & Hmk & Hmy & Hdis & Hmyon).
  destruct (location it) as [p|] eqn:Hl; [|by unfold upsertIncidentMarker; rewrite Hl; split_and!].
  destruct (markers mv !! id it) as [h|] eqn:Hm.
  - unfold upsertIncidentMarker. rewrite Hl, Hm.
    unfold handles_ok, bind_popup, set_lat_lng; simpl.
    split_and!; intros *; rewrite ?lookup_alter_is_Some; eauto.
  - rewrite (upsert_fresh mv it p Hl Hm). set (n := next_handle (leaflet_of mv)).
    unfold handles_ok; simpl. split_and!.
    + intros h. rewrite lookup_insert_is_Some. intros [<-|[_ Hs]]; [lia|].
      specialize (Hlt h Hs). lia.
    + intros h. rewrite elem_of_union, elem_of_singleton, lookup_insert_is_Some.
      intros [->|Hh]; [by left|]. destruct (decide (n = h)); [by left|right; eauto].
    + intros k h. rewrite lookup_insert_Some, lookup_insert_is_Some.
      intros [[_ <-]|[_ Hk]]; [by left|]. destruct (decide (n = h)); [by left|right; eauto].
    + intros h Hh. rewrite lookup_insert_is_Some. destruct (decide (n = h)); [by left|right; eauto].
    + intros k h. rewrite lookup_insert_Some. intros [[_ <-]|[_ Hk]]; [|eauto].
      intros Hmy'. destruct (Hmy n Hmy') as [? Hs]. specialize (Hlt n (ltac:(eauto))). lia.
    + intros h Hh. apply elem_of_union_r. auto.
Qed.
End Upsert.

Section Rebuild.
Context `{Platform}.

(** Removing the markers of a Map takes exactly their handles off the
    map. *)
Lemma remove_all_spec (m : gmap jstr positive) (lf : leaflet) :
  layers (remove_all (map_to_list m) lf) = layers lf /\
  next_handle (remove_all (map_to_list m) lf) = next_handle lf /\
  on_map (remove_all (map_to_list m) lf) ≡ on_map lf ∖ map_img m.
Proof.
  assert (Hgen : forall ms lf, layers (remove_all ms lf) = layers lf /\
    next_handle (remove_all ms lf) = next_handle lf /\
    on_map (remove_all ms lf) ≡ on_map lf ∖ list_to_set ms.*2).
  { induction ms as [|[k h] ms IH]; intros lf'; simpl; [split_and!; [done|done|set_solver]|].
    destruct (IH (remove_layer h lf')) as (-> & -> & ->). simpl.
    split_and!; [done|done|set_solver]. }
  destruct (Hgen (map_to_list m) lf) as (-> & -> & ->). split_and!; [done|done|].
  intros x. rewrite !elem_of_difference, elem_of_list_to_set, elem_of_map_img.
  setoid_rewrite list_elem_of_fmap.
  split; intros [? Hx]; split; auto; intros Hy; apply Hx.
  - destruct Hy as [k ?]. exists (k, x). by rewrite elem_of_map_to_list.
  - destruct Hy as [[k y] [-> Hin]]. exists k. by apply elem_of_map_to_list.
Qed.

(** What [upsertIncidentMarker] adds to the map is what it adds to the
    Map. *)
Lemma upsert_on_map (base : gset positive) (mv : map_view) (it : item) :
  on_map (leaflet_of mv) ≡ base ∪ map_img (markers mv) ->
  on_map (leaflet_of (upsertIncidentMarker mv it)) ≡ base ∪ map_img (markers (upsertIncidentMarker mv it)).
Proof.
  intros Hon. destruct (location it) as [p|] eqn:Hl;
    [|by unfold upsertIncidentMarker; rewrite Hl].
  destruct (markers mv !! id it) as [h|] eqn:Hm.
  - unfold upsertIncidentMarker. by rewrite Hl, Hm.
  - rewrite (upsert_fresh mv it p Hl Hm). simpl.
    rewrite map_img_insert_notin by done. set_solver.
Qed.

(** Handles of the Map are kept or new. *)
Lemma upsert_markers_new (mv : map_view) (it : item) (k : jstr) (h : positive) :
  markers (upsertIncidentMarker mv it) !! k = Some h ->
  markers mv !! k = Some h \/ (next_handle (leaflet_of mv) <= h)%positive.
Proof.
  destruct (location it) as [p|] eqn:Hl; [|by unfold upsertIncidentMarker; rewrite Hl; auto].
  destruct (markers mv !! id it) as [h'|] eqn:Hm.
  - unfold upsertIncidentMarker. rewrite Hl, Hm. auto.
  - rewrite (upsert_fresh mv it p Hl Hm). simpl.
    rewrite lookup_insert_Some. intros [[_ <-]|[_ ?]]; [right; lia|auto].
Qed.

Lemma upsert_next (mv : map_view) (it : item) :
  (next_handle (leaflet_of mv) <= next_handle (leaflet_of (upsertIncidentMarker mv it)))%positive.
Proof.
  destruct (location it) as [p|] eqn:Hl; [|by unfold upsertIncidentMarker; rewrite Hl].
  destruct (markers mv !! id it) as [h'|] eqn:Hm.
  - unfold upsertIncidentMarker. rewrite Hl, Hm. simpl. lia.
  - rewrite (upsert_fresh mv it p Hl Hm). simpl. lia.
Qed.

(** An upsert touches the Map at the record's id only. *)
Lemma upsert_lookup_ne (mv : map_view) (it : item) (k : jstr) :
  id it <> k -> markers (upsertIncidentMarker mv it) !! k = markers mv !! k.
Proof.
  intros Hne. unfold upsertIncidentMarker.
  destruct (location it) as [p|]; [|done]. destruct (markers mv !! id it); [done|].
  simpl. by rewrite lookup_insert_ne.
Qed.

Lemma upsert_dom (mv : map_view) (it : item) :
  dom (markers (upsertIncidentMarker mv it)) ≡
  dom (markers mv) ∪ (match location it with Some _ => {[id it]} | None => ∅ end).
Proof.
  unfold upsertIncidentMarker. destruct (location it) as [p|]; [|set_solver].
  destruct (markers mv !! id it) eqn:Hm; simpl.
  - apply elem_of_dom_2 in Hm. set_solver.
  - rewrite dom_insert. set_solver.
Qed.

(** A record placed stays placed when another id is inserted; a fresh
    id is placed by its upsert. *)
Lemma upsert_placed_other (mv : map_view) (it it' : item) :
  handles_ok mv -> markers mv !! id it = None -> placed mv it' ->
  placed (upsertIncidentMarker mv it) it'.
Proof.
  intros Hok Hm Hp. destruct (location it) as [p|] eqn:Hl;
    [|by unfold upsertIncidentMarker; rewrite Hl].
  rewrite (upsert_fresh mv it p Hl Hm). intros q Hq.
  destruct (Hp q Hq) as (h & Hk & Hon & Hly). destruct Hok as [Hlt _].
  assert (h < next_handle (leaflet_of mv))%positive by (apply Hlt; eauto).
  exists h. simpl. rewrite lookup_insert_ne by congruence.
  rewrite lookup_insert_ne by lia. split_and!; [done|set_solver|done].
Qed.

Lemma upsert_placed_self (mv : map_view) (it : item) :
  markers mv !! id it = None -> placed (upsertIncidentMarker mv it) it.
Proof.
  intros Hm q Hq. rewrite (upsert_fresh mv it q Hq Hm). simpl.
  eexists. rewrite !lookup_insert_eq. split_and!; [done|set_solver|done].
Qed.

(** The loop of [rebuildMarkers] from a Map whose ids are not those of
    the records: every record is placed, and what was placed stays. *)
Lemma upserts_placed (l : list item) (mv : map_view) :
  handles_ok mv -> NoDup (map id (located l)) ->
  (forall it, In it (located l) -> markers mv !! id it = None) ->
  (forall it', placed mv it' -> placed (fold_left upsertIncidentMarker l mv) it') /\
  (forall it, In it l -> placed (fold_left upsertIncidentMarker l mv) it).
Proof.
  revert mv. induction l as [|it l IH]; intros mv Hok Hnd Hfresh; simpl; [split; [done|done]|].
  assert (Hrest : forall it', In it' (located l) -> markers (upsertIncidentMarker mv it) !! id it' = None).
  { intros it' Hin. destruct (location it) eqn:Hl.
    - rewrite upsert_lookup_ne; [apply Hfresh|].
      + unfold located. simpl. rewrite Hl. by right.
      + unfold located in Hnd. simpl in Hnd. rewrite Hl in Hnd. inversion Hnd as [|? ? Hni].
        intros Heq. apply Hni. rewrite Heq. apply list_elem_of_In, in_map, Hin.
    - unfold upsertIncidentMarker. rewrite Hl. apply Hfresh. unfold located. simpl. by rewrite Hl. }
  assert (Hnd' : NoDup (map id (located l))).
  { unfold located in *. simpl in Hnd. destruct (location it); [by inversion Hnd|done]. }
  destruct (IH (upsertIncidentMarker mv it) (upsert_handles_ok mv it Hok) Hnd' Hrest) as [IHo IHi].
  split.
  - intros it' Hp. apply IHo. destruct (location it) as [p|] eqn:Hl;
      [|by unfold upsertIncidentMarker; rewrite Hl].
    apply upsert_placed_other; [done| |done]. apply Hfresh. unfold located. simpl. rewrite Hl. by left.
  - intros it' [<-|Hin]; [|by apply IHi]. apply IHo.
    destruct (location it) as [p|] eqn:Hl; [|by intros q Hq; congruence].
    apply upsert_placed_self. apply Hfresh. unfold located. simpl. rewrite Hl. by left.
Qed.
End Rebuild.

Section RebuildTheorems.
Context `{Platform}.

(** The state [rebuildMarkers] starts its loop from. *)
Lemma rebuild_start_ok (mv : map_view) :
  handles_ok mv ->
  handles_ok (mk_map_view (remove_all (map_to_list (markers mv)) (leaflet_of mv)) ∅ (myMarker mv)).
Proof.
  destruct (remove_all_spec (markers mv) (leaflet_of mv)) as (Hl & Hn & Ho).
  intros (Hlt & Hon & _ & Hmy & Hdis & Hmyon). unfold handles_ok. simpl. rewrite Hl, Hn.
  split_and!; [done| |by intros k h; rewrite lookup_empty|done|by intros k h; rewrite lookup_empty|].
  - intros h. rewrite Ho, elem_of_difference. intros [? _]. auto.
  - intros h Hh. rewrite Ho, elem_of_difference. split; [auto|].
    intros (k & Hk)%elem_of_map_img. exact (Hdis k h Hk Hh).
Qed.

Lemma upserts_dom (l : list item) (mv : map_view) :
  dom (markers (fold_left upsertIncidentMarker l mv)) ≡ dom (markers mv) ∪ list_to_set (map id (located l)).
Proof.
  revert mv. induction l as [|it l IH]; intros mv; simpl; [set_solver|].
  rewrite IH, upsert_dom. unfold located. simpl. destruct (location it); simpl; set_solver.
Qed.

Lemma upserts_on_map (base : gset positive) (l : list item) (mv : map_view) :
  on_map (leaflet_of mv) ≡ base ∪ map_img (markers mv) ->
  on_map (leaflet_of (fold_left upsertIncidentMarker l mv)) ≡
  base ∪ map_img (markers (fold_left upsertIncidentMarker l mv)).
Proof.
  intros Hmv. apply (fold_left_invariant (fun mv => on_map (leaflet_of mv) ≡ base ∪ map_img (markers mv)));
    [done|]. intros; by apply upsert_on_map.
Qed.

(** Every handle of the Map after the loop is new or was there. *)
Lemma upserts_markers_new (l : list item) (mv : map_view) (k : jstr) (h : positive) :
  markers (fold_left upsertIncidentMarker l mv) !! k = Some h ->
  markers mv !! k = Some h \/ (next_handle (leaflet_of mv) <= h)%positive.
Proof.
  revert mv. induction l as [|it l IH]; intros mv; simpl; [auto|].
  intros [Hk|Hle]%IH; [|pose proof (upsert_next mv it); right; lia].
  destruct (upsert_markers_new mv it k h Hk); auto.
Qed.

(** The rebuild keeps the handle invariant. *)
Lemma rebuild_handles_ok (mv : map_view) (items : list item) :
  handles_ok mv -> handles_ok (rebuildMarkers mv items).
Proof.
  intros Hok. unfold rebuildMarkers. apply fold_left_invariant; [by apply rebuild_start_ok|].
  intros; by apply upsert_handles_ok.
Qed.

Lemma rebuild_dom (mv : map_view) (items : list item) :
  dom (markers (rebuildMarkers mv items)) = list_to_set (map id (located items)).
Proof.
  apply leibniz_equiv. unfold rebuildMarkers. rewrite upserts_dom. simpl. set_solver.
Qed.

(** After a rebuild the Map holds exactly the ids of the stored records
    that have a location. *)
Theorem rebuildMarkers_ids (mv : map_view) (items : list item) (k : jstr) :
  is_Some (markers (rebuildMarkers mv items) !! k) <->
  exists it, In it items /\ is_Some (location it) /\ id it = k.
Proof.
  rewrite <- elem_of_dom, rebuild_dom, elem_of_list_to_set, list_elem_of_fmap.
  setoid_rewrite list_elem_of_In. unfold located. setoid_rewrite filter_In.
  split; intros (it & Hit & Hin & Hl); exists it; repeat split; auto;
    destruct (location it); try done; by eauto.
Qed.

(** C12. Marker sync: with unique ids, every record with a location has its
    own marker on the map, at its location, showing its popup. *)
Theorem rebuildMarkers_sync (mv : map_view) (items : list item) (it : item) :
  handles_ok mv -> NoDup (map id (located items)) -> In it items ->
  placed (rebuildMarkers mv items) it.
Proof.
  intros Hok Hnd Hin. unfold rebuildMarkers.
  apply (upserts_placed items _ (rebuild_start_ok mv Hok) Hnd); [|done].
  intros it' _. apply lookup_empty.
Qed.

(** With unique ids there are as many incident markers as records with
    a location. *)
Theorem rebuildMarkers_count (mv : map_view) (items : list item) :
  NoDup (map id (located items)) -> size (markers (rebuildMarkers mv items)) = length (located items).
Proof.
  intros Hnd. rewrite <- size_dom, rebuild_dom, size_list_to_set by done.
  apply length_map.
Qed.

(** What is on the map after a rebuild: the layers that were not
    incident markers, and the new incident markers. *)
Lemma rebuild_on_map (mv : map_view) (items : list item) :
  on_map (leaflet_of (rebuildMarkers mv items)) ≡
  (on_map (leaflet_of mv) ∖ map_img (markers mv)) ∪ map_img (markers (rebuildMarkers mv items)).
Proof.
  unfold rebuildMarkers. apply upserts_on_map. simpl.
  destruct (remove_all_spec (markers mv) (leaflet_of mv)) as (_ & _ & ->).
  rewrite map_img_empty. set_solver.
Qed.

(** C13. No stale marker: no marker of the Map before the rebuild is left on
    the map. *)
Theorem rebuildMarkers_no_stale (mv : map_view) (items : list item) (k : jstr) (h : positive) :
  handles_ok mv -> markers mv !! k = Some h -> h ∉ on_map (leaflet_of (rebuildMarkers mv items)).
Proof.
  intros (Hlt & _ & Hmk & _) Hk. rewrite rebuild_on_map, elem_of_union, elem_of_difference.
  assert (Hold : h ∈ (map_img (markers mv) : gset positive)) by (by eapply elem_of_map_img_2).
  intros [[_ []]|(k' & Hk')%elem_of_map_img]; [done|].
  destruct (remove_all_spec (markers mv) (leaflet_of mv)) as (_ & Hn & _).
  unfold rebuildMarkers in Hk'. apply upserts_markers_new in Hk' as [Hk'|Hle];
    [by simpl in Hk'; rewrite lookup_empty in Hk'|]. simpl in Hle. rewrite Hn in Hle.
  specialize (Hlt h (Hmk k h Hk)). lia.
Qed.

(** A rebuild does not touch the user's marker. *)
Lemma rebuild_myMarker_eq (mv : map_view) (items : list item) :
  myMarker (rebuildMarkers mv items) = myMarker mv.
Proof.
  unfold rebuildMarkers. apply (fold_left_invariant (fun mv' => myMarker mv' = myMarker mv)); [done|].
  intros mv' it _ Hm. unfold upsertIncidentMarker.
  destruct (location it); [|done]. destruct (markers mv' !! id it); [done|]. by destruct new_marker.
Qed.

(** A rebuild from an exact map gives an exact map: the old incident
    markers leave the map, the new ones are on it. *)
Lemma rebuild_exact (mv : map_view) (items : list item) :
  handles_ok mv -> on_map_exact mv -> on_map_exact (rebuildMarkers mv items).
Proof.
  intros (_ & _ & _ & _ & Hdis & _) Hex. unfold on_map_exact in *.
  rewrite rebuild_on_map, rebuild_myMarker_eq, Hex. intros x.
  rewrite !elem_of_union, elem_of_difference, !elem_of_union. split; [naive_solver|].
  intros [Hx|Hx]; [by right|left]. split; [by right|].
  destruct (myMarker mv) as [h|]; [|set_solver]. simpl in Hx. apply elem_of_singleton in Hx as ->.
  intros (k & Hk)%elem_of_map_img. exact (Hdis k h Hk eq_refl).
Qed.

(** The user's marker is not an incident marker: a rebuild keeps it,
    and keeps it on the map. *)
Theorem rebuildMarkers_myMarker (mv : map_view) (items : list item) (h : positive) :
  handles_ok mv -> myMarker mv = Some h ->
  myMarker (rebuildMarkers mv items) = Some h /\ h ∈ on_map (leaflet_of (rebuildMarkers mv items)).
Proof.
  intros (_ & _ & _ & _ & Hdis & Hmyon) Hmy. split.
  - unfold rebuildMarkers. apply fold_left_invariant; [done|].
    intros mv' it _ Hm. unfold upsertIncidentMarker.
    destruct (location it); [|done]. destruct (markers mv' !! id it); [done|]. by destruct new_marker.
  - rewrite rebuild_on_map. apply elem_of_union_l, elem_of_difference. split; [auto|].
    intros (k & Hk)%elem_of_map_img. exact (Hdis k h Hk Hmy).
Qed.
End RebuildTheorems.

Section MyMarker.
Context `{Platform}.

(** [L.marker(p).addTo(map).bindPopup(html)]: a new marker with its
    popup, on the map, under the next handle. *)
Lemma new_marker_added (p : Q * Q) (html : jstr) (lf lf' : leaflet) (h : positive) :
  new_marker p lf = (h, lf') ->
  h = next_handle lf /\
  bind_popup h html (add_to h lf') =
  mk_leaflet (<[next_handle lf := mk_lmarker p (Some html)]> (layers lf))
             ({[next_handle lf]} ∪ on_map lf) (Pos.succ (next_handle lf)) (view lf) (popup_open lf) (tiles lf).
Proof.
  intros [= <- <-]. split; [done|]. unfold add_to, bind_popup. simpl. by rewrite alter_insert_eq.
Qed.

Lemma updateMyMarker_handles_ok (mv : map_view) (pos : option position) :
  handles_ok mv -> handles_ok (updateMyMarkerOnMap mv pos).
Proof.
  intros (Hlt & Hon & Hmk & Hmy & Hdis & Hmyon). destruct pos as [p|]; [|by split_and!].
  unfold updateMyMarkerOnMap. destruct (myMarker mv) as [h|] eqn:Hm.
  - unfold handles_ok, set_lat_lng; simpl.
    split_and!; intros *; rewrite ?lookup_alter_is_Some; eauto.
  - destruct (new_marker _ _) as [h lf] eqn:Hnew.
    destruct (new_marker_added _ (lit "You are here") _ _ _ Hnew) as [-> ->].
    set (n := next_handle (leaflet_of mv)).
    unfold handles_ok; simpl. split_and!.
    + intros h. rewrite lookup_insert_is_Some. intros [<-|[_ Hs]]; [lia|]. specialize (Hlt h Hs). lia.
    + intros h. rewrite elem_of_union, elem_of_singleton, lookup_insert_is_Some.
      intros [->|Hh]; [by left|]. destruct (decide (n = h)); [by left|right; eauto].
    + intros k h Hk. rewrite lookup_insert_is_Some. destruct (decide (n = h)); [by left|right; eauto].
    + intros h [= <-]. rewrite lookup_insert_is_Some. by left.
    + intros k h Hk [= <-]. specialize (Hlt n (Hmk k n Hk)). lia.
    + intros h [= <-]. set_solver.
Qed.

(** C32. [updateMyMarkerOnMap] with a position: the user's marker exists
    afterwards, on the map, at that position; a marker that existed is
    moved, not replaced; the incident markers are not touched. *)
Theorem updateMyMarkerOnMap_spec (mv : map_view) (p : position) :
  handles_ok mv ->
  markers (updateMyMarkerOnMap mv (Some p)) = markers mv /\
  exists h, myMarker (updateMyMarkerOnMap mv (Some p)) = Some h /\
            (forall h0, myMarker mv = Some h0 -> h0 = h) /\
            h ∈ on_map (leaflet_of (updateMyMarkerOnMap mv (Some p))) /\
            lm_pos <$> layers (leaflet_of (updateMyMarkerOnMap mv (Some p))) !! h = Some (lat p, lng p).
Proof.
  intros Hok. pose proof (updateMyMarker_handles_ok mv (Some p) Hok) as (_ & _ & _ & _ & _ & Hon).
  revert Hon. destruct Hok as (_ & _ & _ & Hmy & _).
  unfold updateMyMarkerOnMap. destruct (myMarker mv) as [h|] eqn:Hm.
  - intros Hon. split; [done|]. exists h. split_and!; auto; [by intros ? [= ->]|].
    destruct (Hmy h eq_refl) as [m Hh]. simpl. unfold set_lat_lng. simpl. by rewrite lookup_alter_eq, Hh.
  - destruct (new_marker _ _) as [h lf] eqn:Hnew.
    destruct (new_marker_added _ (lit "You are here") _ _ _ Hnew) as [-> ->]. intros Hon.
    split; [done|]. eexists. split_and!; [done|done|auto|]. simpl. by rewrite lookup_insert_eq.
Qed.

(** Placing the user's marker keeps the map exact. *)
Lemma updateMyMarker_exact (mv : map_view) (pos : option position) :
  on_map_exact mv -> on_map_exact (updateMyMarkerOnMap mv pos).
Proof.
  unfold on_map_exact, updateMyMarkerOnMap. intros Hex. destruct pos as [p|]; [|done].
  destruct (myMarker mv) as [h|] eqn:Hm; [done|].
  destruct (new_marker _ _) as [h lf] eqn:Hnew.
  destruct (new_marker_added _ (lit "You are here") _ _ _ Hnew) as [-> ->]. simpl.
  set_solver.
Qed.

Lemma updateMyMarker_markers (mv : map_view) (pos : option position) :
  markers (updateMyMarkerOnMap mv pos) = markers mv.
Proof.
  unfold updateMyMarkerOnMap. destruct pos; [|done].
  destruct (myMarker mv); [done|]. by destruct (new_marker _ _).
Qed.

(** The user's marker leaves the incident markers where they are. *)
Lemma updateMyMarker_placed (mv : map_view) (pos : option position) (it : item) :
  handles_ok mv -> placed mv it -> placed (updateMyMarkerOnMap mv pos) it.
Proof.
  intros (Hlt & _ & Hmk & _ & Hdis & _) Hp q Hq. destruct (Hp q Hq) as (h & Hk & Hon & Hly).
  destruct pos as [p|]; [|by exists h]. unfold updateMyMarkerOnMap.
  destruct (myMarker mv) as [h0|] eqn:Hm.
  - exists h. simpl. split_and!; [done|done|]. unfold set_lat_lng. simpl.
    rewrite lookup_alter_ne; [done|]. intros ->. exact (Hdis _ _ Hk eq_refl).
  - destruct (new_marker _ _) as [n lf] eqn:Hnew.
    destruct (new_marker_added _ (lit "You are here") _ _ _ Hnew) as [-> ->].
    exists h. simpl. split_and!; [done|set_solver|].
    assert (h < next_handle (leaflet_of mv))%positive by (apply Hlt; eauto).
    rewrite lookup_insert_ne by lia. done.
Qed.
End MyMarker.

(** ** Examples *)

(** Two located records that share an id (which the generated ids rule
    out): the sample panic record, and a copy of it moved to (-26, 28). *)
Definition dup_panic : item :=
  mk_item (id sample_panic) PANIC (lit "Second") [] (Some (mk_position (-26) 28 5))
          (createdAt sample_panic) None.

(** The map after the first position: the user's marker only. *)
Definition me_once : map_view := updateMyMarkerOnMap init_map_view (Some sample_position).

(** Centring changes the view and the open popup only. *)
Lemma centerOn_layers (mv : map_view) (p : position) :
  layers (leaflet_of (centerOn mv p)) = layers (leaflet_of mv) /\
  on_map (leaflet_of (centerOn mv p)) = on_map (leaflet_of mv) /\
  next_handle (leaflet_of (centerOn mv p)) = next_handle (leaflet_of mv) /\
  markers (centerOn mv p) = markers mv /\ myMarker (centerOn mv p) = myMarker mv.
Proof. unfold centerOn. by destruct (myMarker mv). Qed.

Lemma centerOn_handles_ok (mv : map_view) (p : position) : handles_ok mv -> handles_ok (centerOn mv p).
Proof. unfold handles_ok. destruct (centerOn_layers mv p) as (-> & -> & -> & -> & ->). done. Qed.

Lemma centerOn_exact (mv : map_view) (p : position) : on_map_exact mv -> on_map_exact (centerOn mv p).
Proof. unfold on_map_exact. destruct (centerOn_layers mv p) as (_ & -> & _ & -> & ->). done. Qed.

Lemma centerOn_placed `{Platform} (mv : map_view) (p : position) (it : item) :
  placed mv it -> placed (centerOn mv p) it.
Proof. unfold placed. destruct (centerOn_layers mv p) as (-> & -> & _ & -> & _). done. Qed.

(** C18. The popup's markup does not depend on the record's texts: two
    records at the same position give popups with the same [<], [>] and
    quotes, so no type, description or time of a record adds markup to
    the map. *)
Theorem popupHtml_markup `{Platform} (it it' : item) (p : position) :
  List.filter html_special (popupHtml it p) = List.filter html_special (popupHtml it' p).
Proof. unfold popupHtml. rewrite !List.filter_app, !filter_special_escape. reflexivity. Qed.

Section Examples.
#[local] Existing Instance sample_platform.

(** Scenario B's map: a rebuild from an empty map with the panic record
    and the report places one marker, at the panic record's location. *)
Lemma rebuildMarkers_sync_witness :
  handles_ok init_map_view /\ NoDup (map id (located [sample_panic; sample_report])) /\
  placed (rebuildMarkers init_map_view [sample_panic; sample_report]) sample_panic.
Proof.
  split_and!; [apply init_map_view_ok|vm_compute; apply NoDup_singleton|].
  apply rebuildMarkers_sync; [apply init_map_view_ok|vm_compute; apply NoDup_singleton|simpl; auto].
Defined.

(** Duplicate ids: the two records get one marker, at the later
    record's location and with its popup. *)
Example rebuildMarkers_duplicate_id :
  size (markers (rebuildMarkers init_map_view [sample_panic; dup_panic])) = 1%nat /\
  (layers (leaflet_of (rebuildMarkers init_map_view [sample_panic; dup_panic])) !! 1%positive) =
    Some (mk_lmarker (-26 # 1, 28 # 1)%Q (Some (popupHtml dup_panic (mk_position (-26) 28 5)))).
Proof. split; vm_compute; reflexivity. Qed.

(** The map after drawing the panic record: its marker has handle 1. *)
Lemma rebuildMarkers_count_witness :
  NoDup (map id (located [sample_panic; sample_report])) /\
  size (markers (rebuildMarkers init_map_view [sample_panic; sample_report])) = 1%nat.
Proof.
  split; [vm_compute; apply NoDup_singleton|].
  rewrite (rebuildMarkers_count init_map_view [sample_panic; sample_report]); [reflexivity|].
  vm_compute. apply NoDup_singleton.
Defined.

(** Scenario C on the map: after the panic record is deleted, its marker
    (handle 1) is off the map. *)
Lemma rebuildMarkers_no_stale_witness :
  markers (rebuildMarkers init_map_view [sample_panic]) !! id sample_panic = Some 1%positive /\
  1%positive ∉ on_map (leaflet_of (rebuildMarkers (rebuildMarkers init_map_view [sample_panic]) [])).
Proof.
  split; [vm_compute; reflexivity|].
  apply (rebuildMarkers_no_stale _ [] (id sample_panic)).
  - apply rebuild_handles_ok, init_map_view_ok.
  - vm_compute. reflexivity.
Defined.

(** The first position creates the user's marker, the second moves it. *)
Lemma updateMyMarkerOnMap_spec_witness :
  handles_ok me_once /\
  markers (updateMyMarkerOnMap me_once (Some (mk_position 1 2 3))) = markers me_once /\
  exists h, myMarker (updateMyMarkerOnMap me_once (Some (mk_position 1 2 3))) = Some h /\
    (forall h0, myMarker me_once = Some h0 -> h0 = h) /\
    h ∈ on_map (leaflet_of (updateMyMarkerOnMap me_once (Some (mk_position 1 2 3)))) /\
    lm_pos <$> layers (leaflet_of (updateMyMarkerOnMap me_once (Some (mk_position 1 2 3)))) !! h
      = Some (lat (mk_position 1 2 3), lng (mk_position 1 2 3)).
Proof.
  assert (Hok : handles_ok me_once) by apply updateMyMarker_handles_ok, init_map_view_ok.
  split; [exact Hok|]. apply (updateMyMarkerOnMap_spec me_once (mk_position 1 2 3) Hok).
Defined.

(** A rebuild after the user's marker exists keeps it on the map. *)
Lemma rebuildMarkers_myMarker_witness :
  myMarker me_once = Some 1%positive /\
  myMarker (rebuildMarkers me_once [sample_panic]) = Some 1%positive /\
  1%positive ∈ on_map (leaflet_of (rebuildMarkers me_once [sample_panic])).
Proof.
  split; [reflexivity|].
  apply rebuildMarkers_myMarker; [apply updateMyMarker_handles_ok, init_map_view_ok|reflexivity].
Defined.
End Examples.
