(* ===== verification/Feed.v ===== *)
(** * The feed projection

    [renderFeed] of [src/app.js] (lines 202-267): the filtered records
    become rows of markup, or a placeholder when none is left.  A row
    shows the kind badge, the type (or [Emergency] / [Incident]), the
    time, the description, the location text [locText] (coordinates by
    [Number.prototype.toFixed(5)] and the accuracy), the image, and the
    [data-copy] and [data-delete] buttons whose attributes the click
    handlers read back.

    The theorems: [toFixed] writes the rounded value with exactly the
    requested decimals; the buttons' attribute values decode to the
    location text and to the record's id; no text of a record but its
    image URL adds markup to the feed (the image URL does: a finding). *)

From S2P Require Import Prelude JsString Escape Json Item Platform Query.
From Stdlib Require Import Qabs Lqa.

Local Open Scope Z_scope.

(** ** [Number.prototype.toFixed] *)

(** Steps 10.b-d of [toFixed] (21.1.3.3): the digits of [n], padded with
    zeros to more than [f] digits, with a point before the last [f]. *)
Definition fixed_digits (n : Z) (f : nat) : jstr :=
  let m := nat_to_decimal n in
  match f with
  | O => m
  | _ =>
      let m' := if (length m <=? f)%nat then repeat 48 (S f - length m) ++ m else m in
      let k := (length m' - f)%nat in
      take k m' ++ [46] ++ drop k m'
  end.

Section ToFixed.
Context `{Platform}.

(** [x.toFixed(f)] for a finite [x]: the sign, then [String(|x|)] from
    [10^21] on, else the integer [n] nearest to [|x| * 10^f] (the larger
    one on a tie) written with [f] decimals. *)
Definition toFixed (x : Q) (f : nat) : jstr :=
  let a := Qabs x in
  (if Qle_bool 0 x then [] else [45])
  ++ (if Qle_bool (inject_Z (10 ^ 21)) a then number_toString a
      else fixed_digits (Qfloor (a * inject_Z (10 ^ Z.of_nat f) + (1 # 2))) f).
End ToFixed.

(** ** The rows *)

Section Rows.
Context `{Platform}.

(** [locText]: the coordinates to five decimals and the accuracy, or
    [No location]. *)
Definition locText (it : item) : jstr :=
  match location it with
  | Some p => toFixed (lat p) 5 ++ lit ", " ++ toFixed (lng p) 5 ++ lit " (" ++ [177]
              ++ Z_to_decimal (acc p) ++ lit "m)"
  | None => lit "No location"
  end.

(** [mapsLink]: the maps link of the location, or [#]. *)
Definition mapsLink (it : item) : jstr :=
  match location it with
  | Some p => coordsToMapsLink (lat p) (lng p)
  | None => lit "#"
  end.
End Rows.

Definition tagClass (it : item) : jstr :=
  match kind it with PANIC => lit "panic" | REPORT => lit "report" end.

Definition tagText (it : item) : jstr :=
  match kind it with PANIC => lit "PANIC ALERT" | REPORT => lit "REPORT" end.

(** [item.type || (item.kind === "PANIC" ? "Emergency" : "Incident")]. *)
Definition type_label (it : item) : jstr :=
  or_str (type it) (match kind it with PANIC => lit "Emergency" | REPORT => lit "Incident" end).

(** The image, when [item.imageDataUrl] is a non-empty string: its URL
    goes into the [src] attribute as it is. *)
Definition image_html (it : item) : jstr :=
  match imageDataUrl it with
  | Some ((_ :: _) as u) =>
      html "<img class=`thumb` src=`" ++ u ++ html "` alt=`Uploaded evidence image` />"
  | _ => []
  end.

(** The three emoji of the action buttons, in UTF-16. *)
Definition map_emoji : jstr := [55357; 56826; 65039].
Definition clipboard_emoji : jstr := [55357; 56523].
Definition bin_emoji : jstr := [55357; 56785; 65039].

Section Row.
Context `{Platform}.

(** The template of [filtered.map(item => ...)], character for
    character. *)
Definition feed_row (it : item) : jstr :=
  html "
      <div class=`feed-item`>
        <div class=`feed-head`>
          <div class=`feed-title`>
            <span class=`tag " ++ tagClass it ++ html "`>" ++ tagText it ++ html "</span>
            " ++ escapeHtml (type_label it) ++ html "
          </div>
          <div class=`feed-meta`>" ++ escapeHtml (niceTime (createdAt it)) ++ html "</div>
        </div>

        <div class=`feed-body`>
          <div><strong>Details:</strong> " ++ escapeHtml (or_str (description it) []) ++ html "</div>
          <div class=`tiny muted` style=`margin-top:6px;`><strong>Location:</strong> " ++ escapeHtml (locText it) ++ html "</div>
        </div>

        " ++ image_html it ++ html "

        <div class=`feed-actions`>
          <a class=`btn small` href=`" ++ mapsLink it ++ html "` target=`_blank` rel=`noopener`>" ++ map_emoji ++ html " Open in Maps</a>
          <button class=`btn small ghost` data-copy=`" ++ escapeHtml (locText it) ++ html "` type=`button`>" ++ clipboard_emoji ++ html " Copy Location</button>
          <button class=`btn small ghost` data-delete=`" ++ escapeHtml (id it) ++ html "` type=`button`>" ++ bin_emoji ++ html " Delete</button>
        </div>
      </div>
    ".

(** The placeholder of an empty feed. *)
Definition feed_placeholder : jstr :=
  html "<div class=`muted`>No items yet. Press PANIC or submit a report.</div>".

(** [feedEl.innerHTML] after [renderFeed], given the stored records, the
    search box's value and the category: the placeholder, or the rows
    joined with the empty string. *)
Definition renderFeed (items : list item) (search_value f : jstr) : jstr :=
  match filter_items items search_value f with
  | [] => feed_placeholder
  | filtered => mjoin (map feed_row filtered)
  end.
End Row.

(** A record with the same kind and location, and no text: what the
    markup of its row does not depend on. *)
Definition blank_item (it : item) : item := mk_item [] (kind it) [] [] (location it) [] None.

(** ** Properties of [toFixed] *)

Lemma decimal_value_zeros (k : nat) (m : jstr) : decimal_value (repeat 48 k ++ m) = decimal_value m.
Proof.
  unfold decimal_value. rewrite fold_left_app.
  replace (fold_left _ (repeat 48 k) 0) with 0; [done|].
  induction k as [|k IH]; simpl; [done|]. by rewrite Z.sub_diag.
Qed.

Lemma fixed_digits_spec (n : Z) (f : nat) :
  0 <= n -> (0 < f)%nat ->
  exists ip fp, fixed_digits n f = ip ++ [46] ++ fp /\ length fp = f /\ ip <> [] /\
    Forall (fun c => is_digit c = true) (ip ++ fp) /\ decimal_value (ip ++ fp) = n.
Proof.
  intros Hn Hf. unfold fixed_digits. destruct f as [|f']; [lia|]. set (f := S f').
  set (m := nat_to_decimal n).
  set (m' := if (length m <=? f)%nat then repeat 48 (S f - length m) ++ m else m).
  assert (Hm' : decimal_value m' = n /\ Forall (fun c => is_digit c = true) m' /\ (f < length m')%nat).
  { pose proof (nat_to_decimal_digits n Hn). unfold m'.
    destruct (Nat.leb_spec (length m) f).
    - rewrite decimal_value_zeros, length_app, repeat_length. split_and!; [by apply decimal_value_nat_to_decimal| |lia].
      apply Forall_app; split; [apply Forall_forall; intros c ->%list_elem_of_In%repeat_spec; reflexivity|done].
    - split_and!; [by apply decimal_value_nat_to_decimal|done|lia]. }
  destruct Hm' as (Hv & Hd & Hl).
  exists (take (length m' - f) m'), (drop (length m' - f) m'). rewrite take_drop.
  split_and!; [done|rewrite length_drop; lia| |done|done].
  intros Ht. apply (f_equal length) in Ht. rewrite length_take in Ht. simpl in Ht. lia.
Qed.

(** The integer [toFixed] writes is within half a unit of [|x| * 10^f]. *)
Lemma round_half_up_bound (a : Q) (p : Z) :
  (0 <= a)%Q -> 0 < p ->
  0 <= Qfloor (a * inject_Z p + (1 # 2)) /\
  (Qabs (inject_Z (Qfloor (a * inject_Z p + (1 # 2))) - a * inject_Z p) <= 1 # 2)%Q.
Proof.
  intros Ha Hp. set (n := Qfloor _).
  assert (Hp' : (inject_Z 0 < inject_Z p)%Q) by (rewrite <- Zlt_Qlt; done).
  change (inject_Z 0) with 0%Q in Hp'.
  pose proof (Qfloor_le (a * inject_Z p + (1 # 2))) as Hle.
  pose proof (Qlt_floor (a * inject_Z p + (1 # 2))) as Hlt. fold n in Hle, Hlt.
  rewrite inject_Z_plus in Hlt. change (inject_Z 1) with 1%Q in Hlt.
  assert (Hap : (0 <= a * inject_Z p)%Q) by (apply Qmult_le_0_compat; lra).
  split.
  - assert (Hn : (inject_Z 0 < inject_Z n + inject_Z 1)%Q) by (change (inject_Z 0) with 0%Q; change (inject_Z 1) with 1%Q; lra).
    rewrite <- inject_Z_plus, <- Zlt_Qlt in Hn. lia.
  - apply Qabs_Qle_condition. split; lra.
Qed.

(** C11. The rounding of [toFixed]: below [10^21], [x.toFixed(f)] with [f > 0]
    is the sign, a non-empty integer part, a point and exactly [f]
    digits, whose value is within half a unit of the last place of
    [|x|]. *)
Theorem toFixed_spec `{Platform} (x : Q) (f : nat) :
  (Qabs x < inject_Z (10 ^ 21))%Q -> (0 < f)%nat ->
  exists ip fp, toFixed x f = (if Qle_bool 0 x then [] else [45]) ++ ip ++ [46] ++ fp /\
    length fp = f /\ ip <> [] /\ Forall (fun c => is_digit c = true) (ip ++ fp) /\
    (Qabs (inject_Z (decimal_value (ip ++ fp)) - Qabs x * inject_Z (10 ^ Z.of_nat f)) <= 1 # 2)%Q.
Proof.
  intros Hx Hf. unfold toFixed.
  replace (Qle_bool (inject_Z (10 ^ 21)) (Qabs x)) with false
    by (symmetry; apply not_true_iff_false; rewrite Qle_bool_iff; lra).
  destruct (round_half_up_bound (Qabs x) (10 ^ Z.of_nat f)) as [Hn Hb];
    [apply Qabs_nonneg|apply Z.pow_pos_nonneg; lia|].
  destruct (fixed_digits_spec _ f Hn Hf) as (ip & fp & Heq & Hl & Hne & Hd & Hv).
  exists ip, fp. rewrite Heq, Hv. auto.
Qed.

(** An escaped text is an attribute value that ends at the next double
    quote and decodes to the text. *)
Lemma escaped_attr_value (s : jstr) : ~ In 34 (escapeHtml s) /\ html_decode (escapeHtml s) = s.
Proof.
  rewrite escapeHtml_flat_map. split; [|apply html_decode_escape_ref].
  intros Hin%escape_ref_safe. discriminate.
Qed.

Section FeedTheorems.
Context `{Platform}.

(** C10. The delete button of a row carries the record's id: its
    [data-delete] value holds no double quote, and the browser decodes
    it to the id ([getAttribute] returns the id). *)
Theorem feed_row_delete_attr (it : item) :
  exists v, occurs (html "data-delete=`" ++ v ++ html "`") (feed_row it) /\
            ~ In 34 v /\ html_decode v = id it.
Proof.
  exists (escapeHtml (id it)). split_and!.
  - unfold feed_row. find_infix.
  - apply escaped_attr_value.
  - apply escaped_attr_value.
Qed.

(** C28. The copy button carries the location text: the click handler copies
    [locText] verbatim. *)
Theorem feed_row_copy_attr (it : item) :
  exists v, occurs (html "data-copy=`" ++ v ++ html "`") (feed_row it) /\
            ~ In 34 v /\ html_decode v = locText it.
Proof.
  exists (escapeHtml (locText it)). split_and!.
  - unfold feed_row. find_infix.
  - apply escaped_attr_value.
  - apply escaped_attr_value.
Qed.

(** The markup of a row without image: the user's texts (id, type,
    description, time) add no [<], [>] or quote to it. *)
Lemma feed_row_markup (it : item) :
  image_html it = [] ->
  List.filter html_special (feed_row it) = List.filter html_special (feed_row (blank_item it)).
Proof.
  intros Himg. unfold feed_row. rewrite !List.filter_app, Himg, !filter_special_escape. reflexivity.
Qed.

(** An empty filter result shows the placeholder, and only then. *)
Theorem renderFeed_placeholder (items : list item) (s f : jstr) :
  renderFeed items s f = feed_placeholder <-> filter_items items s f = [].
Proof.
  unfold renderFeed. destruct (filter_items items s f) as [|it l]; [done|].
  split; [|done]. cbn [map]. rewrite mjoin_cons. unfold feed_row. eval_lits. cbn [app]. discriminate.
Qed.

(** C9. Markup independence: when no record carries an image, the [<], [>]
    and quotes of the feed are those of the placeholder, or of the rows
    of blank records of the same kinds and locations: no text a user
    typed can open a tag or leave an attribute value. *)
Theorem renderFeed_markup (items : list item) (s f : jstr) :
  Forall (fun it => image_html it = []) items ->
  List.filter html_special (renderFeed items s f) =
  match filter_items items s f with
  | [] => List.filter html_special feed_placeholder
  | l => mjoin (map (fun it => List.filter html_special (feed_row (blank_item it))) l)
  end.
Proof.
  intros Himg. unfold renderFeed.
  assert (Hl : Forall (fun it => image_html it = []) (filter_items items s f)).
  { unfold filter_items. apply List.Forall_forall. intros x Hx%filter_In.
    apply (proj1 (List.Forall_forall _ _) Himg). tauto. }
  destruct (filter_items items s f) as [|it l]; [done|].
  induction (it :: l) as [|x k IH]; [done|]. inversion Hl; subst.
  cbn [map]. rewrite !mjoin_cons, List.filter_app, feed_row_markup by done. f_equal. by apply IH.
Qed.

(** Scenario A of the specification: a report without location or image
    gives one row, tagged [REPORT], whose location reads [No location]. *)
Theorem scenario_A_feed :
  renderFeed [sample_report] [] (lit "ALL") = feed_row sample_report /\
  tagText sample_report = lit "REPORT" /\ locText sample_report = lit "No location" /\
  image_html sample_report = [].
Proof.
  split_and!; [|done..]. unfold renderFeed.
  replace (filter_items [sample_report] [] (lit "ALL")) with [sample_report] by reflexivity.
  cbn [map]. rewrite mjoin_cons. apply app_nil_r.
Qed.
End FeedTheorems.

(** Scenario B's location panel: [-26.1] and [28.0] to six decimals. *)
Example toFixed_scenario_B `{Platform} :
  toFixed (-261 # 10) 6 = lit "-26.100000" /\ toFixed 28 6 = lit "28.000000" /\
  toFixed (-261 # 10) 5 = lit "-26.10000".
Proof. split_and!; vm_compute; reflexivity. Qed.

(** Rounding on a tie takes the larger integer: [0.000005] is written
    [0.00001], and [-0.000005] is written [-0.00001]; a negative number
    that rounds to zero keeps its sign. *)
Example toFixed_ties `{Platform} :
  toFixed (5 # 1000000) 5 = lit "0.00001" /\ toFixed (-5 # 1000000) 5 = lit "-0.00001" /\
  toFixed (-1 # 1000000) 5 = lit "-0.00000".
Proof. split_and!; vm_compute; reflexivity. Qed.

Section ImageExample.
#[local] Existing Instance sample_platform.

(** Scenario B's latitude to six decimals: [-26.100000]. *)
Lemma toFixed_spec_witness :
  (Qabs (-261 # 10) < inject_Z (10 ^ 21))%Q /\ (0 < 6)%nat /\
  exists ip fp, toFixed (-261 # 10) 6 = (if Qle_bool 0 (-261 # 10) then [] else [45]) ++ ip ++ [46] ++ fp /\
    length fp = 6%nat /\ ip <> [] /\ Forall (fun c => is_digit c = true) (ip ++ fp) /\
    (Qabs (inject_Z (decimal_value (ip ++ fp)) - Qabs (-261 # 10) * inject_Z (10 ^ Z.of_nat 6)) <= 1 # 2)%Q.
Proof.
  split_and!; [vm_compute; reflexivity|lia|].
  apply toFixed_spec; [vm_compute; reflexivity|lia].
Defined.

(** The feed of the two sample records, neither with an image. *)
Lemma renderFeed_markup_witness :
  Forall (fun it => image_html it = []) [sample_panic; sample_report] /\
  List.filter html_special (renderFeed [sample_panic; sample_report] [] (lit "ALL")) =
  match filter_items [sample_panic; sample_report] [] (lit "ALL") with
  | [] => List.filter html_special feed_placeholder
  | l => mjoin (map (fun it => List.filter html_special (feed_row (blank_item it))) l)
  end.
Proof.
  split; [repeat constructor|]. apply renderFeed_markup. repeat constructor.
Defined.

End ImageExample.

(** The record with another image URL. *)
Definition with_image (it : item) (u : jstr) : item :=
  mk_item (id it) (kind it) (type it) (description it) (location it) (createdAt it) (Some u).

Lemma with_image_maps `{Platform} (it : item) (u : jstr) : mapsLink (with_image it u) = mapsLink it.
Proof. done. Qed.

(** C29. The image URL reaches the markup unescaped: two rows that differ
    only in their non-empty image URLs have different markup as soon as
    the URLs' [<], [>] and quotes differ, so a URL holding a double quote
    closes the [src] attribute and adds markup to the feed. *)
Theorem feed_row_image_injection `{Platform} (it : item) (u v : jstr) :
  u <> [] -> v <> [] -> List.filter html_special u <> List.filter html_special v ->
  List.filter html_special (feed_row (with_image it u)) <>
  List.filter html_special (feed_row (with_image it v)).
Proof.
  intros Hu Hv Hne Hr. apply Hne. destruct u as [|x u]; [done|]. destruct v as [|y v]; [done|].
  unfold feed_row in Hr. rewrite !(with_image_maps it) in Hr.
  cbn [image_html with_image imageDataUrl tagClass tagText kind] in Hr.
  rewrite !List.filter_app, !filter_special_escape, <- !app_assoc in Hr.
  repeat (apply app_inv_head in Hr). apply app_inv_tail in Hr. exact Hr.
Qed.

Section ImageWitness.
#[local] Existing Instance sample_platform.

(** A URL holding a double quote, against a plain one. *)
Lemma feed_row_image_injection_witness :
  html "x` onerror=`alert(1)" <> [] /\ lit "data:x" <> [] /\
  List.filter html_special (html "x` onerror=`alert(1)") <> List.filter html_special (lit "data:x") /\
  List.filter html_special (feed_row (with_image sample_panic (html "x` onerror=`alert(1)"))) <>
  List.filter html_special (feed_row (with_image sample_panic (lit "data:x"))).
Proof.
  split_and!; [vm_compute; discriminate..|].
  apply feed_row_image_injection; vm_compute; discriminate.
Defined.
End ImageWitness.
