(* ===== verification/App.v ===== *)
(** * The page: its state, [renderAll] and the handlers

    The module-level state of [src/app.js] ([myPosition], [map],
    [myMarker], [markers], lines 38-40) and the parts of the document the
    program writes and reads back (the feed, the location panel, the
    status line, the search box and category, the report form, the theme
    class) form the record [app].  The code runs as a sequence of
    handler segments: each event runs its handler up to its first
    [await]; a pending [await] is a [task] that the platform resolves
    later with an outcome, after any number of other events.  A segment
    is a computation in the state-and-exception monad [M]: the state a
    segment leaves is kept when it throws, as in JavaScript. *)

From S2P Require Import Prelude JsString Escape Json Item Store Query Platform MapView Feed.

Local Open Scope Z_scope.

(** ** The state *)

(** The location panel ([renderLocationBox]): the three texts, the
    maps link and whether it is [aria-disabled]. *)
Record panel := mk_panel {
  lat_text : jstr; lng_text : jstr; acc_text : jstr; maps_href : jstr; maps_disabled : bool
}.

(** The report form's controls. *)
Record form := mk_form { form_type : jstr; form_desc : jstr; form_file : bool }.

(** An [await] the page is waiting on. *)
Inductive task :=
| TRefresh                          (* [refreshLocation]: the position *)
| TPanicGeo                         (* the panic handler: the position *)
| TPanicShare (share : bool)        (* the panic handler: [share] or [writeText] *)
| TReportGeo                        (* the report handler: the position *)
| TReportFile (loc : option position) (* the report handler: the image file *)
| TCopy (row : bool)                (* a copy button: [writeText] *)
| TShareApp (share : bool)          (* the share button: [share] or [writeText] *)
| TCenter.                          (* the centre-me button: [refreshLocation()] *)

Record app := mk_app {
  storage_of : storage;
  myPosition : option position;
  map_of : option map_view;         (* [map] and its markers, once [initMap] ran *)
  feed_html : jstr;                 (* [feedEl.innerHTML] *)
  panel_of : panel;
  status : jstr * jstr;             (* the two texts of [setStatus] *)
  search_value : jstr;
  filter_value : jstr;
  form_of : form;
  light : bool;                     (* [document.body.classList] has [light] *)
  created : nat;                    (* records created: the index of the next
                                       [uuid()] and [nowISO()] *)
  outbox : list jstr;               (* the texts given to [share] or [writeText] *)
  pending : list task;
  maps_listener : bool              (* the script's last line ran: the
                                       open-in-maps listener is registered *)
}.

(** ** The state-and-exception monad of a segment *)

Definition M (A : Type) : Type := app -> app * result A.

Definition ret {A} (a : A) : M A := fun s => (s, Ok a).

Definition bindM {A B} (m : M A) (k : A -> M B) : M B :=
  fun s => match m s with (s', Ok a) => k a s' | (s', Throw e) => (s', Throw e) end.

Notation "'let*' x ':=' m 'in' k" := (bindM m (fun x => k))
  (at level 10, x name, m at level 100, k at level 200) : js_scope.
Notation "m ;; k" := (bindM m (fun _ => k)) (at level 100, right associativity) : js_scope.
Local Open Scope js_scope.

Definition lift {A} (r : result A) : M A := fun s => (s, r).
Definition gets {A} (f : app -> A) : M A := fun s => (s, Ok (f s)).
Definition modify (f : app -> app) : M unit := fun s => (f s, Ok tt).

(** [try { m } catch { h }]. *)
Definition catchM {A} (m : M A) (h : M A) : M A :=
  fun s => match m s with (s', Ok a) => (s', Ok a) | (s', Throw _) => h s' end.

(** ** Field updates *)

Definition set_storage (st : storage) (a : app) : app :=
  mk_app st (myPosition a) (map_of a) (feed_html a) (panel_of a) (status a) (search_value a)
    (filter_value a) (form_of a) (light a) (created a) (outbox a) (pending a)
    (maps_listener a).
Definition set_position (p : option position) (a : app) : app :=
  mk_app (storage_of a) p (map_of a) (feed_html a) (panel_of a) (status a) (search_value a)
    (filter_value a) (form_of a) (light a) (created a) (outbox a) (pending a)
    (maps_listener a).
Definition set_map (m : option map_view) (a : app) : app :=
  mk_app (storage_of a) (myPosition a) m (feed_html a) (panel_of a) (status a) (search_value a)
    (filter_value a) (form_of a) (light a) (created a) (outbox a) (pending a)
    (maps_listener a).
Definition set_feed (h : jstr) (a : app) : app :=
  mk_app (storage_of a) (myPosition a) (map_of a) h (panel_of a) (status a) (search_value a)
    (filter_value a) (form_of a) (light a) (created a) (outbox a) (pending a)
    (maps_listener a).
Definition set_panel (p : panel) (a : app) : app :=
  mk_app (storage_of a) (myPosition a) (map_of a) (feed_html a) p (status a) (search_value a)
    (filter_value a) (form_of a) (light a) (created a) (outbox a) (pending a)
    (maps_listener a).
Definition set_status (st : jstr * jstr) (a : app) : app :=
  mk_app (storage_of a) (myPosition a) (map_of a) (feed_html a) (panel_of a) st (search_value a)
    (filter_value a) (form_of a) (light a) (created a) (outbox a) (pending a)
    (maps_listener a).
Definition set_search (v : jstr) (a : app) : app :=
  mk_app (storage_of a) (myPosition a) (map_of a) (feed_html a) (panel_of a) (status a) v
    (filter_value a) (form_of a) (light a) (created a) (outbox a) (pending a)
    (maps_listener a).
Definition set_filter (v : jstr) (a : app) : app :=
  mk_app (storage_of a) (myPosition a) (map_of a) (feed_html a) (panel_of a) (status a)
    (search_value a) v (form_of a) (light a) (created a) (outbox a) (pending a)
    (maps_listener a).
Definition set_form (f : form) (a : app) : app :=
  mk_app (storage_of a) (myPosition a) (map_of a) (feed_html a) (panel_of a) (status a)
    (search_value a) (filter_value a) f (light a) (created a) (outbox a) (pending a)
    (maps_listener a).
Definition set_light (b : bool) (a : app) : app :=
  mk_app (storage_of a) (myPosition a) (map_of a) (feed_html a) (panel_of a) (status a)
    (search_value a) (filter_value a) (form_of a) b (created a) (outbox a) (pending a)
    (maps_listener a).
Definition bump_created (a : app) : app :=
  mk_app (storage_of a) (myPosition a) (map_of a) (feed_html a) (panel_of a) (status a)
    (search_value a) (filter_value a) (form_of a) (light a) (S (created a)) (outbox a) (pending a)
    (maps_listener a).
Definition send (t : jstr) (a : app) : app :=
  mk_app (storage_of a) (myPosition a) (map_of a) (feed_html a) (panel_of a) (status a)
    (search_value a) (filter_value a) (form_of a) (light a) (created a) (outbox a ++ [t]) (pending a)
    (maps_listener a).
Definition set_maps_listener (a : app) : app :=
  mk_app (storage_of a) (myPosition a) (map_of a) (feed_html a) (panel_of a) (status a)
    (search_value a) (filter_value a) (form_of a) (light a) (created a) (outbox a) (pending a) true.
Definition set_pending (ts : list task) (a : app) : app :=
  mk_app (storage_of a) (myPosition a) (map_of a) (feed_html a) (panel_of a) (status a)
    (search_value a) (filter_value a) (form_of a) (light a) (created a) (outbox a) ts
    (maps_listener a).

(** ** Rendering *)

Section Segments.
Context `{Platform}.

(** [function setStatus(main, sub = "")]. *)
Definition setStatus (main sub : jstr) : M unit := modify (set_status (main, or_str sub [])).

(** [function renderLocationBox()]: dashes and a disabled link without a
    position, else the coordinates to six decimals, [±acc m] and the
    maps link. *)
Definition location_panel (pos : option position) : panel :=
  match pos with
  | None => mk_panel [8212] [8212] [8212] (lit "#") true
  | Some p => mk_panel (toFixed (lat p) 6) (toFixed (lng p) 6) ([177] ++ Z_to_decimal (acc p) ++ lit "m")
                       (coordsToMapsLink (lat p) (lng p)) false
  end.

Definition renderLocationBox : M unit := modify (fun a => set_panel (location_panel (myPosition a)) a).

(** The records a loaded value holds: [items.filter] throws on a value
    that is not an array. *)
Definition items_of (v : jval) : result (list item) :=
  match v with
  | JArr _ => match decode_items v with Some l => Ok l | None => Throw OutOfModel end
  | _ => Throw TypeError
  end.

(** [function renderFeed()]: the feed of the stored records, the search
    box's value and the category. *)
Definition renderFeed_M : M unit :=
  let* l := bindM (gets (fun a => loadItems (storage_of a))) (fun v => lift (items_of v)) in
  modify (fun a => set_feed (renderFeed l (search_value a) (filter_value a)) a).

(** [if (map) { rebuildMarkers(); updateMyMarkerOnMap(); }]. *)
Definition redraw_map : M unit :=
  let* m := gets map_of in
  match m with
  | None => ret tt
  | Some mv =>
      let* l := bindM (gets (fun a => loadItems (storage_of a))) (fun v => lift (items_of v)) in
      modify (fun a => set_map (Some (updateMyMarkerOnMap (rebuildMarkers mv l) (myPosition a))) a)
  end.

(** [function renderAll()]. *)
Definition renderAll : M unit := renderLocationBox;; renderFeed_M;; redraw_map.

(** ** The store operations with their rendering *)

(** [function addItem(item)]. *)
Definition addItem (it : item) : M unit :=
  let* st := gets storage_of in
  let* st' := lift (addItem_store (item_to_json it) st) in
  modify (set_storage st');; renderAll.

(** [function clearAll()]. *)
Definition clearAll : M unit := modify (fun a => set_storage (clearAll_store (storage_of a)) a);; renderAll.

(** The delete button's handler, given the button's [data-delete]. *)
Definition on_delete (attr : jstr) : M unit :=
  let* st := gets storage_of in
  let* st' := lift (deleteItem_store attr st) in
  modify (set_storage st');; renderAll;;
  setStatus (lit "Deleted") (lit "Item removed from the local database.").
End Segments.

(** ** Events, outcomes and the handlers *)

(** What the user does. *)
Inductive event :=
| Panic                      (* [panicBtn] *)
| ReportSubmit               (* [reportForm] submit *)
| GetLocation                (* [getLocationBtn] *)
| ClearAll (confirmed : bool) (* [clearAllBtn], with the answer to [confirm] *)
| DeleteRow (attr : jstr)    (* a [data-delete] button, with its attribute *)
| CopyRow (attr : jstr)      (* a [data-copy] button, with its attribute *)
| CopyCoords                 (* [copyCoordsBtn] *)
| ToggleTheme                (* [toggleThemeBtn] *)
| SearchInput (v : jstr)     (* typing in [searchInput] *)
| FilterChange (v : jstr)    (* choosing in [filterSelect] *)
| FillDemo                   (* [fillDemoBtn] *)
| EditForm (f : form)        (* typing in the report form *)
| ShareApp                   (* [shareAppBtn] *)
| CenterMe                   (* [centerMeBtn] *)
| OpenInMaps.                (* [openInMapsBtn] *)

(** How the platform settles an [await]. *)
Inductive outcome :=
| GeoOk (p : position) | GeoFailed    (* [ensureGeolocation] *)
| FileLoaded (url : jstr) | FileFailed (* [fileToDataURL] of a chosen file *)
| Settled | Rejected.                 (* [share] and [clipboard.writeText] *)

Definition fits (t : task) (o : outcome) : bool :=
  match t, o with
  | (TRefresh | TPanicGeo | TReportGeo | TCenter), (GeoOk _ | GeoFailed) => true
  | TReportFile _, (FileLoaded _ | FileFailed) => true
  | (TPanicShare _ | TCopy _ | TShareApp _), (Settled | Rejected) => true
  | _, _ => false
  end.

(** The form after [reportForm.reset()]: its controls' defaults, empty
    here (the page's markup is not part of the repository). *)
Definition form_reset : form := mk_form [] [] false.

(** The status texts. *)
Definition check_mark : jstr := [9989].
Definition siren : jstr := [55357; 57000].
Definition ellipsis : jstr := [8230].

Section Handlers.
Context `{Platform}.

(** The text the panic handler shares. *)
Definition panic_share_text (loc : option position) : jstr :=
  match loc with
  | Some p =>
      siren ++ lit " SAFEConnect PANIC ALERT!" ++ [10] ++ lit "Location: " ++ toFixed (lat p) 6
      ++ lit ", " ++ toFixed (lng p) 6 ++ lit " (" ++ [177] ++ Z_to_decimal (acc p) ++ lit "m)"
      ++ [10] ++ lit "Open: " ++ coordsToMapsLink (lat p) (lng p)
  | None =>
      siren ++ lit " SAFEConnect PANIC ALERT!" ++ [10] ++ lit "Location not available."
      ++ [10] ++ lit "Open the app to see details."
  end.

(** The text [copyCoordsBtn] copies. *)
Definition coords_text (p : position) : jstr :=
  toFixed (lat p) 6 ++ lit ", " ++ toFixed (lng p) 6 ++ lit " (" ++ [177] ++ Z_to_decimal (acc p)
  ++ lit "m)".

Definition share_app_text : jstr :=
  lit "SafeConnect (School Prototype): Safety alerts + incident map + reports." ++ [10]
  ++ lit "Open this page on your device to test.".

(** [refreshLocation] up to its [await]. *)
Definition refresh_status : M unit :=
  setStatus (lit "Getting your location" ++ ellipsis) (lit "Please allow location permission.").

Definition refresh_start : M (list task) := refresh_status;; ret [TRefresh].

(** The panic record, [addItem], and the hand-off of the share text. *)
Definition panic_create (loc : option position) : M (list task) :=
  let* n := gets created in
  modify bump_created;;
  addItem (mk_item (uuid n) PANIC (lit "Emergency Panic")
             (lit "Emergency alert sent. Please respond or contact emergency services.")
             loc (nowISO n) None);;
  modify (send (panic_share_text loc));;
  ret [TPanicShare has_share].

(** The report record from the form as it is now, [addItem], the reset
    and the status. *)
Definition report_finish (loc : option position) (url : option jstr) : M (list task) :=
  let* fm := gets form_of in
  let* n := gets created in
  modify bump_created;;
  addItem (mk_item (uuid n) REPORT (form_type fm) (trim (form_desc fm)) loc (nowISO n) url);;
  modify (set_form form_reset);;
  setStatus (lit "Report submitted " ++ check_mark) (lit "It" ++ [8217] ++ lit "s saved and pinned on the map.");;
  ret [].

(** After the position: read the chosen file, if any ([fileToDataURL]
    of no file settles at once with [null]). *)
Definition report_after_geo (loc : option position) : M (list task) :=
  let* f := gets (fun a => form_file (form_of a)) in
  if f then ret [TReportFile loc] else report_finish loc None.

(** *** The listeners, each up to its first [await] *)

(** The panic button, lines 307-312. *)
Definition onPanic : M (list task) :=
  setStatus (lit "Panic pressed " ++ siren) (lit "Getting your live location" ++ ellipsis);;
  ret [TPanicGeo].

(** The report form's submit, lines 405-411: the position is awaited
    only when there is none yet. *)
Definition onReportSubmit : M (list task) :=
  let* p := gets myPosition in
  match p with None => ret [TReportGeo] | Some _ => report_after_geo p end.

(** The clear-all button, lines 381-386, with the answer to [confirm]. *)
Definition onClearAll (ok : bool) : M (list task) :=
  if ok then clearAll;; setStatus (lit "Cleared " ++ check_mark) (lit "Local database cleared.");; ret []
  else ret [].

(** A [data-copy] button of the feed, lines 248-250. *)
Definition onCopyRow (attr : jstr) : M (list task) :=
  modify (send (or_str attr []));; ret [TCopy true].

(** The copy-coordinates button, lines 388-392. *)
Definition onCopyCoords : M (list task) :=
  let* p := gets myPosition in
  match p with None => ret [] | Some q => modify (send (coords_text q));; ret [TCopy false] end.

(** [function toggleTheme()], lines 444-447. *)
Definition toggleTheme : M (list task) :=
  modify (fun a => set_light (negb (light a)) a);;
  let* l := gets light in
  let* st := gets storage_of in
  let* st' := lift (setItem LS_THEME (if l then lit "light" else lit "dark") st) in
  modify (set_storage st');; ret [].

(** The search box and the category, lines 436-437: the control takes
    its new value, then [renderFeed] runs. *)
Definition onSearch (v : jstr) : M (list task) := modify (set_search v);; renderFeed_M;; ret [].
Definition onFilter (v : jstr) : M (list task) := modify (set_filter v);; renderFeed_M;; ret [].

(** The demo button, lines 399-403. *)
Definition onFillDemo : M (list task) :=
  modify (fun a => set_form (mk_form (lit "Suspicious Activity")
    (lit "Unknown person walking around checking gates (demo report).") (form_file (form_of a))) a);;
  setStatus (lit "Demo filled " ++ [10024]) (lit "You can now submit to see it on the map.");;
  ret [].

(** The share-app button, lines 355-362: what it hands to [share] or to
    the clipboard. *)
Definition onShareApp : M (list task) :=
  modify (send (if has_share then share_app_text else page_href));; ret [TShareApp has_share].

(** [if (myPosition) { map.setView(...); myMarker?.openPopup(); }],
    lines 375-378, on the map of the page. *)
Definition center_view : M unit :=
  let* m := gets map_of in
  let* p := gets myPosition in
  match m, p with Some mv, Some q => modify (set_map (Some (centerOn mv q))) | _, _ => ret tt end.

(** The centre-me button, lines 370-378: without a map nothing happens;
    without a position it awaits [refreshLocation()] first. *)
Definition onCenterMe : M (list task) :=
  let* m := gets map_of in
  match m with
  | None => ret []
  | Some _ =>
      let* p := gets myPosition in
      match p with None => refresh_status;; ret [TCenter] | Some _ => center_view;; ret [] end
  end.

(** The open-in-maps link, lines 456-461. *)
Definition onOpenInMaps : M (list task) :=
  let* p := gets myPosition in
  match p with
  | None => setStatus (lit "No location yet") (lit "Tap " ++ [8220] ++ lit "Get My Location" ++ [8221] ++ lit " first.");; ret []
  | Some _ => ret []
  end.

(** The listeners of the page, as [addEventListener] wires them. *)
Definition dispatch (ev : event) : M (list task) :=
  match ev with
  | Panic => onPanic
  | ReportSubmit => onReportSubmit
  | GetLocation => refresh_start
  | ClearAll c => onClearAll c
  | DeleteRow attr => on_delete attr;; ret []
  | CopyRow attr => onCopyRow attr
  | CopyCoords => onCopyCoords
  | ToggleTheme => toggleTheme
  | SearchInput v => onSearch v
  | FilterChange v => onFilter v
  | FillDemo => onFillDemo
  | EditForm f => modify (set_form f);; ret []
  | ShareApp => onShareApp
  | CenterMe => onCenterMe
  | OpenInMaps => let* r := gets maps_listener in if r then onOpenInMaps else ret []
  end.

(** *** The continuations, each from its [await] on *)

(** [refreshLocation] after [await ensureGeolocation()], lines 299-304:
    a [renderAll] that throws lands in the same [catch]. *)
Definition refresh_resume (o : outcome) : M (list task) :=
  match o with
  | GeoOk p =>
      catchM (modify (set_position (Some p));;
              setStatus (lit "Location updated " ++ check_mark)
                        (lit "Your current coordinates are shown and used for reports.");;
              renderAll)
             (setStatus (lit "Location failed") (lit "Tip: Use Chrome and enable location permission."));;
      ret []
  | _ => setStatus (lit "Location failed") (lit "Tip: Use Chrome and enable location permission.");; ret []
  end.

(** The panic handler after its geolocation, lines 312-328. *)
Definition panic_after_geo (o : outcome) : M (list task) :=
  match o with
  | GeoOk p => modify (set_position (Some p));; panic_create (Some p)
  | _ =>
      setStatus (lit "Panic pressed " ++ siren)
                (lit "Location permission not granted. Alert will be saved without GPS.");;
      panic_create None
  end.

(** The panic handler after [share] or [clipboard.writeText], lines
    338-350. *)
Definition panic_shared (s : bool) (o : outcome) : M (list task) :=
  match o with
  | Settled =>
      (if s then setStatus (lit "Panic alert created + shared " ++ check_mark) (lit "Shared via your phone share menu.")
       else setStatus (lit "Panic alert created " ++ check_mark)
                      (lit "Share text copied to clipboard (paste to WhatsApp/SMS)."));;
      ret []
  | _ => setStatus (lit "Panic alert created " ++ check_mark) (lit "Open the feed/map to view it.");; ret []
  end.

(** The report handler after its geolocation, lines 411-418: a failure
    leaves [loc] null. *)
Definition report_geo_done (o : outcome) : M (list task) :=
  match o with
  | GeoOk p => modify (set_position (Some p));; report_after_geo (Some p)
  | _ => report_after_geo None
  end.

(** The report handler after [await fileToDataURL(file)], lines 418-432:
    a rejection is not caught, and the handler stops. *)
Definition report_file_done (loc : option position) (o : outcome) : M (list task) :=
  match o with
  | FileLoaded url => report_finish loc (Some url)
  | _ => lift (Throw FileReadError)
  end.

(** A [data-copy] button after [clipboard.writeText], lines 250-254. *)
Definition copy_row_done (o : outcome) : M (list task) :=
  match o with
  | Settled => setStatus (lit "Copied " ++ check_mark) (lit "Location copied to clipboard.");; ret []
  | _ => setStatus (lit "Copy failed") (lit "Your browser blocked clipboard access.");; ret []
  end.

(** The copy-coordinates button after [clipboard.writeText], lines
    392-396. *)
Definition copy_coords_done (o : outcome) : M (list task) :=
  match o with
  | Settled => setStatus (lit "Copied " ++ check_mark) (lit "Your coordinates were copied.");; ret []
  | _ => setStatus (lit "Copy failed") (lit "Clipboard blocked by browser.");; ret []
  end.

(** The share-app button after [share] or [clipboard.writeText], lines
    359-367. *)
Definition share_app_done (s : bool) (o : outcome) : M (list task) :=
  match o with
  | Settled =>
      (if s then setStatus (lit "Shared " ++ check_mark) (lit "Link shared successfully.")
       else setStatus (lit "Copied " ++ check_mark) (lit "Link copied to clipboard."));;
      ret []
  | _ => setStatus (lit "Share cancelled") [];; ret []
  end.

(** The centre-me button after [await refreshLocation()], lines 373-378:
    [refreshLocation] catches its own failures. *)
Definition center_resume (o : outcome) : M (list task) :=
  let* _ := refresh_resume o in
  center_view;; ret [].

(** Each [await]'s continuation, given the outcome. *)
Definition resume (t : task) (o : outcome) : M (list task) :=
  match t with
  | TRefresh => refresh_resume o
  | TPanicGeo => panic_after_geo o
  | TPanicShare s => panic_shared s o
  | TReportGeo => report_geo_done o
  | TReportFile loc => report_file_done loc o
  | TCopy row => if row then copy_row_done o else copy_coords_done o
  | TShareApp s => share_app_done s o
  | TCenter => center_resume o
  end.

End Handlers.

(** The listeners and continuations, for proofs that go through their
    bodies. *)
Ltac unfold_handlers :=
  unfold onPanic, onReportSubmit, onClearAll, onCopyRow, onCopyCoords, toggleTheme, onSearch,
    onFilter, onFillDemo, onShareApp, onCenterMe, onOpenInMaps, refresh_resume, panic_after_geo,
    panic_shared, report_geo_done, report_file_done, copy_row_done, copy_coords_done, share_app_done,
    center_resume, refresh_start, refresh_status.

(** ** Runs *)

Section Runs.
Context `{Platform}.

(** A segment run on the page: the tasks it leaves join the pending
    ones; a segment that throws leaves its state and no task. *)
Definition run (m : M (list task)) (a : app) : app :=
  match m a with
  | (a', Ok ts) => set_pending (pending a' ++ ts) a'
  | (a', Throw _) => a'
  end.

(** [loadTheme()]. *)
Definition loadTheme : M unit :=
  let* st := gets storage_of in
  if decide (getItem st LS_THEME = Some (lit "light")) then modify (set_light true) else ret tt.

(** [initMap()]: the map exists, and [updateMyMarkerOnMap()]. *)
Definition initMap : M unit :=
  modify (fun a => set_map (Some (updateMyMarkerOnMap init_map_view (myPosition a))) a).

(** The page before its script runs, on a storage area [st]. *)
Definition page0 (st : storage) : app :=
  mk_app st None None [] (mk_panel [] [] [] [] false) ([], []) [] (lit "ALL") (mk_form [] [] false)
         false 0 [] [] false.

(** The script's last lines: [loadTheme(); initMap(); renderAll();],
    then the open-in-maps listener, which a [renderAll] that throws
    leaves unregistered. *)
Definition boot (st : storage) : app :=
  run (loadTheme;; initMap;; renderAll;; modify set_maps_listener;; ret []) (page0 st).

(** What the environment may produce: strings of code units and
    positions of finite decimals. *)
Definition form_ok (f : form) : bool := jstr_ok (form_type f) && jstr_ok (form_desc f).

Definition event_ok (ev : event) : bool :=
  match ev with
  | DeleteRow s | CopyRow s | SearchInput s | FilterChange s => jstr_ok s
  | EditForm f => form_ok f
  | _ => true
  end.

Definition outcome_ok (o : outcome) : bool :=
  match o with GeoOk p => position_ok p | FileLoaded u => jstr_ok u | _ => true end.

(** One step of the page: an event runs its handler's first segment, or
    the platform settles one of the pending [await]s, in any order. *)
Inductive step : app -> app -> Prop :=
| step_event (ev : event) (a : app) :
    event_ok ev = true -> step a (run (dispatch ev) a)
| step_resume (a : app) (pre post : list task) (t : task) (o : outcome) :
    pending a = pre ++ t :: post -> fits t o = true -> outcome_ok o = true ->
    step a (run (resume t o) (set_pending (pre ++ post) a)).

(** The states the page reaches from its boot on [st]. *)
Definition reachable (st : storage) (a : app) : Prop := rtc step (boot st) a.
End Runs.

(** ** Properties of single segments *)

Lemma set_pending_same (a : app) : set_pending (pending a) a = a.
Proof. by destruct a. Qed.

(** C19. Typing in the search box and choosing a category commute: the
    page ends in the same state whichever event comes first, whatever
    the store holds (when [renderFeed] throws, it throws in both orders
    after both values are set). *)
Theorem search_filter_commute `{Platform} (v f : jstr) (a : app) :
  run (onFilter f) (run (onSearch v) a) = run (onSearch v) (run (onFilter f) a).
Proof.
  destruct a. unfold run, onSearch, onFilter, renderFeed_M, bindM, modify, gets, lift, ret.
  unfold set_search, set_filter, set_feed, set_pending; cbn.
  destruct (items_of (loadItems storage_of0)) eqn:E; repeat (cbn; rewrite E); reflexivity.
Qed.

(** A declined [confirm] changes nothing: the clear handler returns
    before touching the store or the views. *)
Theorem clear_cancelled `{Platform} (a : app) : run (dispatch (ClearAll false)) a = a.
Proof. unfold run. simpl. rewrite app_nil_r. apply set_pending_same. Qed.

(** ** End-to-end scenarios *)

Section Scenarios.
#[local] Existing Instance sample_platform.

(** Scenario B: the panic button, then the position (-26.1, 28.0, 15). *)
Definition scenario_B : app :=
  let a1 := run (dispatch Panic) (boot empty_storage) in
  run (resume TPanicGeo (GeoOk sample_position)) (set_pending [] a1).

(** The store gains one PANIC record at that location, the map one
    marker at that coordinate, and the panel shows [-26.100000],
    [28.000000] and [±15m]. *)
Example scenario_B_result :
  (exists it, decode_items (loadItems (storage_of scenario_B)) = Some [it] /\
              kind it = PANIC /\ location it = Some sample_position) /\
  option_map (fun mv => size (markers mv)) (map_of scenario_B) = Some 1%nat /\
  option_map (fun mv => lm_pos <$> (layers (leaflet_of mv) !! 1%positive)) (map_of scenario_B)
    = Some (Some ((-261 # 10)%Q, 28%Q)) /\
  lat_text (panel_of scenario_B) = lit "-26.100000" /\
  lng_text (panel_of scenario_B) = lit "28.000000" /\
  acc_text (panel_of scenario_B) = [177] ++ lit "15m".
Proof. split; [eexists; split; [vm_compute; reflexivity|split; reflexivity]|]. split_and!; vm_compute; reflexivity. Qed.

(** A report submitted without a position and without a file. *)
Definition submit_report (a : app) : app :=
  let a1 := run (dispatch ReportSubmit) a in
  run (resume TReportGeo GeoFailed) (set_pending [] a1).

(** Scenario C: three records, then [clear()] confirmed. *)
Definition scenario_C : app :=
  run (dispatch (ClearAll true)) (submit_report (submit_report (submit_report (boot empty_storage)))).

(** Scenario C: three records, then a confirmed clear: the placeholder feed, no incident marker, an empty store. *)
Example scenario_C_result :
  decode_items (loadItems (storage_of (submit_report (submit_report (submit_report (boot empty_storage))))))
    = Some [mk_item (lit "id-2") REPORT [] [] None (lit "2026-11-09T08:00:00.000Z") None;
            mk_item (lit "id-1") REPORT [] [] None (lit "2026-11-09T08:00:00.000Z") None;
            mk_item (lit "id-0") REPORT [] [] None (lit "2026-11-09T08:00:00.000Z") None] /\
  feed_html scenario_C = feed_placeholder /\
  option_map (fun mv => size (markers mv)) (map_of scenario_C) = Some 0%nat /\
  loadItems (storage_of scenario_C) = JArr [].
Proof. split_and!; vm_compute; reflexivity. Qed.

(** The location panel goes stale: a report submitted with a file and
    no position waits for the position, which sets [myPosition], then
    for the file; when the file cannot be read the handler throws and
    [renderAll] never runs, so the panel shows dashes while the page
    holds a position (which [copyCoordsBtn] copies). *)
Definition stale_panel : app :=
  let a1 := run (dispatch (EditForm (mk_form (lit "Fire") [] true))) (boot empty_storage) in
  let a2 := run (dispatch ReportSubmit) a1 in
  let a3 := run (resume TReportGeo (GeoOk sample_position)) (set_pending [] a2) in
  run (resume (TReportFile (Some sample_position)) FileFailed) (set_pending [] a3).

(** The location panel stays stale when the report's image cannot be read after the position arrived. *)
Example stale_location_panel_sample :
  myPosition stale_panel = Some sample_position /\
  panel_of stale_panel = location_panel None /\
  panel_of stale_panel <> location_panel (myPosition stale_panel) /\
  outbox (run (dispatch CopyCoords) stale_panel) = [coords_text sample_position].
Proof. split_and!; vm_compute; try reflexivity. discriminate. Qed.

(** A full storage area: [setItem] throws [QuotaExceededError] inside
    [addItem]; the panic handler stops there.  The alert is not saved,
    nothing is shared, the status still says the panic was pressed, and
    the position it fetched is held but not shown. *)
Definition full_storage : storage := mk_storage ∅ 10.

Definition quota_panic : app :=
  let a1 := run (dispatch Panic) (boot full_storage) in
  run (resume TPanicGeo (GeoOk sample_position)) (set_pending [] a1).

(** A full storage area loses the panic alert: nothing saved, nothing shared, the status unchanged, the position not shown. *)
Example quota_panic_lost_sample :
  loadItems (storage_of quota_panic) = JArr [] /\
  pending quota_panic = [] /\ outbox quota_panic = [] /\
  status quota_panic = pair (lit "Panic pressed " ++ siren) (lit "Getting your live location" ++ ellipsis) /\
  myPosition quota_panic = Some sample_position /\
  panel_of quota_panic = location_panel None.
Proof. split_and!; vm_compute; reflexivity. Qed.

(** The theme key: toggling to light writes [light], toggling back
    writes [dark] (not an absent key). *)
Example theme_writes_dark_sample :
  getItem (storage_of (run (dispatch ToggleTheme) (boot empty_storage))) LS_THEME = Some (lit "light") /\
  getItem (storage_of (run (dispatch ToggleTheme) (run (dispatch ToggleTheme) (boot empty_storage)))) LS_THEME
    = Some (lit "dark").
Proof. split; vm_compute; reflexivity. Qed.

(** The centre-me button before any position: it awaits
    [refreshLocation()]; once the position (-26.1, 28.0, 15) arrives,
    the map is centred on it at zoom 16, the user's marker is created
    with its popup open, and the location panel shows it. *)
Example scenario_center :
  pending (run (dispatch CenterMe) (boot empty_storage)) = [TCenter] /\
  option_map (fun mv => (view (leaflet_of mv), popup_open (leaflet_of mv), myMarker mv))
    (map_of (run (resume TCenter (GeoOk sample_position))
                 (set_pending [] (run (dispatch CenterMe) (boot empty_storage)))))
    = Some ((((-261) # 10, 28)%Q, 16), Some 1%positive, Some 1%positive) /\
  lat_text (panel_of (run (resume TCenter (GeoOk sample_position))
                         (set_pending [] (run (dispatch CenterMe) (boot empty_storage)))))
    = lit "-26.100000".
Proof. split_and!; vm_compute; reflexivity. Qed.
End Scenarios.
