(* ===== verification/Invariants.v ===== *)
(** * Invariants of the page

    A weakest-precondition calculus for the segments of [App] ([wp]),
    the effect of [renderAll] on a store that decodes, and the
    invariants of every state the page reaches from its boot: the store
    holds well-formed records with unique ids, the feed shows exactly
    the filtered store, the map holds one marker per stored record with
    a location, and the stored value has the type [items_ty] of
    [Schema]. *)

From S2P Require Import Prelude JsString Escape Json Item Schema Store Query Platform MapView Feed App.

Local Open Scope Z_scope.
Local Open Scope js_scope.

(** ** Weakest preconditions of segments *)

(** [wp m Q E a]: running [m] from [a] ends in a state satisfying [Q]
    of its result, or throws in a state satisfying [E]. *)
Definition wp {A} (m : M A) (Q : A -> app -> Prop) (E : app -> Prop) (a : app) : Prop :=
  match m a with (a', Ok x) => Q x a' | (a', Throw _) => E a' end.

Section Wp.
Context {A B : Type}.
Implicit Types (Q : A -> app -> Prop) (E : app -> Prop) (a : app).

Lemma wp_ret (x : A) Q E a : wp (ret x) Q E a <-> Q x a.
Proof. done. Qed.

Lemma wp_bind (m : M B) (k : B -> M A) Q E a :
  wp (bindM m k) Q E a <-> wp m (fun x a' => wp (k x) Q E a') E a.
Proof. unfold wp, bindM. by destruct (m a) as [a' [x|e]]. Qed.

Lemma wp_gets (f : app -> A) (Q : A -> app -> Prop) E a : wp (gets f) Q E a <-> Q (f a) a.
Proof. done. Qed.

Lemma wp_modify (f : app -> app) (Q : unit -> app -> Prop) E a : wp (modify f) Q E a <-> Q tt (f a).
Proof. done. Qed.

Lemma wp_lift (r : result A) Q E a :
  wp (lift r) Q E a <-> match r with Ok x => Q x a | Throw _ => E a end.
Proof. by destruct r. Qed.

Lemma wp_catch (m h : M A) Q E a : wp (catchM m h) Q E a <-> wp m Q (wp h Q E) a.
Proof. unfold wp, catchM. by destruct (m a) as [a' [x|e]]. Qed.

Lemma wp_mono (m : M A) Q Q' E E' a :
  (forall x a', Q x a' -> Q' x a') -> (forall a', E a' -> E' a') -> wp m Q E a -> wp m Q' E' a.
Proof. unfold wp. destruct (m a) as [a' [x|e]]; auto. Qed.
End Wp.

Create Rewrite HintDb wp.
(** One step of the calculus, on the head of the segment. *)
Ltac wp_step :=
  first [ rewrite wp_bind | rewrite wp_gets | rewrite wp_modify | rewrite wp_lift
        | rewrite wp_ret | rewrite wp_catch ]; cbv beta.

#[export] Hint Rewrite @wp_ret @wp_bind @wp_gets @wp_modify @wp_lift @wp_catch : wp.

(** A segment's run, by its weakest precondition. *)
Lemma run_wp (m : M (list task)) (P : app -> Prop) (a : app) :
  wp m (fun ts a' => P (set_pending (pending a' ++ ts) a')) P a -> P (run m a).
Proof. unfold wp, run. destruct (m a) as [a' [ts|e]]; auto. Qed.

(** ** [renderAll] on a store that decodes *)

Section Render.
Context `{Platform}.

(** The state [renderAll] leaves when the store holds the records [l]. *)
Definition rendered (l : list item) (a : app) : app :=
  let a2 := set_feed (renderFeed l (search_value a) (filter_value a))
                     (set_panel (location_panel (myPosition a)) a) in
  match map_of a with
  | None => a2
  | Some mv => set_map (Some (updateMyMarkerOnMap (rebuildMarkers mv l) (myPosition a))) a2
  end.

Lemma renderAll_ok (a : app) (l : list item) :
  items_of (loadItems (storage_of a)) = Ok l -> renderAll a = (rendered l a, Ok tt).
Proof.
  intros Hl. unfold renderAll, renderLocationBox, renderFeed_M, redraw_map, bindM, gets, modify, lift.
  simpl. rewrite Hl. unfold rendered. destruct (map_of a) eqn:Hm; simpl; rewrite ?Hm; simpl; rewrite ?Hl; reflexivity.
Qed.

Lemma items_of_repr (st : storage) (l : list item) :
  store_repr st l -> items_of (loadItems st) = Ok l.
Proof. unfold store_repr. intros ->. unfold items_of. by rewrite decode_items_to_json. Qed.
End Render.

(** ** The invariants *)

Section Inv.
Context `{Platform}.

(** No stored id is one that [uuid()] gives from the [n]-th call on. *)
Definition fresh_ids (n : nat) (l : list item) : Prop :=
  Forall (fun it => forall k, (n <= k)%nat -> id it <> uuid k) l.

(** The store holds well-formed records with unique ids. *)
Definition store_inv (a : app) : Prop :=
  exists l, store_repr (storage_of a) l /\ forallb item_ok l = true /\ NoDup (map id l) /\
            fresh_ids (created a) l.

Definition pos_ok (o : option position) : bool :=
  match o with Some p => position_ok p | None => true end.

Definition task_ok (t : task) : bool := match t with TReportFile loc => pos_ok loc | _ => true end.

(** The values the page holds from its environment are well formed. *)
Definition env_inv (a : app) : Prop :=
  form_ok (form_of a) = true /\ pos_ok (myPosition a) = true /\ forallb task_ok (pending a) = true.

(** The map shows the records [l]: the handle invariant, nothing on the
    map but the Map's markers and the user's, one entry of the Map per
    located record, each placed. *)
Definition map_ok (l : list item) (mv : map_view) : Prop :=
  handles_ok mv /\ on_map_exact mv /\ dom (markers mv) = list_to_set (map id (located l)) /\
  forall it, In it l -> placed mv it.

(** The views show the store: the feed is the filtered store, the map
    its located records. *)
Definition views_ok (a : app) : Prop :=
  exists l, items_of (loadItems (storage_of a)) = Ok l /\
            feed_html a = renderFeed l (search_value a) (filter_value a) /\
            forall mv, map_of a = Some mv -> map_ok l mv.

Definition app_inv (a : app) : Prop := store_inv a /\ env_inv a /\ views_ok a.

Lemma located_nodup (l : list item) : NoDup (map id l) -> NoDup (map id (located l)).
Proof. intros Hnd. eapply sublist_NoDup; [exact Hnd|]. apply map_sublist, filter_sublist_bool. Qed.

(** [rebuildMarkers] then [updateMyMarkerOnMap] on records with unique
    ids gives a map that shows them. *)
Lemma redraw_map_ok (mv : map_view) (l : list item) (pos : option position) :
  handles_ok mv -> on_map_exact mv -> NoDup (map id l) ->
  map_ok l (updateMyMarkerOnMap (rebuildMarkers mv l) pos).
Proof.
  intros Hok Hex Hnd. pose proof (rebuild_handles_ok mv l Hok) as Hok'. split_and!.
  - by apply updateMyMarker_handles_ok.
  - by apply updateMyMarker_exact, rebuild_exact.
  - rewrite updateMyMarker_markers. apply rebuild_dom.
  - intros it Hin. apply updateMyMarker_placed; [done|].
    apply (upserts_placed l _ (rebuild_start_ok mv Hok) (located_nodup l Hnd)); [|done].
    intros it' _. apply lookup_empty.
Qed.
End Inv.

(** ** Segments that keep the invariants *)

Section Keeps.
Context `{Platform}.

(** Two states that agree on what the invariants read. *)
Definition agree (a b : app) : Prop :=
  storage_of b = storage_of a /\ myPosition b = myPosition a /\ map_of b = map_of a /\
  feed_html b = feed_html a /\ search_value b = search_value a /\ filter_value b = filter_value a /\
  form_of b = form_of a /\ created b = created a /\ pending b = pending a.

Lemma app_inv_agree (a b : app) : agree a b -> app_inv a -> app_inv b.
Proof.
  intros (Hs & Hp & Hm & Hf & Hsv & Hfv & Hfo & Hc & Hpe) (Hst & Henv & Hv).
  unfold app_inv, store_inv, env_inv, views_ok in *.
  rewrite Hs, Hp, Hm, Hf, Hsv, Hfv, Hfo, Hc, Hpe. done.
Qed.

(** [keeps m]: from a state with the invariants, [m] ends or throws in
    one. *)
Definition keeps {A} (m : M A) : Prop := forall a, app_inv a -> wp m (fun _ b => app_inv b) app_inv a.

Lemma keeps_then {A B} (m : M A) (k : M B) (Q : B -> app -> Prop) (a : app) :
  keeps m -> (forall b, app_inv b -> wp k Q app_inv b) -> app_inv a -> wp (m;; k) Q app_inv a.
Proof. intros Hm Hk Ha. rewrite wp_bind. eapply wp_mono; [|done|by apply Hm]. auto. Qed.

Lemma keeps_modify (f : app -> app) : (forall a, app_inv a -> app_inv (f a)) -> keeps (modify f).
Proof. intros Hf a Ha. rewrite wp_modify. auto. Qed.

Lemma keeps_agree (f : app -> app) : (forall a, agree a (f a)) -> keeps (modify f).
Proof. intros Hf. apply keeps_modify. intros a. apply app_inv_agree, Hf. Qed.

Lemma keeps_setStatus (m s : jstr) : keeps (setStatus m s).
Proof. apply keeps_agree. intros a. by split_and!. Qed.

Lemma keeps_send (t : jstr) : keeps (modify (send t)).
Proof. apply keeps_agree. intros a. by split_and!. Qed.

Lemma keeps_throw {A} (e : js_exn) : keeps (lift (A:=A) (Throw e)).
Proof. intros a Ha. by rewrite wp_lift. Qed.
End Keeps.

(** ** Rendering keeps the invariants *)

Section Rendering.
Context `{Platform}.

Lemma store_repr_unique (st : storage) (l1 l2 : list item) :
  store_repr st l1 -> store_repr st l2 -> l1 = l2.
Proof.
  intros H1%items_of_repr H2%items_of_repr. rewrite H1 in H2. by injection H2.
Qed.

Lemma rendered_fields (l : list item) (a : app) :
  storage_of (rendered l a) = storage_of a /\ myPosition (rendered l a) = myPosition a /\
  form_of (rendered l a) = form_of a /\ created (rendered l a) = created a /\
  pending (rendered l a) = pending a /\ search_value (rendered l a) = search_value a /\
  filter_value (rendered l a) = filter_value a /\
  feed_html (rendered l a) = renderFeed l (search_value a) (filter_value a) /\
  map_of (rendered l a) = option_map (fun mv => updateMyMarkerOnMap (rebuildMarkers mv l) (myPosition a)) (map_of a).
Proof. unfold rendered. destruct (map_of a) eqn:Hm; simpl; rewrite ?Hm; split_and!; reflexivity. Qed.

(** The views of a state are those of [l] when its map is one. *)
Lemma views_of_map (a : app) (l : list item) (mv : map_view) :
  views_ok a -> store_repr (storage_of a) l -> map_of a = Some mv -> map_ok l mv.
Proof.
  intros (l' & Hl' & _ & Hm) Hr Hmv. rewrite (items_of_repr _ _ Hr) in Hl'. injection Hl' as <-. auto.
Qed.

(** The map of a state satisfies the handle invariant. *)
Definition handles_inv (a : app) : Prop :=
  forall mv, map_of a = Some mv -> handles_ok mv /\ on_map_exact mv.

Lemma app_inv_handles (a : app) : app_inv a -> handles_inv a.
Proof.
  intros (Hst & _ & Hv) mv Hmv. destruct Hst as (l & Hr & _).
  by destruct (views_of_map a l mv Hv Hr Hmv) as (? & ? & _).
Qed.

Lemma rendered_inv (l : list item) (a : app) :
  store_inv a -> env_inv a -> handles_inv a -> store_repr (storage_of a) l -> app_inv (rendered l a).
Proof.
  intros Hst Henv Hh Hr. destruct (rendered_fields l a) as (Hs & Hp & Hf & Hc & Hpe & Hsv & Hfv & Hfe & Hm).
  split_and!.
  - unfold store_inv. by rewrite Hs, Hc.
  - unfold env_inv. by rewrite Hf, Hp, Hpe.
  - exists l. rewrite Hs, Hfe, Hsv, Hfv, Hm. split_and!; [by apply items_of_repr|done|].
    intros mv' Hmv'. destruct (map_of a) as [mv|] eqn:Hma; simplify_eq/=.
    destruct Hst as (l0 & Hr0 & _ & Hnd & _). rewrite (store_repr_unique _ _ _ Hr Hr0).
    destruct (Hh mv Hma). by apply redraw_map_ok.
Qed.

(** [renderAll] from a state whose store holds records and whose map
    keeps its handles establishes the invariants. *)
Lemma wp_renderAll (a : app) (Q : unit -> app -> Prop) :
  store_inv a -> env_inv a -> handles_inv a -> (forall b, app_inv b -> Q tt b) ->
  wp renderAll Q app_inv a.
Proof.
  intros Hst Henv Hh HQ. destruct Hst as (l & Hr & Hrest). unfold wp.
  rewrite (renderAll_ok a l (items_of_repr _ _ Hr)). apply HQ, rendered_inv; [by exists l|done..].
Qed.

Lemma keeps_renderAll : keeps renderAll.
Proof.
  intros a Ha. apply wp_renderAll; [apply Ha|apply Ha|by apply app_inv_handles|done].
Qed.

Lemma keeps_renderFeed : keeps renderFeed_M.
Proof.
  intros a (Hst & Henv & Hv). destruct Hst as (l & Hr & Hrest). unfold wp, renderFeed_M, bindM, gets, lift, modify.
  simpl. rewrite (items_of_repr _ _ Hr). split_and!; [by exists l|done|].
  exists l. split_and!; [by apply items_of_repr|done|]. intros mv Hmv. eapply views_of_map; eauto.
Qed.
End Rendering.

(** ** Store updates keep the invariants *)

Section StoreUpdates.
Context `{Platform}.

(** [uuid()] does not repeat itself: the uniqueness the specification
    assumes of generated ids. *)
Hypothesis uuid_inj : forall n m, uuid n = uuid m -> n = m.

Lemma fresh_ids_S (n : nat) (l : list item) : fresh_ids n l -> fresh_ids (S n) l.
Proof. intros Hf. eapply Forall_impl; [exact Hf|]. intros it Hit k Hk. apply Hit. lia. Qed.

Lemma fresh_ids_new (n : nat) (it : item) (l : list item) :
  fresh_ids n l -> id it = uuid n -> (id it ∉ map id l) /\ fresh_ids (S n) (it :: l).
Proof.
  intros Hfr Hid. split.
  - rewrite Hid. intros (it' & Heq & Hin)%list_elem_of_fmap.
    unfold fresh_ids in Hfr. rewrite Forall_forall in Hfr. by apply (Hfr it' Hin n).
  - constructor; [|by apply fresh_ids_S]. intros k Hk. rewrite Hid. intros ->%uuid_inj. lia.
Qed.

Lemma app_inv_bump (a : app) : app_inv a -> app_inv (bump_created a).
Proof.
  intros ((l & Hr & Hok & Hnd & Hfr) & Henv & Hv). split_and!; [|done|done].
  exists l. split_and!; [done..|by apply fresh_ids_S].
Qed.

(** The id of the record being created is the next [uuid()]: adding it,
    then rendering, keeps the invariants; a failing save leaves them. *)
Lemma wp_create {A} (it : item) (k : unit -> M A) (Q : A -> app -> Prop) (a : app) :
  app_inv a -> id it = uuid (created a) -> item_ok it = true ->
  (forall b, app_inv b -> wp (k tt) Q app_inv b) ->
  wp (modify bump_created;; bindM (addItem it) k) Q app_inv a.
Proof.
  intros Ha Hid Hok HQ. pose proof (app_inv_bump a Ha) as Hb.
  destruct Ha as ((l & Hr & Hlok & Hnd & Hfr) & Henv & Hv).
  do 3 wp_step. unfold addItem. do 4 wp_step.
  change (storage_of (bump_created a)) with (storage_of a). rewrite (addItem_store_repr it l _ Hr).
  destruct (saveItems _ (storage_of a)) as [st'|e] eqn:Hs; [|done].
  do 2 wp_step. destruct (fresh_ids_new _ it l Hfr Hid) as [Hni Hfr'].
  apply wp_renderAll; [|apply Henv|by apply app_inv_handles in Hb|done].
  exists (it :: l). split_and!; [|simpl; by rewrite Hok, Hlok|by constructor|done].
  apply (saveItems_repr _ (storage_of a)); [simpl; by rewrite Hok, Hlok|done].
Qed.

Lemma fresh_ids_sublist (n : nat) (l l' : list item) :
  sublist l' l -> fresh_ids n l -> fresh_ids n l'.
Proof.
  unfold fresh_ids. intros Hsub. induction Hsub; intros Hf; [done| |].
  - inversion Hf; subst. constructor; auto.
  - inversion Hf; subst. auto.
Qed.

(** The store after a successful delete holds the records without that
    id; a failing delete leaves the state. *)
Lemma keeps_on_delete (attr : jstr) : keeps (on_delete attr).
Proof.
  intros a Ha. pose proof (app_inv_handles a Ha) as Hh.
  destruct Ha as ((l & Hr & Hlok & Hnd & Hfr) & Henv & Hv).
  unfold on_delete. do 4 wp_step. rewrite (deleteItem_store_repr attr l _ Hr).
  destruct (saveItems _ (storage_of a)) as [st'|e] eqn:Hs; [|by split_and!; [exists l|..]].
  do 2 wp_step. rewrite wp_bind. apply wp_renderAll; [|done|done|].
  - assert (Hsub : sublist (StoreSpec.remove attr l) l) by apply filter_sublist_bool.
    exists (StoreSpec.remove attr l). split_and!.
    + apply (saveItems_repr _ (storage_of a)); [by apply remove_items_ok|done].
    + by apply remove_items_ok.
    + eapply sublist_NoDup; [exact Hnd|]. by apply map_sublist.
    + by apply (fresh_ids_sublist _ l).
  - intros b Hb. by apply keeps_setStatus.
Qed.

(** [clearAll]: the store is empty and rendered. *)
Lemma keeps_clearAll : keeps clearAll.
Proof.
  intros a Ha. pose proof (app_inv_handles a Ha) as Hh. destruct Ha as (Hst & Henv & Hv).
  unfold clearAll. do 2 wp_step. apply wp_renderAll; [|done|done|done].
  exists []. split_and!; [apply clearAll_store_load|done|constructor|constructor].
Qed.

End StoreUpdates.

(** ** Every handler keeps the invariants *)

Section Handlers.
Context `{Platform}.
Hypothesis uuid_inj : forall n m, uuid n = uuid m -> n = m.
Hypothesis uuid_ok : forall n, jstr_ok (uuid n) = true.
Hypothesis nowISO_ok : forall n, jstr_ok (nowISO n) = true.

(** A segment keeps the invariants and leaves well-formed tasks. *)
Definition seg_ok (m : M (list task)) : Prop :=
  forall a, app_inv a -> wp m (fun ts b => app_inv b /\ forallb task_ok ts = true) app_inv a.

Lemma app_inv_set_pending (ts : list task) (a : app) :
  app_inv a -> forallb task_ok ts = true -> app_inv (set_pending ts a).
Proof. intros (Hst & (Hf & Hp & _) & Hv) Ht. split_and!; [exact Hst|by split_and!|exact Hv]. Qed.

Lemma run_inv (m : M (list task)) (a : app) : seg_ok m -> app_inv a -> app_inv (run m a).
Proof.
  intros Hm Ha. apply run_wp. eapply wp_mono; [|done|by apply Hm].
  intros ts b [Hb Ht]. apply app_inv_set_pending; [done|]. rewrite forallb_app. apply andb_true_iff.
  split; [apply Hb|done].
Qed.

Lemma seg_ok_ret (ts : list task) : forallb task_ok ts = true -> seg_ok (ret ts).
Proof. intros Ht a Ha. by rewrite wp_ret. Qed.

Lemma seg_ok_then {A} (m : M A) (k : M (list task)) : keeps m -> seg_ok k -> seg_ok (m;; k).
Proof. intros Hm Hk a Ha. by apply keeps_then. Qed.


Lemma jstr_ok_trim (s : jstr) : jstr_ok s = true -> jstr_ok (trim s) = true.
Proof.
  unfold jstr_ok. rewrite !forallb_forall, <- !List.Forall_forall. apply trim_forall.
Qed.

(** The records the handlers create are well formed. *)
Lemma item_ok_created (n : nat) (k : item_kind) (t d : jstr) (loc : option position) (img : option jstr) :
  jstr_ok t = true -> jstr_ok d = true -> pos_ok loc = true ->
  match img with Some u => jstr_ok u | None => true end = true ->
  item_ok (mk_item (uuid n) k t d loc (nowISO n) img) = true.
Proof.
  intros Ht Hd Hl Hi. unfold item_ok. cbn [id type description createdAt location imageDataUrl].
  rewrite uuid_ok, nowISO_ok, Ht, Hd, Hi. destruct loc; simpl in *; by rewrite ?Hl.
Qed.

Lemma seg_ok_panic_create (loc : option position) : pos_ok loc = true -> seg_ok (panic_create loc).
Proof.
  intros Hl a Ha. unfold panic_create. do 2 wp_step.
  apply (wp_create uuid_inj _ _ _ a Ha); [reflexivity|apply item_ok_created; done|].
  intros b Hb. apply keeps_then; [apply keeps_send| |done]. intros c Hc. by rewrite wp_ret.
Qed.

Lemma seg_ok_report_finish (loc : option position) (url : option jstr) :
  pos_ok loc = true -> match url with Some u => jstr_ok u | None => true end = true ->
  seg_ok (report_finish loc url).
Proof.
  intros Hl Hu a Ha. pose proof Ha as (_ & (Hf & _) & _). apply andb_true_iff in Hf as [Ht Hd].
  unfold report_finish. do 4 wp_step.
  apply (wp_create uuid_inj _ _ _ a Ha); [reflexivity|apply item_ok_created; auto using jstr_ok_trim|].
  intros b Hb. apply keeps_then; [|intros c Hc; apply keeps_then; [apply keeps_setStatus| |done]|done].
  - apply keeps_modify. intros c (Hst & (_ & Hp & Hpe) & Hv). split_and!; [exact Hst|by split_and!|exact Hv].
  - intros d Hd'. by rewrite wp_ret.
Qed.

Lemma renderFeed_M_ok (a : app) (l : list item) :
  items_of (loadItems (storage_of a)) = Ok l ->
  renderFeed_M a = (set_feed (renderFeed l (search_value a) (filter_value a)) a, Ok tt).
Proof. intros Hl. unfold renderFeed_M, bindM, gets, lift, modify. simpl. by rewrite Hl. Qed.

(** Changing the search box or the category, then [renderFeed]. *)
Lemma seg_ok_refeed (f : app -> app) (k : M (list task)) :
  (forall a, storage_of (f a) = storage_of a /\ map_of (f a) = map_of a /\ form_of (f a) = form_of a /\
             myPosition (f a) = myPosition a /\ created (f a) = created a /\ pending (f a) = pending a) ->
  seg_ok k -> seg_ok (modify f;; renderFeed_M;; k).
Proof.
  intros Hf Hk a Ha. destruct (Hf a) as (Hs & Hm & Hfo & Hp & Hc & Hpe).
  pose proof Ha as ((l & Hr & Hrest) & (Hfok & Hpok & Htok) & Hv).
  do 3 wp_step. unfold wp at 1. rewrite (renderFeed_M_ok (f a) l) by (rewrite Hs; by apply items_of_repr).
  apply Hk. split_and!.
  - exists l. simpl. by rewrite Hs, Hc.
  - unfold env_inv. simpl. by rewrite Hfo, Hp, Hpe.
  - exists l. simpl. rewrite Hs, Hm. split_and!; [by apply items_of_repr|done|].
    intros mv Hmv. by apply (views_of_map a l mv Hv Hr).
Qed.

Lemma keeps_set_form (fm : form) : form_ok fm = true -> keeps (modify (set_form fm)).
Proof.
  intros Hfm. apply keeps_modify. intros a (Hst & (_ & Hp & Ht) & Hv).
  split_and!; [exact Hst|unfold env_inv; simpl; by split_and!|exact Hv].
Qed.

Lemma keeps_set_position (p : position) : position_ok p = true -> keeps (modify (set_position (Some p))).
Proof.
  intros Hp. apply keeps_modify. intros a (Hst & (Hf & _ & Ht) & Hv).
  split_and!; [exact Hst|unfold env_inv; simpl; by split_and!|exact Hv].
Qed.

Lemma seg_ok_catch (m h : M (list task)) : seg_ok m -> seg_ok h -> seg_ok (catchM m h).
Proof.
  intros Hm Hh a Ha. rewrite wp_catch. specialize (Hm a Ha). unfold wp in *.
  destruct (m a) as [a' [x|e]]; [done|by apply Hh].
Qed.

Lemma keeps_seg {A} (m : M A) : keeps m -> forall k : M (list task), seg_ok k -> seg_ok (m;; k).
Proof. intros Hm k Hk. by apply seg_ok_then. Qed.

(** The theme toggle's write, then the rest of the handler. *)
Lemma seg_ok_theme_write (v : jstr) (k : M (list task)) :
  seg_ok k ->
  seg_ok (let* st := gets storage_of in let* st' := lift (setItem LS_THEME v st) in modify (set_storage st');; k).
Proof.
  intros Hk a Ha. do 4 wp_step. destruct (setItem LS_THEME v (storage_of a)) as [st'|e] eqn:Hs; [|done].
  do 2 wp_step. apply Hk. destruct Ha as ((l & Hr & Hrest) & Henv & (l' & Hl' & Hf & Hm)).
  assert (Hload : loadItems st' = loadItems (storage_of a))
    by (eapply loadItems_setItem_other; [apply LS_THEME_LS_KEY|exact Hs]).
  split_and!; [exists l; unfold store_repr in *; simpl; by rewrite Hload|done|].
  exists l'. simpl. rewrite Hload. auto.
Qed.

Lemma keeps_catch {A} (m h : M A) : keeps m -> keeps h -> keeps (catchM m h).
Proof.
  intros Hm Hh a Ha. rewrite wp_catch. specialize (Hm a Ha). unfold wp in *.
  destruct (m a) as [a' [x|e]]; [done|by apply Hh].
Qed.

Lemma keeps_set_light (b : bool) : keeps (modify (fun a => set_light b a)).
Proof. apply keeps_agree. intros a. by split_and!. Qed.

Lemma keeps_toggle : keeps (modify (fun a => set_light (negb (light a)) a)).
Proof. apply keeps_agree. intros a. by split_and!. Qed.

(** Segments built from kept steps and a final [ret]. *)
Ltac seg_solve :=
  repeat first
    [ apply seg_ok_ret; done
    | apply seg_ok_then;
      [ first [ apply keeps_setStatus | apply keeps_send | apply keeps_renderAll
              | apply keeps_clearAll | apply keeps_on_delete | apply keeps_toggle ] | ] ].

Lemma seg_ok_report_after_geo (loc : option position) :
  pos_ok loc = true -> seg_ok (report_after_geo loc).
Proof.
  intros Hl a Ha. unfold report_after_geo. do 2 wp_step.
  destruct (form_file (form_of a)); [rewrite wp_ret; simpl; by rewrite Hl|].
  by apply seg_ok_report_finish.
Qed.

(** Centring the map keeps what the invariants read of it. *)
Lemma map_ok_centerOn (l : list item) (mv : map_view) (p : position) :
  map_ok l mv -> map_ok l (centerOn mv p).
Proof.
  intros (Hh & Hex & Hd & Hp). destruct (centerOn_layers mv p) as (_ & _ & _ & Hm & _).
  split_and!; [by apply centerOn_handles_ok|by apply centerOn_exact|by rewrite Hm|]. intros it Hin. by apply centerOn_placed, Hp.
Qed.

Lemma keeps_center_view : keeps center_view.
Proof.
  intros a Ha. unfold center_view. do 2 wp_step.
  destruct (map_of a) as [mv|] eqn:Hm; do 2 wp_step; destruct (myPosition a) as [q|]; try by rewrite wp_ret.
  rewrite wp_modify. destruct Ha as (Hst & Henv & l & Hl & Hf & Hmap).
  split_and!; [exact Hst|exact Henv|]. exists l. split_and!; [exact Hl|exact Hf|].
  intros mv' Hmv'. cbn in Hmv'. injection Hmv' as <-. by apply map_ok_centerOn, Hmap.
Qed.

(** A segment followed by another, whatever the first returned. *)
Lemma seg_ok_bind_seg (m : M (list task)) (k : list task -> M (list task)) :
  seg_ok m -> (forall ts, seg_ok (k ts)) -> seg_ok (bindM m k).
Proof. intros Hm Hk a Ha. rewrite wp_bind. eapply wp_mono; [|done|by apply Hm]. intros ts b [Hb _]. by apply Hk. Qed.

(** [refreshLocation] after its position, its [catch] included. *)
Lemma seg_ok_refresh_resume (o : outcome) : outcome_ok o = true -> seg_ok (refresh_resume o).
Proof.
  intros Ho. destruct o; simpl in Ho; unfold refresh_resume; try solve [seg_solve].
  apply seg_ok_then; [|seg_solve]. apply keeps_catch; [|apply keeps_setStatus].
  intros a Ha. apply keeps_then; [by apply keeps_set_position| |done].
  intros b Hb. apply keeps_then; [apply keeps_setStatus| |done]. by apply keeps_renderAll.
Qed.

(** The handler of every well-formed event keeps the invariants. *)
Lemma seg_ok_dispatch (ev : event) : event_ok ev = true -> seg_ok (dispatch ev).
Proof.
  intros Hev. destruct ev; simpl in Hev; unfold dispatch; unfold_handlers.
  - seg_solve.
  - intros a Ha. do 2 wp_step. pose proof Ha as (_ & (_ & Hp & _) & _).
    destruct (myPosition a) eqn:E; [by apply seg_ok_report_after_geo|by rewrite wp_ret].
  - seg_solve.
  - destruct confirmed; seg_solve.
  - seg_solve.
  - seg_solve.
  - intros a Ha. do 2 wp_step. destruct (myPosition a); [|by rewrite wp_ret]. revert a Ha. seg_solve.
  - apply seg_ok_then; [apply keeps_toggle|]. intros a Ha. do 2 wp_step.
    apply seg_ok_theme_write; [seg_solve|done].
  - apply seg_ok_refeed; [by intros|seg_solve].
  - apply seg_ok_refeed; [by intros|seg_solve].
  - apply seg_ok_then; [|seg_solve]. apply keeps_modify.
    intros a (Hst & (_ & Hp & Ht) & Hv). split_and!; [exact Hst|unfold env_inv; simpl; by split_and!|exact Hv].
  - apply seg_ok_then; [by apply keeps_set_form|seg_solve].
  - seg_solve.
  - intros a Ha. do 2 wp_step. destruct (map_of a); [|by rewrite wp_ret]. do 2 wp_step.
    destruct (myPosition a); revert a Ha; [apply seg_ok_then; [apply keeps_center_view|]|]; seg_solve.
  - intros a Ha. do 2 wp_step. destruct (maps_listener a); [|by rewrite wp_ret]. do 2 wp_step.
    destruct (myPosition a); [by rewrite wp_ret|]. revert a Ha. seg_solve.
Qed.

(** Every continuation, on an outcome that fits, keeps the invariants. *)
Lemma seg_ok_resume (t : task) (o : outcome) :
  task_ok t = true -> fits t o = true -> outcome_ok o = true -> seg_ok (resume t o).
Proof.
  intros Ht Hfit Ho. destruct t, o; simpl in Ht, Hfit, Ho; try discriminate; unfold resume;
    first
      [ by apply seg_ok_refresh_resume
      | unfold center_resume; apply seg_ok_bind_seg; [by apply seg_ok_refresh_resume|];
        intros ?; apply seg_ok_then; [apply keeps_center_view|seg_solve]
      | unfold_handlers; cbv beta iota ];
    first
      [ solve [seg_solve]
      | destruct share; solve [seg_solve]
      | destruct row; solve [seg_solve]
      | by apply seg_ok_report_after_geo
      | by apply seg_ok_report_finish
      | intros a Ha; by rewrite wp_lift
      | apply seg_ok_then; [first [by apply keeps_set_position | apply keeps_setStatus]|];
        first [by apply seg_ok_panic_create | by apply seg_ok_report_after_geo] ].
Qed.

(** One step of the page keeps the invariants. *)
Lemma step_inv (a b : app) : step a b -> app_inv a -> app_inv b.
Proof.
  intros Hs Ha. destruct Hs as [ev a Hev|a pre post t o Hp Hfit Ho].
  - by apply run_inv; [apply seg_ok_dispatch|].
  - pose proof Ha as (_ & (_ & _ & Ht) & _). rewrite Hp, forallb_app in Ht. simpl in Ht.
    apply andb_true_iff in Ht as [Hpre Ht]. apply andb_true_iff in Ht as [Ht Hpost].
    apply run_inv; [by apply seg_ok_resume|]. apply app_inv_set_pending; [done|].
    rewrite forallb_app. by apply andb_true_iff.
Qed.
End Handlers.

(** ** The invariants of the reachable states *)

Section Reachable.
Context `{Platform}.
Hypothesis uuid_inj : forall n m, uuid n = uuid m -> n = m.
Hypothesis uuid_ok : forall n, jstr_ok (uuid n) = true.
Hypothesis nowISO_ok : forall n, jstr_ok (nowISO n) = true.

(** A storage area the page can start from: it holds well-formed
    records with unique ids, none of which [uuid()] will give again
    (an area without the items key is one). *)
Definition start_ok (st : storage) : Prop :=
  exists l, store_repr st l /\ forallb item_ok l = true /\ NoDup (map id l) /\ fresh_ids 0 l.

Lemma boot_inv (st : storage) : start_ok st -> app_inv (boot st).
Proof.
  intros Hst. unfold boot. apply (run_wp _ app_inv). do 1 wp_step.
  assert (Hgo : forall a, storage_of a = st -> form_of a = mk_form [] [] false -> myPosition a = None ->
            created a = 0%nat -> pending a = [] -> map_of a = None ->
            wp (initMap;; renderAll;; modify set_maps_listener;; ret [])
               (fun ts a' => app_inv (set_pending (pending a' ++ ts) a')) app_inv a).
  { intros a Hs Hf Hp Hc Hpe Hm. unfold initMap. do 2 wp_step. rewrite wp_bind. apply wp_renderAll.
    - unfold store_inv. simpl. by rewrite Hs, Hc.
    - unfold env_inv. simpl. by rewrite Hf, Hp, Hpe.
    - intros mv. simpl. rewrite Hp. intros [= <-]. split; [apply init_map_view_ok|apply init_map_view_exact].
    - intros b (Hs' & He' & Hv'). rewrite wp_bind, wp_modify, wp_ret, app_nil_r, set_pending_same.
      split_and!; [exact Hs'|exact He'|exact Hv']. }
  unfold loadTheme. do 2 wp_step. destruct (decide _); [wp_step|rewrite wp_ret]; by apply Hgo.
Qed.

Lemma reachable_inv (st : storage) (a : app) : start_ok st -> reachable st a -> app_inv a.
Proof.
  intros Hst. unfold reachable. revert a.
  apply rtc_ind_r; [by apply boot_inv|]. intros y z _ Hyz IH. eapply step_inv; eauto.
Qed.

(** C6. Ids are unique at all times: every state the page reaches stores
    well-formed records with pairwise distinct ids. *)
Theorem reachable_ids_unique (st : storage) (a : app) :
  start_ok st -> reachable st a ->
  exists l, store_repr (storage_of a) l /\ forallb item_ok l = true /\ NoDup (map id l).
Proof.
  intros Hst Hr. destruct (reachable_inv st a Hst Hr) as ((l & Hrep & Hok & Hnd & _) & _). eauto.
Qed.

(** The store is typed at all times: in every reachable state,
    [JSON.parse] of the stored text has the type [items_ty] of an array
    of records, the shape [renderFeed] and [rebuildMarkers] read without
    checking it. *)
Theorem reachable_store_typed (st : storage) (a : app) :
  start_ok st -> reachable st a -> has_type (loadItems (storage_of a)) items_ty.
Proof.
  intros Hst Hr. destruct (reachable_inv st a Hst Hr) as ((l & Hrep & _) & _).
  rewrite Hrep. apply items_to_json_typed.
Qed.

(** C4. The feed always shows the store: in every reachable state the feed
    is [renderFeed] of the stored records, the search box and the
    category. *)
Theorem reachable_feed_shows_store (st : storage) (a : app) :
  start_ok st -> reachable st a ->
  exists l, store_repr (storage_of a) l /\ feed_html a = renderFeed l (search_value a) (filter_value a).
Proof.
  intros Hst Hr. destruct (reachable_inv st a Hst Hr) as ((l & Hrep & _) & _ & Hv).
  destruct Hv as (l' & Hl' & Hf & _). rewrite (items_of_repr _ _ Hrep) in Hl'. injection Hl' as <-. eauto.
Qed.

(** C5. Marker sync: in every reachable state with a map, there is one
    incident marker per stored record with a location, each on the map
    at that location with its popup, and no other. *)
Theorem reachable_marker_sync (st : storage) (a : app) (mv : map_view) :
  start_ok st -> reachable st a -> map_of a = Some mv ->
  exists l, store_repr (storage_of a) l /\ size (markers mv) = length (located l) /\
            dom (markers mv) = list_to_set (map id (located l)) /\ (forall it, In it l -> placed mv it) /\
            (forall h, h ∈ on_map (leaflet_of mv) <->
                       (exists k, markers mv !! k = Some h) \/ myMarker mv = Some h).
Proof.
  intros Hst Hr Hm. destruct (reachable_inv st a Hst Hr) as ((l & Hrep & _ & Hnd & _) & _ & Hv).
  destruct (views_of_map a l mv Hv Hrep Hm) as (_ & Hex & Hdom & Hpl). exists l. split_and!; [done| |done|done|].
  - rewrite <- size_dom, Hdom, size_list_to_set by (apply located_nodup, Hnd).
    apply length_map.
  - intros h. rewrite (Hex h), elem_of_union, elem_of_map_img. destruct (myMarker mv); simpl; set_solver.
Qed.
End Reachable.

(** ** The sample environment meets the hypotheses *)

Section Witnesses.
#[local] Existing Instance sample_platform.

Lemma sample_uuid_inj : forall n m, uuid n = uuid m -> n = m.
Proof.
  intros n m. unfold uuid. simpl. intros Heq. injection Heq as Heq.
  apply (f_equal decimal_value) in Heq. rewrite !decimal_value_nat_to_decimal in Heq by lia. lia.
Qed.

Lemma sample_uuid_ok : forall n, jstr_ok (uuid n) = true.
Proof.
  intros n. unfold uuid, jstr_ok. simpl.
  apply forallb_forall. intros c Hc%list_elem_of_In.
  pose proof (nat_to_decimal_digits (Z.of_nat n) ltac:(lia)) as Hd. rewrite Forall_forall in Hd.
  specialize (Hd c Hc). unfold is_digit in Hd. unfold is_code_unit. zbool_cases.
Qed.

Lemma sample_nowISO_ok : forall n, jstr_ok (nowISO n) = true.
Proof. reflexivity. Qed.

Lemma start_ok_empty : start_ok empty_storage.
Proof. exists []. split_and!; [|done|constructor|constructor]. by apply loadItems_absent. Qed.

Lemma scenario_B_reachable : reachable empty_storage scenario_B.
Proof.
  unfold reachable, scenario_B. eapply rtc_l; [apply (step_event Panic); reflexivity|].
  eapply rtc_l; [|apply rtc_refl].
  apply (step_resume _ [] [] TPanicGeo (GeoOk sample_position)); [vm_compute; reflexivity|done|done].
Defined.

Lemma reachable_ids_unique_witness :
  start_ok empty_storage /\ reachable empty_storage scenario_B /\
  exists l, store_repr (storage_of scenario_B) l /\ forallb item_ok l = true /\ NoDup (map id l).
Proof.
  split_and!; [apply start_ok_empty|apply scenario_B_reachable|].
  apply (reachable_ids_unique sample_uuid_inj sample_uuid_ok sample_nowISO_ok empty_storage);
    [apply start_ok_empty|apply scenario_B_reachable].
Defined.

Lemma reachable_feed_shows_store_witness :
  start_ok empty_storage /\ reachable empty_storage scenario_B /\
  exists l, store_repr (storage_of scenario_B) l /\
            feed_html scenario_B = renderFeed l (search_value scenario_B) (filter_value scenario_B).
Proof.
  split_and!; [apply start_ok_empty|apply scenario_B_reachable|].
  apply (reachable_feed_shows_store sample_uuid_inj sample_uuid_ok sample_nowISO_ok empty_storage);
    [apply start_ok_empty|apply scenario_B_reachable].
Defined.

Lemma reachable_marker_sync_witness :
  start_ok empty_storage /\ reachable empty_storage scenario_B /\ is_Some (map_of scenario_B) /\
  forall mv, map_of scenario_B = Some mv ->
  exists l, store_repr (storage_of scenario_B) l /\ size (markers mv) = length (located l) /\
            dom (markers mv) = list_to_set (map id (located l)) /\ (forall it, In it l -> placed mv it) /\
            (forall h, h ∈ on_map (leaflet_of mv) <->
                       (exists k, markers mv !! k = Some h) \/ myMarker mv = Some h).
Proof.
  split_and!; [apply start_ok_empty|apply scenario_B_reachable|vm_compute; eauto|].
  intros mv Hm.
  apply (reachable_marker_sync sample_uuid_inj sample_uuid_ok sample_nowISO_ok empty_storage);
    [apply start_ok_empty|apply scenario_B_reachable|exact Hm].
Defined.
End Witnesses.
