(* ===== verification/Progress.v ===== *)
(** * Progress of the pending [await]s

    Every handler of [src/app.js] that awaits a platform promise
    ([ensureGeolocation], [fileToDataURL], [navigator.share],
    [navigator.clipboard.writeText]) leaves a [task] in [pending]; the
    platform settles it later ([resume] of [App]).  This file shows that
    settling is well behaved whatever the outcomes: a resumption leaves
    the other pending tasks as they were and adds only tasks of smaller
    weight (the panic's geolocation is followed by its share, the
    report's geolocation by its file read, nothing else is followed by
    anything).  Hence no sequence of settlements without new events is
    infinite, and from every state the platform can settle every pending
    [await].

    The frame calculus [frames g m P] says that [m] keeps the field [g]
    of the state and returns a value satisfying [P]; it is proved on the
    segments by their structure ([frame_solve]). *)

From S2P Require Import Prelude Item Store Platform MapView Feed App Invariants.

Local Open Scope js_scope.

(** ** Segments that keep a field of the state *)

Section Frame.
Context {T : Type} (g : app -> T).

Definition frames {A} (m : M A) (P : A -> Prop) : Prop :=
  forall a, wp m (fun x b => g b = g a /\ P x) (fun b => g b = g a) a.

Lemma frames_ret {A} (x : A) (P : A -> Prop) : P x -> frames (ret x) P.
Proof. by intros ? a. Qed.

Lemma frames_bind {A B} (m : M B) (k : B -> M A) (P : A -> Prop) :
  frames m (fun _ => True) -> (forall x, frames (k x) P) -> frames (bindM m k) P.
Proof.
  intros Hm Hk a. rewrite wp_bind.
  eapply wp_mono; [| |apply Hm]; cbv beta; [intros x b [Hb _]|done].
  eapply wp_mono; [| |apply Hk]; cbv beta; [intros ?? [-> ?]|intros ? ->]; auto.
Qed.

Lemma frames_gets {A} (f : app -> A) : frames (gets f) (fun _ => True).
Proof. by intros a. Qed.

Lemma frames_lift {A} (r : result A) : frames (lift r) (fun _ => True).
Proof. intros a. by destruct r. Qed.

Lemma frames_throw {A} (e : js_exn) (P : A -> Prop) : frames (lift (Throw e)) P.
Proof. by intros a. Qed.

Lemma frames_modify (f : app -> app) : (forall a, g (f a) = g a) -> frames (modify f) (fun _ => True).
Proof. intros Hf a. by rewrite wp_modify. Qed.

Lemma frames_wp {A} (m : M A) (P : A -> Prop) (Q : A -> app -> Prop) (E : app -> Prop) (a : app) :
  frames m P -> (forall x b, g b = g a -> P x -> Q x b) -> (forall b, g b = g a -> E b) -> wp m Q E a.
Proof. intros Hm HQ HE. eapply wp_mono; [| |apply Hm]; cbv beta; [intros ?? []|]; auto. Qed.

Lemma frames_catch {A} (m h : M A) (P : A -> Prop) : frames m P -> frames h P -> frames (catchM m h) P.
Proof.
  intros Hm Hh a. rewrite wp_catch.
  eapply wp_mono; [| |apply Hm]; cbv beta; [done|intros b Hb].
  eapply wp_mono; [| |apply Hh]; cbv beta; [intros ?? [-> ?]|intros ? ->]; auto.
Qed.
End Frame.

(** A segment's structure, down to the combinators of the monad; every
    [modify] of the handlers updates a field other than [pending]. *)
Ltac frame_solve :=
  repeat first
    [ apply frames_bind; [|intros ?]
    | apply frames_catch
    | apply frames_gets
    | apply frames_lift
    | apply frames_throw
    | apply frames_modify; intros ?; reflexivity
    | apply frames_ret
    | progress unfold renderAll, renderLocationBox, renderFeed_M, redraw_map, setStatus,
        addItem, panic_create, report_finish, report_after_geo, center_view
    | match goal with
      | |- frames _ (match ?x with _ => _ end) _ => destruct x
      | |- frames _ (if ?x then _ else _) _ => destruct x
      end ].

(** ** The weight of the pending tasks *)

(** A geolocation await is followed by one more await (the share of the
    panic, the file read of the report); the others by none. *)
Definition task_weight (t : task) : nat :=
  match t with TPanicGeo | TReportGeo => 2 | _ => 1 end.

Definition pending_weight (ts : list task) : nat := sum_list_with task_weight ts.

Lemma pending_weight_app (l1 l2 : list task) :
  pending_weight (l1 ++ l2) = (pending_weight l1 + pending_weight l2)%nat.
Proof. apply sum_list_with_app. Qed.

(** The settlement of one pending [await], with any outcome that fits
    it: the resumption half of [step]. *)
Inductive settle `{Platform} : app -> app -> Prop :=
| settle_one (a : app) (pre post : list task) (t : task) (o : outcome) :
    pending a = pre ++ t :: post -> fits t o = true -> outcome_ok o = true ->
    settle a (run (resume t o) (set_pending (pre ++ post) a)).

(** The outcome a refusing platform gives: the geolocation fails, the
    file cannot be read, the share or the copy is rejected. *)
Definition refusal (t : task) : outcome :=
  match t with
  | TRefresh | TPanicGeo | TReportGeo | TCenter => GeoFailed
  | TReportFile _ => FileFailed
  | _ => Rejected
  end.

Section Settle.
Context `{Platform}.

Lemma settle_step (a b : app) : settle a b -> step a b.
Proof. destruct 1. by eapply step_resume. Qed.

Lemma refusal_fits (t : task) : fits t (refusal t) = true /\ outcome_ok (refusal t) = true.
Proof. by destruct t. Qed.

(** Every resumption keeps [pending] and returns lighter tasks. *)
Lemma resume_frames (t : task) (o : outcome) :
  frames pending (resume t o) (fun ts => (pending_weight ts < task_weight t)%nat).
Proof. destruct t, o; unfold resume; unfold_handlers; frame_solve; cbn; lia. Qed.

(** The weight of the pending tasks drops at every settlement. *)
Lemma settle_weight (a b : app) :
  settle a b -> (pending_weight (pending b) < pending_weight (pending a))%nat.
Proof.
  destruct 1 as [a pre post t o Hp _ _]. rewrite Hp.
  apply run_wp. eapply wp_mono; [| |apply resume_frames]; cbv beta.
  - intros ts b [-> Hts]. cbn. rewrite !pending_weight_app. unfold pending_weight in *. cbn. lia.
  - intros b ->. cbn. rewrite !pending_weight_app. unfold pending_weight. cbn. destruct t; cbn; lia.
Qed.

(** C14. Termination of the settlements: whatever outcomes the platform
    gives, no infinite sequence of [await] settlements happens without a
    new event of the user. *)
Theorem settle_terminates (a : app) : Acc (fun b a => settle a b) a.
Proof.
  induction a as [a IH] using (induction_ltof1 _ (fun a => pending_weight (pending a))).
  constructor. intros b Hb. apply IH. by apply settle_weight.
Qed.

(** Liveness of the pending [await]s: from every state of the page,
    the platform can settle every pending [await], each with an outcome
    that fits it, so that the page reaches a state with none pending. *)
Theorem pending_drain (a : app) : exists b, rtc step a b /\ pending b = [].
Proof.
  induction a as [a IH] using (induction_ltof1 _ (fun a => pending_weight (pending a))).
  destruct (pending a) as [|t post] eqn:Hp; [by exists a|].
  destruct (refusal_fits t) as [Hf Ho].
  assert (Hs : settle a (run (resume t (refusal t)) (set_pending ([] ++ post) a)))
    by (apply settle_one; auto).
  destruct (IH _ (settle_weight _ _ Hs)) as (b & Hab & Hb).
  exists b. split; [|done]. eapply rtc_l; [apply settle_step, Hs|exact Hab].
Qed.
End Settle.
