(* ===== verification/Device.v ===== *)
(** * The promise wrappers of the platform

    [ensureGeolocation] (lines 90-108 of [src/app.js]) and
    [fileToDataURL] (110-118) turn the callbacks of
    [navigator.geolocation.getCurrentPosition] and of [FileReader] into
    promises.  What the browser reports is the input here ([geo_report],
    [file_report]); what the promise settles with is an [outcome] of
    [App], which [resume] consumes.

    The theorems: [Math.round] of the accuracy is within half a metre of
    the reported value, halves going up; every settlement of the
    wrappers on what a browser reports (finite doubles, strings of code
    units) is an outcome the page accepts for the [await] it settles, so
    the step relation of [App] covers every run of the real wrappers. *)

From S2P Require Import Prelude Json Item Store Platform MapView Feed App Invariants Progress.
From Stdlib Require Import Qround Lqa.

Local Open Scope Z_scope.

(** What [getCurrentPosition] calls back with: [pos.coords.latitude],
    [longitude] and [accuracy], or its error callback. *)
Inductive geo_report :=
| GeoPosition (latitude longitude accuracy : Q)
| GeoError.

(** What [FileReader] calls back with: [onload] with [reader.result], or
    [onerror]. *)
Inductive file_report :=
| FileRead (result : jstr)
| FileError.

(** [Math.round(x)]: the nearest integer, halves going up. *)
Definition Math_round (x : Q) : Z := Qfloor (x + (1 # 2)).

(** [ensureGeolocation()], settled: rejected without
    [navigator.geolocation] or on the error callback, else resolved with
    [{lat, lng, acc: Math.round(accuracy)}]. *)
Definition ensureGeolocation (supported : bool) (r : geo_report) : outcome :=
  if supported then
    match r with
    | GeoPosition la ln ac => GeoOk (mk_position la ln (Math_round ac))
    | GeoError => GeoFailed
    end
  else GeoFailed.

(** [fileToDataURL(file)] for a chosen file, settled: resolved with
    [String(reader.result)] on [onload], rejected on [onerror].  Without a
    file it resolves with [null] at once, which [report_after_geo] does
    without an [await]. *)
Definition fileToDataURL (r : file_report) : outcome :=
  match r with FileRead s => FileLoaded s | FileError => FileFailed end.

(** What a browser reports: doubles for the coordinates, code units for
    the data URL. *)
Definition geo_report_ok (r : geo_report) : bool :=
  match r with GeoPosition la ln _ => num_ok la && num_ok ln | GeoError => true end.

Definition file_report_ok (r : file_report) : bool :=
  match r with FileRead s => jstr_ok s | FileError => true end.

(** ** [Math.round] *)

Lemma Math_round_near (x : Q) : (x - (1 # 2) < inject_Z (Math_round x) <= x + (1 # 2))%Q.
Proof.
  unfold Math_round. pose proof (Qfloor_le (x + (1 # 2))) as Hle.
  pose proof (Qlt_floor (x + (1 # 2))) as Hlt.
  rewrite inject_Z_plus in Hlt. change (inject_Z 1) with 1%Q in Hlt. split; lra.
Qed.

(** C16. [Math.round] rounds to nearest, halves up: [Math.round(x)] is
    above [x - 1/2] and at most [x + 1/2], and an integer is kept. *)
Theorem Math_round_bounds (x : Q) :
  (x - (1 # 2) < inject_Z (Math_round x) <= x + (1 # 2))%Q /\
  forall z : Z, Math_round (inject_Z z) = z.
Proof.
  split; [apply Math_round_near|]. intros z.
  destruct (Math_round_near (inject_Z z)) as [H1 H2].
  assert (inject_Z (Math_round (inject_Z z)) < inject_Z (z + 1))%Q
    by (rewrite inject_Z_plus; change (inject_Z 1) with 1%Q; lra).
  assert (inject_Z (z + -1) < inject_Z (Math_round (inject_Z z)))%Q
    by (rewrite inject_Z_plus; change (inject_Z (-1)) with (-1)%Q; lra).
  rewrite <- Zlt_Qlt in *. lia.
Qed.

(** ** The settlements are outcomes the page accepts *)

(** Every settlement of [ensureGeolocation] on what a browser reports
    fits each geolocation [await] (of [refreshLocation], of the
    centre-me button, of the panic and of the report) and is an outcome
    the step relation accepts; every settlement of [fileToDataURL] fits
    the report's file read. *)
Lemma wrappers_settle_ok (supported : bool) (g : geo_report) (f : file_report) (loc : option position) :
  geo_report_ok g = true -> file_report_ok f = true ->
  forallb (fun t => fits t (ensureGeolocation supported g)) [TRefresh; TPanicGeo; TReportGeo; TCenter] = true /\
  outcome_ok (ensureGeolocation supported g) = true /\
  fits (TReportFile loc) (fileToDataURL f) = true /\ outcome_ok (fileToDataURL f) = true.
Proof.
  intros Hg Hf. destruct supported, g, f; cbn in *; split_and!; done.
Qed.

(** ** [refreshLocation] on what the browser reports *)

Section Refresh.
Context `{Platform}.

(** The status of a failed [refreshLocation], line 303. *)
Definition location_failed : jstr * jstr :=
  (lit "Location failed", lit "Tip: Use Chrome and enable location permission.").

(** After the position, the page holds it whether [renderAll] throws or
    not: the [catch] only sets the status. *)
Lemma refresh_resume_ok (p : position) (a : app) :
  pending (run (refresh_resume (GeoOk p)) a) = pending a /\
  myPosition (run (refresh_resume (GeoOk p)) a) = Some p.
Proof.
  apply run_wp. unfold refresh_resume. rewrite wp_bind, wp_catch, wp_bind, wp_modify.
  apply (frames_wp (fun b => (pending b, myPosition b)) _ (fun _ => True)); [frame_solve| |].
  - intros _ b [= Hp Hm] _. rewrite wp_ret. cbn. by rewrite app_nil_r, Hp, Hm.
  - intros b [= Hp Hm]. apply (frames_wp (fun b => (pending b, myPosition b)) _ (fun _ => True));
      [frame_solve| |]; [intros _ c [= Hp' Hm'] _; rewrite wp_ret; cbn; rewrite app_nil_r|intros c [= Hp' Hm']];
      by rewrite Hp', Hm', Hp, Hm.
Qed.

Lemma refresh_resume_failed (o : outcome) (a : app) :
  (forall p, o <> GeoOk p) ->
  pending (run (refresh_resume o) a) = pending a /\ myPosition (run (refresh_resume o) a) = myPosition a /\
  status (run (refresh_resume o) a) = location_failed.
Proof. intros Ho. destruct o; [by destruct (Ho p)|..]; cbn; by rewrite app_nil_r. Qed.

(** C17. [refreshLocation()] on what the browser reports: with
    [navigator.geolocation] and a position, the page holds the reported
    latitude and longitude and the accuracy rounded by [Math.round];
    without the API, or on the error callback, the position is kept and
    the status says the location failed.  No [await] is left behind. *)
Theorem refresh_geolocation (supported : bool) (r : geo_report) (a : app) :
  let b := run (resume TRefresh (ensureGeolocation supported r)) a in
  pending b = pending a /\
  match supported, r with
  | true, GeoPosition la ln ac => myPosition b = Some (mk_position la ln (Math_round ac))
  | _, _ => myPosition b = myPosition a /\ status b = location_failed
  end.
Proof.
  destruct supported; [destruct r|]; cbn [ensureGeolocation resume];
    [apply refresh_resume_ok| |]; (split; [|split]); apply refresh_resume_failed; done.
Qed.
End Refresh.

(** The sample accuracy [14.9] is rounded to [15]. *)
Example Math_round_sample : Math_round (149 # 10) = 15 /\ Math_round ((-5) # 2) = -2.
Proof. split; vm_compute; reflexivity. Qed.
