(* ===== verification/Findings.v ===== *)
(** * Behaviours of the page the specification does not describe

    Each theorem here follows a handler of [src/app.js] through a path
    the specification passes over: a storage area that refuses the panic
    record, a report whose image cannot be read after its position
    arrived, the theme key of [toggleTheme], and a stored value that
    makes [renderAll] throw at boot.  The statements are general: they
    hold on every page state that meets their hypotheses, and the
    witnesses apply them on states the page reaches. *)

From S2P Require Import Prelude JsString Json Item Store Platform MapView Feed App Invariants.

Local Open Scope js_scope.

Section Findings.
Context `{Platform}.

(** C25. A storage area that refuses every write loses the panic alert:
    after the position arrives, [addItem] throws at [setItem] and the
    handler stops there.  Nothing is stored, nothing is handed to
    [share] or the clipboard, no [await] follows, the status and the
    location panel stay as they were, and the page holds the position
    it fetched without showing it. *)
Theorem quota_panic_lost (p : position) (a : app) :
  (forall v, addItem_store v (storage_of a) = Throw QuotaExceededError) ->
  let b := run (resume TPanicGeo (GeoOk p)) a in
  storage_of b = storage_of a /\ outbox b = outbox a /\ pending b = pending a /\
  status b = status a /\ panel_of b = panel_of a /\ myPosition b = Some p.
Proof.
  intros Hq. apply run_wp. unfold resume, panic_after_geo, panic_create, addItem.
  repeat wp_step. cbn [storage_of bump_created set_position]. rewrite Hq. done.
Qed.

(** C26. The location panel goes stale: when a report with a chosen file
    is submitted before any position, the position arrives (the page
    holds it, and the file read is awaited), then the file cannot be
    read; [fileToDataURL]'s rejection is not caught, so [renderAll]
    never runs.  No record is stored, and the panel, which showed no
    position, still shows none while the page holds one. *)
Theorem stale_location_panel (p : position) (a : app) :
  form_file (form_of a) = true -> myPosition a = None -> panel_of a = location_panel (myPosition a) ->
  let a1 := run (resume TReportGeo (GeoOk p)) a in
  let a2 := run (resume (TReportFile (Some p)) FileFailed) (set_pending (pending a) a1) in
  pending a1 = pending a ++ [TReportFile (Some p)] /\
  myPosition a2 = Some p /\ storage_of a2 = storage_of a /\
  panel_of a2 <> location_panel (myPosition a2).
Proof.
  intros Hf Hn Hp. unfold run, resume, report_geo_done, report_after_geo.
  cbn. rewrite Hf. cbn. split_and!; [done|done|done|].
  rewrite Hp, Hn. by intros [=].
Qed.

(** C35. The theme key: [toggleTheme] flips the [light] class, then
    writes [light] or [dark] under [LS_THEME]; toggling back from light
    writes [dark] rather than removing the key.  A write the storage
    area refuses throws after the class has flipped, and the key keeps
    its old value. *)
Theorem theme_writes_dark (a : app) :
  let b := run (dispatch ToggleTheme) a in
  light b = negb (light a) /\
  getItem (storage_of b) LS_THEME =
    match setItem LS_THEME (if light a then lit "dark" else lit "light") (storage_of a) with
    | Ok _ => Some (if light a then lit "dark" else lit "light")
    | Throw _ => getItem (storage_of a) LS_THEME
    end.
Proof.
  apply run_wp. unfold dispatch, toggleTheme. repeat wp_step. cbn [light set_light storage_of].
  destruct (light a); cbn [negb]; destruct (setItem _ _ _) as [st'|e] eqn:E;
    repeat wp_step; cbn [light storage_of set_pending set_storage]; split; try done;
    apply setItem_Ok in E as [Hst _]; unfold getItem; rewrite Hst; by simplify_map_eq.
Qed.

End Findings.

(** ** Witnesses, on the sample platform *)

Section Witnesses.
#[local] Existing Instance sample_platform.

(** A storage area with no room: any [setItem] exceeds it. *)
Definition no_room : storage := mk_storage ∅ 0.

Lemma no_room_refuses (v : jval) : addItem_store v no_room = Throw QuotaExceededError.
Proof.
  unfold addItem_store. replace (loadItems no_room) with (JArr []) by (vm_compute; reflexivity).
  cbn [js_unshift rbind]. unfold saveItems, setItem. cbn [entries quota no_room].
  rewrite insert_empty. unfold storage_used. rewrite map_fold_singleton.
  destruct (Z.leb_spec (Z.of_nat (length LS_KEY) + Z.of_nat (length (codec_stringify (JArr [v]))) + 0) 0);
    [|done].
  exfalso. assert (length LS_KEY > 0)%nat by (vm_compute; lia). lia.
Qed.

Lemma quota_panic_lost_witness :
  (forall v, addItem_store v (storage_of (boot no_room)) = Throw QuotaExceededError) /\
  let b := run (resume TPanicGeo (GeoOk sample_position)) (boot no_room) in
  storage_of b = storage_of (boot no_room) /\ outbox b = outbox (boot no_room) /\
  pending b = pending (boot no_room) /\ status b = status (boot no_room) /\
  panel_of b = panel_of (boot no_room) /\ myPosition b = Some sample_position.
Proof.
  assert (Hq : forall v, addItem_store v (storage_of (boot no_room)) = Throw QuotaExceededError).
  { intros v. replace (storage_of (boot no_room)) with no_room by (vm_compute; reflexivity).
    apply no_room_refuses. }
  split; [exact Hq|]. apply (quota_panic_lost sample_position (boot no_room) Hq).
Defined.

(** The form with a file chosen, on the booted page. *)
Definition file_form_page : app :=
  run (dispatch (EditForm (mk_form (lit "Fire") [] true))) (boot empty_storage).

Lemma stale_location_panel_witness :
  form_file (form_of file_form_page) = true /\ myPosition file_form_page = None /\
  panel_of file_form_page = location_panel (myPosition file_form_page) /\
  let a1 := run (resume TReportGeo (GeoOk sample_position)) file_form_page in
  let a2 := run (resume (TReportFile (Some sample_position)) FileFailed)
                (set_pending (pending file_form_page) a1) in
  pending a1 = pending file_form_page ++ [TReportFile (Some sample_position)] /\
  myPosition a2 = Some sample_position /\ storage_of a2 = storage_of file_form_page /\
  panel_of a2 <> location_panel (myPosition a2).
Proof.
  split; [vm_compute; reflexivity|]. split; [vm_compute; reflexivity|].
  split; [vm_compute; reflexivity|].
  apply (stale_location_panel sample_position file_form_page); vm_compute; reflexivity.
Defined.
End Witnesses.
